(** * NeuraDoc retrieval-and-scoring pipeline: a shallow embedding

    The development embeds the Python back end of the research
    assistant (backend/utils/qa_engine.py, evaluator.py,
    challenge_gen.py, summarizer.py and the text cleaning of
    parser.py) and proves properties of the sentence segmenter, the
    relevance ranker, the answer synthesizer, the answer evaluator,
    the challenge generator, the summarizer and the document cleaner.

    Conventions of the embedding.
    - A Python [str] is a [string]; the character classes of the [re]
      module and of [str.strip]/[str.lower] are written out for ASCII
      text (characters above 127 are neither blank nor word characters
      and are left alone by [lower]).
    - A Python [float] is an exact rational [Q].  The code only orders
      scores, compares them with literals and forms the weighted sum of
      the evaluator; rounding error is not modelled.
    - A Python [set] of words is a [gset string].
    - An exception is the [None] of the function that raises; a
      [try]/[except] matches on it.
    - [np.argsort] is the insertion sort NumPy applies to short arrays:
      indices of equal scores stay in ascending order.
    - The embedder, the span extractor, the summarization model, the
      NLTK tokenizers and the random source are collaborators of the
      code: they are parameters. *)

From Stdlib Require Import QArith Qround Lqa Ascii String List Bool Lia.
From stdpp Require Import gmap strings list sorting pretty.

(** ** Text primitives: [re], [str.strip], [str.lower], [in], [join] *)

Module Text.

Definition code (c : ascii) : nat := nat_of_ascii c.

Definition between (lo hi : nat) (c : ascii) : bool :=
  (lo <=? code c)%nat && (code c <=? hi)%nat.

(** [\s] of a [str] pattern and the blanks of [str.strip], on ASCII:
    TAB, LF, VT, FF, CR, the separators 28..31 and the space. *)
Definition is_space (c : ascii) : bool :=
  between 9 13 c || between 28 32 c.

(** [\w] on ASCII: letters, digits and the underscore. *)
Definition is_word_char (c : ascii) : bool :=
  between 48 57 c || between 65 90 c || between 97 122 c
  || (code c =? 95)%nat.

(** the class [[.!?]] *)
Definition is_sentence_end (c : ascii) : bool :=
  (code c =? 46)%nat || (code c =? 33)%nat || (code c =? 63)%nat.

Definition lower_char (c : ascii) : ascii :=
  if between 65 90 c then ascii_of_nat (code c + 32) else c.

(** [s.lower()] *)
Fixpoint lower (s : string) : string :=
  match s with
  | "" => ""
  | String c s' => String (lower_char c) (lower s')
  end.

(** [s.lstrip()], [s.rstrip()] and [s.strip()] *)
Fixpoint lstrip (s : string) : string :=
  match s with
  | "" => ""
  | String c s' => if is_space c then lstrip s' else s
  end.

Fixpoint rstrip (s : string) : string :=
  match s with
  | "" => ""
  | String c s' =>
      match rstrip s' with
      | "" => if is_space c then "" else String c ""
      | r => String c r
      end
  end.

Definition strip (s : string) : string := rstrip (lstrip s).

(** [needle in hay] on strings *)
Fixpoint contains (needle hay : string) : bool :=
  if String.prefix needle hay then true
  else match hay with
       | "" => false
       | String _ hay' => contains needle hay'
       end.

(** [sep.join(l)] *)
Definition join (sep : string) (l : list string) : string :=
  String.concat sep l.

(** [s[:n]] *)
Definition slice_to (n : nat) (s : string) : string := substring 0 n s.

(** The maximal runs of characters of a class, from left to right;
    [cur] is the run being read. *)
Definition flush (cur : string) : list string :=
  match cur with "" => [] | _ => [cur] end.

Fixpoint runs_from (in_class : ascii -> bool) (cur s : string)
    : list string :=
  match s with
  | "" => flush cur
  | String c s' =>
      if in_class c then runs_from in_class (cur +:+ String c "") s'
      else flush cur ++ runs_from in_class "" s'
  end.

(** [re.findall(r'\b\w+\b', s)]: the maximal runs of word characters *)
Definition findall_words (s : string) : list string :=
  runs_from is_word_char "" s.

(** [s.split()]: the maximal runs of characters that are not blank *)
Definition split_whitespace (s : string) : list string :=
  runs_from (fun c => negb (is_space c)) "" s.

(** [re.sub(r'[^\w\s]', ' ', s)] *)
Fixpoint sub_punctuation (s : string) : string :=
  match s with
  | "" => ""
  | String c s' =>
      String (if is_word_char c || is_space c then c else " "%char)
             (sub_punctuation s')
  end.

(** [re.split(r'(?<=[.!?])\s+', text)].  A match starts at a blank
    that follows one of [.!?] and takes the whole run of blanks; the
    scanner remembers whether the previous character ended a sentence
    ([AfterEnd]), whether it is inside a match ([InMatch]) or neither
    ([Plain]).  The result is the piece being read and the pieces
    after it. *)
Inductive scan := Plain | AfterEnd | InMatch.

Definition in_match_position (st : scan) : bool :=
  match st with Plain => false | _ => true end.

Definition after (c : ascii) : scan :=
  if is_sentence_end c then AfterEnd else Plain.

Fixpoint re_split_from (st : scan) (s : string) : string * list string :=
  match s with
  | "" => ("", [])
  | String c s' =>
      if is_space c && in_match_position st then
        let '(p, ps) := re_split_from InMatch s' in
        match st with
        | AfterEnd => ("", p :: ps)
        | _ => (p, ps)
        end
      else
        let '(p, ps) := re_split_from (after c) s' in
        (String c p, ps)
  end.

Definition re_split_sentences (text : string) : list string :=
  let '(p, ps) := re_split_from Plain text in p :: ps.

(** [hay.find(needle)]: the index of the first occurrence, [None] for
    Python's -1 *)
Fixpoint str_find (needle hay : string) : option nat :=
  if String.prefix needle hay then Some 0
  else match hay with
       | "" => None
       | String _ hay' => S <$> str_find needle hay'
       end.

(** [s.split('\n\n')]: the piece being read and the pieces after it;
    an occurrence of the separator is consumed whole *)
Fixpoint split_blank_lines_from (s : string) : string * list string :=
  match s with
  | "" => ("", [])
  | String c s' =>
      match s' with
      | String c' s'' =>
          if Ascii.eqb c "010" && Ascii.eqb c' "010"
          then ("", let '(p, ps) := split_blank_lines_from s'' in p :: ps)
          else let '(p, ps) := split_blank_lines_from s' in (String c p, ps)
      | "" => (String c "", [])
      end
  end.

Definition split_blank_lines (s : string) : list string :=
  let '(p, ps) := split_blank_lines_from s in p :: ps.

(** Python truth value of a string *)
Definition truthy (s : string) : bool :=
  match s with "" => false | _ => true end.

(** [text] holds the strings of [l] one after the other, without
    overlap and in the order of the list. *)
Fixpoint occur_in_order (l : list string) (text : string) : Prop :=
  match l with
  | [] => True
  | s :: l' =>
      exists pre post,
        text = pre +:+ (s +:+ post) /\ occur_in_order l' post
  end.

Definition substring_of (s text : string) : Prop :=
  exists pre post, text = pre +:+ (s +:+ post).

End Text.

(** ** The sentence segmenter *)

Module Segmenter.
Import Text.

(** [_split_into_sentences] of qa_engine.py and evaluator.py (the two
    bodies are the same). *)
Definition _split_into_sentences (text : string) : list string :=
  map strip
    (List.filter
       (fun s => truthy (strip s) && (10 <? String.length (strip s))%nat)
       (re_split_sentences text)).

End Segmenter.

(** ** Numbers: Python comparisons and division on rationals *)

Module Num.

Definition Qlt_bool (x y : Q) : bool := negb (Qle_bool y x).

(** [a / b] on two [int]s: raises [ZeroDivisionError] when [b] is 0 *)
Definition py_div (a b : nat) : option Q :=
  match b with
  | O => None
  | S _ => Some (Z.of_nat a # Pos.of_nat b)
  end.

(** [max(a, b)] and [min(a, b)]: the first argument wins a tie *)
Definition py_max (a b : Q) : Q := if Qlt_bool a b then b else a.
Definition py_min (a b : Q) : Q := if Qlt_bool b a then b else a.

(** [round(x)] to the nearest integer, a tie going to the even one *)
Definition round_half_even (x : Q) : Z :=
  let f := Qfloor x in
  let r := (x - inject_Z f)%Q in
  if Qlt_bool r (1 # 2) then f
  else if Qlt_bool (1 # 2) r then (f + 1)%Z
  else if Z.even f then f else (f + 1)%Z.

(** [round(x, ndigits)] *)
Definition py_round (x : Q) (ndigits : nat) : Q :=
  let scale := inject_Z (10 ^ Z.of_nat ndigits) in
  (inject_Z (round_half_even (x * scale)) / scale)%Q.

Definition sum (l : list Q) : Q := fold_right Qplus 0%Q l.

End Num.

(** ** The relevance ranker *)

Module Ranker.
Import Num.

(** The embedder followed by the cosine: [e query candidate] is the
    similarity of the two texts, [None] when encoding raises. *)
Definition Embedder := string -> string -> option Q.

(** [cosine_similarity(encode([query]), encode(candidates))[0]] *)
Definition similarities (e : Embedder) (query : string)
    (candidates : list string) : option (list Q) :=
  mapM (e query) candidates.

(** [np.argsort(similarities)]: the indices in ascending order of
    score.  NumPy's default sort orders short arrays by insertion,
    which leaves indices of equal scores in ascending order; that is
    the sort modelled here. *)
Fixpoint insert_by_score (x : Q * nat) (l : list (Q * nat))
    : list (Q * nat) :=
  match l with
  | [] => [x]
  | y :: l' =>
      if Qle_bool (fst y) (fst x) then y :: insert_by_score x l'
      else x :: l
  end.

Definition sort_by_score (l : list (Q * nat)) : list (Q * nat) :=
  foldl (fun acc x => insert_by_score x acc) [] l.

Definition argsort (sims : list Q) : list nat :=
  map snd (sort_by_score (combine sims (seq 0 (length sims)))).

(** [np.argsort(similarities)[::-1][:k]] *)
Definition top_indices (k : nat) (sims : list Q) : list nat :=
  take k (rev (argsort sims)).

(** the literal [0.3] *)
Definition threshold : Q := 3 # 10.

Definition above_threshold (sims : list Q) (i : nat) : bool :=
  Qlt_bool threshold (nth i sims 0%Q).

(** the indices [i for i in top_indices if similarities[i] > 0.3] *)
Definition relevant_indices (k : nat) (sims : list Q) : list nat :=
  List.filter (above_threshold sims) (top_indices k sims).

(** [[candidates[i] for i in top_indices if similarities[i] > 0.3]] *)
Definition relevant (k : nat) (sims : list Q) (candidates : list string)
    : list string :=
  map (fun i => nth i candidates "") (relevant_indices k sims).




(** What "the top [n] by raw similarity" denotes: the [n] best ranked
    candidates whatever their score. *)
Definition top_by_similarity (n : nat) (sims : list Q)
    (candidates : list string) : list string :=
  map (fun i => nth i candidates "") (top_indices n sims).

End Ranker.

(** ** qa_engine.py *)

Module QAEngine.
Import Text Num Ranker.

(** What the span extractor returns: the dict with the keys [score],
    [start], [end] and [answer]. *)
Record QAResult := {
  score : Q;
  start : nat;
  end_ : nat;
  answer : string
}.

(** [self.qa_pipeline(question=, context=, max_answer_len=100,
    handle_impossible_answer=True)]; [None] is a raised exception. *)
Definition Extractor := string -> string -> option QAResult.

(** the attributes of [self]; an attribute that is [None] in Python
    is [None] here *)
Record t := {
  embedder : option Embedder;
  qa_pipeline : option Extractor
}.

Definition _split_into_sentences := Segmenter._split_into_sentences.

(** [range(0, n, step)] *)
Definition range_step (n step : nat) : list nat :=
  map (fun k => k * step) (seq 0 ((n + step - 1) / step)).

Definition _split_document_into_chunks (text : string) : list string :=
  let chunk_size := 500 in
  let sentences := _split_into_sentences text in
  List.filter (fun chunk => truthy (strip chunk))
    (map (fun i => join " " (take chunk_size (drop i sentences)))
         (range_step (length sentences) (chunk_size / 2))).

Definition _find_relevant_chunks (self : t) (question : string)
    (chunks : list string) : list string :=
  match embedder self with
  | None => take 3 chunks
  | Some e =>
      match similarities e question chunks with
      | Some sims =>
          match relevant 3 sims chunks with
          | [] => take 2 chunks
          | relevant_chunks => relevant_chunks
          end
      | None => take 3 chunks
      end
  end.

Definition could_not_find : string :=
  "I couldn't find a specific answer to your question in the document.".

(** the words of more than 3 characters of a lower-cased text, as a set *)
Definition long_words (s : string) : gset string :=
  filter (fun w => 3 < String.length w)
         (list_to_set (findall_words (lower s)) : gset string).

(** The body of the inner loop of [_generate_fallback_answer]:
    [sentence_scores] after one sentence. *)
Definition score_sentence (question_words : gset string)
    (sentence_scores : list (Q * string)) (sentence : string)
    : option (list (Q * string)) :=
  let sentence_words := long_words sentence in
  let overlap := size (question_words ∩ sentence_words) in
  if (0 <? overlap)%nat then
    score ← py_div overlap (size question_words);
    Some (sentence_scores ++ [(score, sentence)])
  else Some sentence_scores.

(** [for sentence in sentences: ...] *)
Fixpoint score_sentences (question_words : gset string)
    (sentences : list string) (sentence_scores : list (Q * string))
    : option (list (Q * string)) :=
  match sentences with
  | [] => Some sentence_scores
  | sentence :: rest =>
      sentence_scores ← score_sentence question_words sentence_scores sentence;
      score_sentences question_words rest sentence_scores
  end.

(** [for chunk in chunks: ...] *)
Fixpoint score_chunks (question_words : gset string)
    (chunks : list string) (sentence_scores : list (Q * string))
    : option (list (Q * string)) :=
  match chunks with
  | [] => Some sentence_scores
  | chunk :: rest =>
      sentence_scores ←
        score_sentences question_words (_split_into_sentences chunk)
                        sentence_scores;
      score_chunks question_words rest sentence_scores
  end.

(** [x <= y] on tuples [(float, str)] *)
Definition tuple_le (x y : Q * string) : bool :=
  match (fst x ?= fst y)%Q with
  | Lt => true
  | Gt => false
  | Eq => (snd x <=? snd y)%string
  end.

(** [l.sort(reverse=True)]: descending, equal entries keep their order *)
Fixpoint insert_desc (x : Q * string) (l : list (Q * string))
    : list (Q * string) :=
  match l with
  | [] => [x]
  | y :: l' => if tuple_le x y then y :: insert_desc x l' else x :: l
  end.

Definition sort_reverse (l : list (Q * string)) : list (Q * string) :=
  foldl (fun acc x => insert_desc x acc) [] l.

Definition _generate_fallback_answer (question : string)
    (chunks : list string) : option (string * list string) :=
  let question_words := long_words question in
  sentence_scores ← score_chunks question_words chunks [];
  let sentence_scores := sort_reverse sentence_scores in
  let top_sentences :=
    map snd (List.filter (fun x => Qlt_bool (2 # 10) (fst x))
                         (take 2 sentence_scores)) in
  match top_sentences with
  | _ :: _ =>
      let answer := join " " top_sentences in
      let answer :=
        if (300 <? String.length answer)%nat
        then slice_to 300 answer +:+ "..." else answer in
      Some (answer, top_sentences)
  | [] => Some (could_not_find, [])
  end.

(** The state of the loop of [_generate_qa_answer]. *)
Record best := {
  best_answer : string;
  best_score : Q;
  source_sentences : list string
}.

(** the sentence appended for an answer: the first sentence of the
    chunk that holds it, if there is one *)
Definition source_of (answer chunk : string) : list string :=
  match
    find (fun sentence => contains (lower answer) (lower sentence))
         (_split_into_sentences chunk)
  with
  | Some sentence => [sentence]
  | None => []
  end.

Definition qa_step (pipeline : Extractor) (question : string)
    (st : best) (chunk : string) : best :=
  match pipeline question chunk with
  | Some result =>
      if Qlt_bool (best_score st) (score result) && truthy (answer result)
      then {| best_answer := answer result;
              best_score := score result;
              source_sentences :=
                source_sentences st ++ source_of (answer result) chunk |}
      else st
  | None => st
  end.

Definition qa_loop (pipeline : Extractor) (question : string)
    (chunks : list string) : best :=
  foldl (qa_step pipeline question)
        {| best_answer := ""; best_score := 0; source_sentences := [] |}
        chunks.

Definition _generate_qa_answer (pipeline : Extractor) (question : string)
    (chunks : list string) : option (string * list string) :=
  let st := qa_loop pipeline question chunks in
  if truthy (best_answer st)
  then Some (best_answer st, source_sentences st)
  else _generate_fallback_answer question chunks.

(** [wins pipeline question chunks a c]: some chunk gives the answer
    [a], not empty, with the confidence [c] above 0; no chunk before it
    gives an answer that is not empty with a confidence as high, and no
    chunk after it one with a higher confidence. *)
Definition wins (pipeline : Extractor) (question : string)
    (chunks : list string) (a : string) (c : Q) : Prop :=
  exists before chunk later result,
    chunks = before ++ chunk :: later
    /\ pipeline question chunk = Some result
    /\ answer result = a /\ score result = c
    /\ truthy a = true /\ (0 < c)%Q
    /\ (forall chunk' result',
          chunk' ∈ before -> pipeline question chunk' = Some result' ->
          truthy (answer result') = true -> (score result' < c)%Q)
    /\ (forall chunk' result',
          chunk' ∈ later -> pipeline question chunk' = Some result' ->
          truthy (answer result') = true -> (score result' <= c)%Q).

(** The state of the loop of [_generate_qa_answer] after the chunks
    [done]: nothing chosen yet, or the winner among them. *)
Definition chosen (pipeline : Extractor) (question : string)
    (done : list string) (st : best) : Prop :=
  (best_answer st = "" /\ best_score st = 0%Q
   /\ forall chunk result,
        chunk ∈ done -> pipeline question chunk = Some result ->
        truthy (answer result) = true -> (score result <= 0)%Q)
  \/ wins pipeline question done (best_answer st) (best_score st).

(** What an entry of [sentence_scores] is: a sentence of one of the
    chunks, paired with the ratio of the question words it holds. *)
Definition scored_entry (question : string) (chunks : list string)
    (x : Q * string) : Prop :=
  (exists chunk, chunk ∈ chunks /\ snd x ∈ _split_into_sentences chunk)
  /\ py_div (size (long_words question ∩ long_words (snd x)))
            (size (long_words question)) = Some (fst x).

(** The citation of one source sentence in [_generate_references]; the
    numbers are printed in decimal as an f-string does. *)
Definition reference_for (document_text sentence : string) : string :=
  match str_find sentence document_text with
  | Some start_pos =>
      let text_before := slice_to start_pos document_text in
      let paragraphs := split_blank_lines text_before in
      let paragraph_num := length paragraphs in
      let paragraph_text := List.last paragraphs "" in
      let sentences_in_paragraph :=
        length (_split_into_sentences paragraph_text) in
      "Based on paragraph " +:+ pretty paragraph_num
      +:+ ", sentence " +:+ pretty (sentences_in_paragraph + 1)
  | None => "Based on document content"
  end.

Definition _generate_references (source_sentences : list string)
    (document_text : string) : list string :=
  map (reference_for document_text) source_sentences.

Definition cannot_answer : string :=
  "I cannot answer this question without sufficient context.".
Definition document_empty : string :=
  "The document appears to be empty or could not be processed.".
Definition nothing_relevant : string :=
  "I couldn't find relevant information in the document to answer your question.".
Definition processing_error : string :=
  "I encountered an error while processing your question. Please try again.".

(** The body of the [try] of [answer_question]; [None] is an exception
    that reaches the [except]. *)
Definition answer_body (self : t) (question document_text : string)
    : option (string * list string * list string) :=
  let chunks := _split_document_into_chunks document_text in
  match chunks with
  | [] => Some (document_empty, [], [])
  | _ =>
      let relevant_chunks := _find_relevant_chunks self question chunks in
      match relevant_chunks with
      | [] => Some (nothing_relevant, [], [])
      | _ =>
          '(answer, source_sentences) ←
            match qa_pipeline self with
            | Some pipeline =>
                _generate_qa_answer pipeline question relevant_chunks
            | None => _generate_fallback_answer question relevant_chunks
            end;
          let references :=
            _generate_references source_sentences document_text in
          Some (answer, references, source_sentences)
      end
  end.

Definition answer_question (self : t) (question document_text : string)
    : string * list string * list string :=
  if negb (truthy question) || negb (truthy document_text)
  then (cannot_answer, [], [])
  else
    match answer_body self question document_text with
    | Some result => result
    | None => (processing_error, [], [])
    end.

(** The dict returned by [get_conversation_context]. *)
Record Context := {
  context_question : string;
  relevant_chunks : list string;
  total_chunks : nat;
  document_length : nat
}.

Definition get_conversation_context (self : t)
    (question document_text : string) : Context :=
  let chunks := _split_document_into_chunks document_text in
  let relevant := _find_relevant_chunks self question chunks in
  {| context_question := question;
     relevant_chunks := relevant;
     total_chunks := length chunks;
     document_length := String.length document_text |}.

End QAEngine.

(** ** evaluator.py *)

Module AnswerEvaluator.
Import Text Num Ranker.

Record t := {
  embedder : option Embedder;
  stop_words : gset string
}.

(** The dict of a challenge question; a key that is absent is [None].
    The empty dict (and Python's [None]) has no key. *)
Record Question := {
  q_question : option string;
  q_concepts : option (list string);
  q_type : option string;
  q_difficulty : option string
}.

Definition no_question : Question :=
  {| q_question := None; q_concepts := None;
     q_type := None; q_difficulty := None |}.

Definition dict_truthy (q : Question) : bool :=
  match q_question q, q_concepts q, q_type q, q_difficulty q with
  | None, None, None, None => false
  | _, _, _, _ => true
  end.

(** The dict returned by [_create_evaluation]. *)
Record Evaluation := {
  score : Q;
  percentage : Q;
  feedback : string;
  analysis : string;
  grade : string
}.

Definition _split_into_sentences := Segmenter._split_into_sentences.

Definition _find_relevant_sentences (self : t) (question : string)
    (document_text : string) : list string :=
  let sentences := _split_into_sentences document_text in
  match embedder self with
  | None => take 5 sentences
  | Some e =>
      match similarities e question sentences with
      | Some sims =>
          match relevant 5 sims sentences with
          | [] => take 3 sentences
          | relevant_sentences => relevant_sentences
          end
      | None => take 3 sentences
      end
  end.

(** [float(np.mean(similarities))] *)
Definition mean (l : list Q) : Q :=
  (sum l / inject_Z (Z.of_nat (length l)))%Q.

Definition _calculate_semantic_similarity (self : t) (user_answer : string)
    (relevant_sentences : list string) : Q :=
  match embedder self, relevant_sentences with
  | None, _ | _, [] => 5 # 10
  | Some e, _ =>
      match similarities e user_answer relevant_sentences with
      | Some sims => mean sims
      | None => 5 # 10
      end
  end.

(** [{w for w in set(findall(s.lower()))
      if w not in self.stop_words and len(w) > 3}] *)
Definition significant_words (self : t) (s : string) : gset string :=
  filter (fun w => (w ∉ stop_words self) ∧ (3 < String.length w))
         (list_to_set (findall_words (lower s)) : gset string).

Definition _calculate_keyword_overlap (self : t) (user_answer : string)
    (expected_concepts : list string) (document_text : string)
    : option Q :=
  match expected_concepts with
  | [] => Some (5 # 10)
  | _ =>
      let answer_words := significant_words self user_answer in
      let concept_words : gset string :=
        foldl (fun acc concept =>
                 acc ∪ list_to_set (findall_words (lower concept)))
              ∅ expected_concepts in
      if decide (concept_words = ∅) then Some (5 # 10)
      else
        let overlap := size (answer_words ∩ concept_words) in
        overlap_score ← py_div overlap (size concept_words);
        Some (py_min overlap_score 1)
  end.

Definition _calculate_content_relevance (self : t) (user_answer : string)
    (relevant_sentences : list string) : option Q :=
  match relevant_sentences with
  | [] => Some (5 # 10)
  | _ =>
      let answer_words := significant_words self user_answer in
      if decide (answer_words = ∅) then Some 0%Q
      else
        let sentence_words : gset string :=
          foldl (fun acc sentence => acc ∪ significant_words self sentence)
                ∅ relevant_sentences in
        if decide (sentence_words = ∅) then Some (5 # 10)
        else
          let overlap := size (answer_words ∩ sentence_words) in
          relevance_score ← py_div overlap (size answer_words);
          Some (py_min relevance_score 1)
  end.

(** the weighted sum of [_combine_scores], before [min(max(.))] *)
Definition weighted_sum (semantic_score keyword_score content_score : Q)
    : Q :=
  (semantic_score * (4 # 10) + keyword_score * (3 # 10)
   + content_score * (3 # 10))%Q.

Definition _combine_scores (semantic_score keyword_score content_score : Q)
    : Q :=
  let overall_score :=
    weighted_sum semantic_score keyword_score content_score in
  py_min (py_max overall_score 0) 1.

Definition _generate_feedback (overall_score semantic_score keyword_score
    content_score : Q) (user_answer : string) : string :=
  if Qle_bool (8 # 10) overall_score then
    "Excellent answer! Your response demonstrates strong understanding of the document content."
  else if Qle_bool (6 # 10) overall_score then
    "Good answer! You've captured the main points, but could provide more specific details."
  else if Qle_bool (4 # 10) overall_score then
    "Fair answer. Consider including more relevant concepts and specific information from the document."
  else if Qle_bool (2 # 10) overall_score then
    "Your answer needs improvement. Try to focus more on the specific concepts mentioned in the question."
  else
    "Your answer doesn't seem to address the question effectively. Please review the document content.".

Definition _generate_analysis (question : Question) (user_answer : string)
    (relevant_sentences : list string) (overall_score : Q) : string :=
  let answer_length := length (split_whitespace user_answer) in
  let length_part :=
    if (answer_length <? 10)%nat then
      "Your answer is quite brief. Consider providing more detailed explanations."
    else if (100 <? answer_length)%nat then
      "Your answer is comprehensive, which is good for demonstrating understanding."
    else
      "Your answer has an appropriate length for this type of question." in
  let expected_concepts := default [] (q_concepts question) in
  let concept_part :=
    match expected_concepts with
    | [] => []
    | _ =>
        let covered_concepts :=
          List.filter
            (fun concept => contains (lower concept) (lower user_answer))
            expected_concepts in
        match covered_concepts with
        | [] =>
            ["Consider including more of the key concepts mentioned in the question."]
        | _ =>
            let listed := join ", " covered_concepts in
            [("You covered these key concepts: " +:+ listed) +:+ "."]
        end
    end in
  let overall_part :=
    if Qle_bool (7 # 10) overall_score then
      "Overall, this is a strong response that demonstrates good comprehension."
    else if Qle_bool (5 # 10) overall_score then
      "This response shows some understanding but could be more specific."
    else
      "This response needs significant improvement to demonstrate understanding." in
  join " " ([length_part] ++ concept_part ++ [overall_part]).

Definition _get_grade (score : Q) : string :=
  if Qle_bool (9 # 10) score then "A+"
  else if Qle_bool (8 # 10) score then "A"
  else if Qle_bool (7 # 10) score then "B+"
  else if Qle_bool (6 # 10) score then "B"
  else if Qle_bool (5 # 10) score then "C+"
  else if Qle_bool (4 # 10) score then "C"
  else if Qle_bool (3 # 10) score then "D"
  else "F".

Definition _create_evaluation (score : Q) (feedback analysis : string)
    : Evaluation :=
  {| score := py_round score 2;
     percentage := py_round (score * 100) 1;
     feedback := feedback;
     analysis := analysis;
     grade := _get_grade score |}.

(** The body of the [try] of [evaluate_answer]; [None] is an exception
    that reaches the [except]. *)
Definition evaluate_body (self : t) (question : Question)
    (user_answer document_text : string) : option Evaluation :=
  question_text ← q_question question;
  let relevant_sentences :=
    _find_relevant_sentences self question_text document_text in
  match relevant_sentences with
  | [] =>
      Some (_create_evaluation (5 # 10) "Limited context available"
              "I couldn't find specific information to evaluate your answer against.")
  | _ =>
      let semantic_score :=
        _calculate_semantic_similarity self user_answer relevant_sentences in
      keyword_score ←
        _calculate_keyword_overlap self user_answer
          (default [] (q_concepts question)) document_text;
      content_score ←
        _calculate_content_relevance self user_answer relevant_sentences;
      let overall_score :=
        _combine_scores semantic_score keyword_score content_score in
      let feedback :=
        _generate_feedback overall_score semantic_score keyword_score
                           content_score user_answer in
      let analysis :=
        _generate_analysis question user_answer relevant_sentences
                           overall_score in
      Some (_create_evaluation overall_score feedback analysis)
  end.

Definition evaluate_answer (self : t) (question : Question)
    (user_answer document_text : string) : Evaluation :=
  if negb (truthy user_answer) || negb (dict_truthy question) then
    _create_evaluation 0 "No answer provided"
                       "Please provide a detailed answer."
  else
    match evaluate_body self question user_answer document_text with
    | Some evaluation => evaluation
    | None =>
        _create_evaluation (5 # 10) "Evaluation error"
          "I encountered an error while evaluating your answer. Please try again."
    end.

(** The order of the letter grades, from [F] up to [A+]. *)
Definition grade_rank (g : string) : nat :=
  if String.eqb g "A+" then 7
  else if String.eqb g "A" then 6
  else if String.eqb g "B+" then 5
  else if String.eqb g "B" then 4
  else if String.eqb g "C+" then 3
  else if String.eqb g "C" then 2
  else if String.eqb g "D" then 1
  else 0.

End AnswerEvaluator.

(** ** The random source *)

Module Random.

(** The raw draws of the generator and the number of draws taken. *)
Record rng := {
  draws : nat -> nat;
  cursor : nat
}.

(** [_randbelow(n)]: a number below [n] *)
Definition randbelow (g : rng) (n : nat) : nat * rng :=
  (draws g (cursor g) mod n,
   {| draws := draws g; cursor := S (cursor g) |}).

(** [random.choice(seq)]: [IndexError] on an empty sequence *)
Definition choice {A} (seq : list A) (g : rng) : option (A * rng) :=
  let '(i, g) := randbelow g (length seq) in
  x ← seq !! i;
  Some (x, g).

(** The loop of [random.sample] over its pool ([n] is [len - i]):
    [j = randbelow(n - i); result[i] = pool[j]; pool[j] = pool[n-i-1]].
    CPython takes this branch for populations of up to 21 elements,
    which covers the pools of at most 20 concepts sampled here. *)
Fixpoint sample_pool {A} (k n : nat) (pool : list A) (g : rng)
    : option (list A * rng) :=
  match k with
  | O => Some ([], g)
  | S k' =>
      let '(j, g) := randbelow g n in
      x ← pool !! j;
      last ← pool !! (n - 1);
      '(result, g) ← sample_pool k' (n - 1) (<[j := last]> pool) g;
      Some (x :: result, g)
  end.

(** [random.sample(population, k)]: [ValueError] when [k] exceeds the
    population *)
Definition sample {A} (population : list A) (k : nat) (g : rng)
    : option (list A * rng) :=
  if (k <=? length population)%nat
  then sample_pool k (length population) population g
  else None.

End Random.

(** ** challenge_gen.py *)

Module ChallengeGenerator.
Import Text Random.

Definition Question := AnswerEvaluator.Question.

(** [self]: the stop words and the templates set by [__init__], and
    the two NLTK tokenizers the methods call ([None]: the call
    raises). *)
Record t := {
  stop_words : gset string;
  question_templates : list string;
  word_tokenize : string -> option (list string);
  sent_tokenize : string -> option (list string)
}.

Definition templates : list string := [
  "What is the main argument presented about {topic}?";
  "How does the document explain the relationship between {concept1} and {concept2}?";
  "What evidence does the author provide to support the claim about {topic}?";
  "According to the document, what are the key factors that influence {concept}?";
  "What conclusion can be drawn about {topic} based on the information provided?";
  "How does the document define or describe {concept}?";
  "What are the implications of {concept} as discussed in the document?";
  "Based on the document, what is the significance of {topic}?";
  "What are the main differences between {concept1} and {concept2} as described?";
  "How does the author justify their position on {topic}?"
].

Definition lookup_arg (name : string) (args : list (string * string))
    : option string :=
  snd <$> find (fun kv => String.eqb (fst kv) name) args.

(** [template.format(name=value, ...)] for templates whose fields are plain
    names: [field] is the name being read after an opening brace.  A
    name without argument raises [KeyError], a brace left open raises
    [ValueError]. *)
Fixpoint format_from (args : list (string * string))
    (field : option string) (template : string) : option string :=
  match template, field with
  | "", None => Some ""
  | "", Some _ => None
  | String c rest, None =>
      if Ascii.eqb c "{" then format_from args (Some "") rest
      else String c <$> format_from args None rest
  | String c rest, Some name =>
      if Ascii.eqb c "}" then
        value ← lookup_arg name args;
        tail ← format_from args None rest;
        Some (value +:+ tail)
      else format_from args (Some (name +:+ String c "")) rest
  end.

Definition format (template : string) (args : list (string * string))
    : option string :=
  format_from args None template.

(** [word_freq[word] = word_freq.get(word, 0) + 1] on a dict kept in
    insertion order *)
Fixpoint count_word (word : string) (word_freq : list (string * nat))
    : list (string * nat) :=
  match word_freq with
  | [] => [(word, 1)]
  | (w, n) :: rest =>
      if String.eqb w word then (w, n + 1) :: rest
      else (w, n) :: count_word word rest
  end.

(** [sorted(items, key=lambda x: x[1], reverse=True)]: descending
    counts, equal counts in the order of the dict *)
Fixpoint insert_by_count (x : string * nat) (l : list (string * nat))
    : list (string * nat) :=
  match l with
  | [] => [x]
  | y :: l' =>
      if (snd x <=? snd y)%nat then y :: insert_by_count x l'
      else x :: l
  end.

Definition sorted_by_count (l : list (string * nat))
    : list (string * nat) :=
  foldl (fun acc x => insert_by_count x acc) [] l.

Definition _extract_key_concepts (self : t) (text : string)
    : option (list string) :=
  let text := sub_punctuation (lower text) in
  words ← word_tokenize self text;
  let words :=
    List.filter
      (fun word => bool_decide (word ∉ stop_words self)
                   && (3 <? String.length word)%nat)
      words in
  let word_freq := foldl (fun acc word => count_word word acc) [] words in
  let sorted_words := sorted_by_count word_freq in
  Some (map fst (List.filter (fun x => (2 <? snd x)%nat)
                             (take 20 sorted_words))).

Definition logic_question (question_text : string)
    (selected_concepts : list string) : Question :=
  {| AnswerEvaluator.q_question := Some question_text;
     AnswerEvaluator.q_concepts := Some selected_concepts;
     AnswerEvaluator.q_type := Some "logic";
     AnswerEvaluator.q_difficulty := Some "medium" |}.

(** The outer [None] is an exception, the inner one the value [None]
    the method returns. *)
Definition _generate_single_question (self : t) (text : string)
    (key_concepts : list string) (used_concepts : gset string) (g : rng)
    : option (option Question * rng) :=
  if (length key_concepts <? 2)%nat then Some (None, g)
  else
    let available_concepts :=
      List.filter (fun c => bool_decide (c ∉ used_concepts)) key_concepts in
    let available_concepts :=
      if (length available_concepts <? 2)%nat then take 2 key_concepts
      else available_concepts in
    '(selected_concepts, g) ←
      sample available_concepts (Nat.min 2 (length available_concepts)) g;
    '(template, g) ← choice (question_templates self) g;
    first ← selected_concepts !! 0;
    second ←
      (if (2 <=? length selected_concepts)%nat
       then selected_concepts !! 1 else Some first);
    question_text ←
      format template
        [("topic", first); ("concept1", first);
         ("concept2", second); ("concept", first)];
    Some (Some (logic_question question_text selected_concepts), g).

Definition fallback (question_text : string) (concepts : list string)
    (type difficulty : string) : Question :=
  {| AnswerEvaluator.q_question := Some question_text;
     AnswerEvaluator.q_concepts := Some concepts;
     AnswerEvaluator.q_type := Some type;
     AnswerEvaluator.q_difficulty := Some difficulty |}.

Definition _generate_fallback_questions : list Question := [
  fallback "What is the main topic discussed in this document?"
           ["main topic"; "document content"] "comprehension" "easy";
  fallback "What are the key points or arguments presented in the document?"
           ["key points"; "arguments"] "analysis" "medium";
  fallback "What conclusions or implications can be drawn from the information provided?"
           ["conclusions"; "implications"] "synthesis" "hard"
].

Definition _generate_fallback_question (self : t) (text : string) (g : rng)
    : option (Question * rng) :=
  sentences ← sent_tokenize self text;
  match sentences with
  | [] =>
      first ← _generate_fallback_questions !! 0;
      Some (first, g)
  | _ =>
      '(key_sentence, g) ← choice (take 10 sentences) g;
      let question_text :=
        "What does the document state about the following: '"
        +:+ (slice_to 100 key_sentence +:+ "...'?") in
      Some (fallback question_text ["document content"; "key information"]
                     "comprehension" "easy", g)
  end.

(** [for i in range(3): ...]: the questions and the used concepts
    after [n] more rounds *)
Fixpoint question_rounds (self : t) (n : nat) (document_text : string)
    (key_concepts : list string) (questions : list Question)
    (used_concepts : gset string) (g : rng)
    : option (list Question * rng) :=
  match n with
  | O => Some (questions, g)
  | S n' =>
      '(question_data, g) ←
        _generate_single_question self document_text key_concepts
                                  used_concepts g;
      match question_data with
      | Some q =>
          question_rounds self n' document_text key_concepts
            (questions ++ [q])
            (used_concepts
               ∪ list_to_set (default [] (AnswerEvaluator.q_concepts q)))
            g
      | None =>
          question_rounds self n' document_text key_concepts
            questions used_concepts g
      end
  end.

(** [while len(questions) < 3: questions.append(fallback)]: a turn
    adds one question, so the loop takes one turn for each of the
    [missing] questions. *)
Fixpoint pad_with_fallbacks (self : t) (missing : nat)
    (document_text : string) (questions : list Question) (g : rng)
    : option (list Question) :=
  match missing with
  | O => Some questions
  | S missing' =>
      '(fallback, g) ← _generate_fallback_question self document_text g;
      pad_with_fallbacks self missing' document_text
                         (questions ++ [fallback]) g
  end.

(** the body of the [try] of [generate_questions] *)
Definition generate_body (self : t) (document_text : string) (g : rng)
    : option (list Question) :=
  key_concepts ← _extract_key_concepts self document_text;
  if (length key_concepts <? 2)%nat then Some _generate_fallback_questions
  else
    '(questions, g) ←
      question_rounds self 3 document_text key_concepts [] ∅ g;
    questions ←
      pad_with_fallbacks self (3 - length questions) document_text
                         questions g;
    Some (take 3 questions).

Definition generate_questions (self : t) (document_text : string) (g : rng)
    : list Question :=
  if negb (truthy document_text)
     || (String.length (strip document_text) <? 100)%nat
  then _generate_fallback_questions
  else
    match generate_body self document_text g with
    | Some questions => questions
    | None => _generate_fallback_questions
    end.

End ChallengeGenerator.

(** ** summarizer.py *)

Module DocumentSummarizer.
Import Text Num.

(** [self.summarizer(text, max_length=150, min_length=30,
    do_sample=False, truncation=True)]: the [summary_text] of the dicts
    of the list it returns; [None] is a raised exception. *)
Definition Summarizer := string -> option (list string).

Record t := {
  summarizer : option Summarizer
}.

Definition max_length : nat := 150.
Definition min_length : nat := 30.

(** [re.sub(r'\s+', ' ', s)]: a run of blanks becomes one space;
    [in_run] tells that the previous character was a blank *)
Fixpoint collapse_from (in_run : bool) (s : string) : string :=
  match s with
  | "" => ""
  | String c s' =>
      if is_space c then
        if in_run then collapse_from true s'
        else String " " (collapse_from true s')
      else String c (collapse_from false s')
  end.

Definition collapse_whitespace (s : string) : string := collapse_from false s.

(** the class [[.,;:!?]] *)
Definition is_punctuation (c : ascii) : bool :=
  is_sentence_end c || (code c =? 44)%nat || (code c =? 59)%nat
  || (code c =? 58)%nat.

(** the characters kept by [[^\w\s\.\,\;\:\!\?\-\(\)]] *)
Definition kept_by_preprocess (c : ascii) : bool :=
  is_word_char c || is_space c || is_punctuation c
  || (code c =? 45)%nat || (code c =? 40)%nat || (code c =? 41)%nat.

Fixpoint blank_special (s : string) : string :=
  match s with
  | "" => ""
  | String c s' =>
      String (if kept_by_preprocess c then c else " "%char) (blank_special s')
  end.

(** [re.sub(r'\s+([.,;:!?])', r'\1', s)]: a run of blanks that ends at
    one of [.,;:!?] is removed.  What follows a character is rewritten
    first; a blank goes when what follows then starts with one of the
    marks. *)
Fixpoint close_up_punctuation (s : string) : string :=
  match s with
  | "" => ""
  | String c s' =>
      let rest := close_up_punctuation s' in
      if is_space c then
        match rest with
        | String p _ => if is_punctuation p then rest else String c rest
        | "" => String c rest
        end
      else String c rest
  end.

Definition _preprocess_text (text : string) : string :=
  let text := collapse_whitespace text in
  let text := blank_special text in
  let text := close_up_punctuation text in
  strip text.

(** [s[-1] in '.!?'] for a string that is not empty, and
    [s.endswith(('.', '!', '?'))] *)
Fixpoint ends_sentence (s : string) : bool :=
  match s with
  | "" => false
  | String c "" => is_sentence_end c
  | String _ s' => ends_sentence s'
  end.

Definition _truncate_text (text : string) (max_words : nat) : string :=
  let words := split_whitespace text in
  if (length words <=? max_words)%nat then text
  else
    let truncated := join " " (take max_words words) in
    if negb (ends_sentence truncated) then truncated +:+ "..."
    else truncated.

Definition _postprocess_summary (summary : string) : string :=
  let summary :=
    if (max_length <? length (split_whitespace summary))%nat
    then _truncate_text summary max_length else summary in
  let summary := collapse_whitespace summary in
  let summary := strip summary in
  if truthy summary && negb (ends_sentence summary)
  then summary +:+ "." else summary.

(** The state of the loop of [_split_text_into_chunks]. *)
Record chunking := {
  chunks : list string;
  current_chunk : list string;
  current_length : nat
}.

Definition chunk_step (limit : nat) (st : chunking) (word : string)
    : chunking :=
  if (limit <? current_length st + String.length word + 1)%nat then
    match current_chunk st with
    | _ :: _ =>
        {| chunks := chunks st ++ [join " " (current_chunk st)];
           current_chunk := [word];
           current_length := String.length word |}
    | [] =>
        {| chunks := chunks st ++ [slice_to limit word];
           current_chunk := current_chunk st;
           current_length := current_length st |}
    end
  else
    {| chunks := chunks st;
       current_chunk := current_chunk st ++ [word];
       current_length := current_length st + String.length word + 1 |}.

Definition _split_text_into_chunks (text : string) (limit : nat)
    : list string :=
  let words := split_whitespace text in
  let st :=
    foldl (chunk_step limit)
          {| chunks := []; current_chunk := []; current_length := 0 |}
          words in
  match current_chunk st with
  | _ :: _ => chunks st ++ [join " " (current_chunk st)]
  | [] => chunks st
  end.

(** [re.split(r'[.!?]+', text)]: the piece being read and the pieces
    after it; [in_run] tells that the previous character was one of
    the marks *)
Fixpoint split_marks_from (in_run : bool) (s : string)
    : string * list string :=
  match s with
  | "" => ("", [])
  | String c s' =>
      if is_sentence_end c then
        if in_run then split_marks_from true s'
        else ("", let '(p, ps) := split_marks_from true s' in p :: ps)
      else
        let '(p, ps) := split_marks_from false s' in (String c p, ps)
  end.

Definition split_marks (s : string) : list string :=
  let '(p, ps) := split_marks_from false s in p :: ps.

Definition _split_into_sentences (text : string) : list string :=
  map strip (List.filter (fun s => truthy (strip s)) (split_marks text)).

(** [freq[word] = freq.get(word, 0) + 1] for the words of more than 2
    characters *)
Definition _calculate_word_frequency (text : string) : gmap string nat :=
  foldl (fun freq word =>
           if (2 <? String.length word)%nat
           then <[word := default 0 (freq !! word) + 1]> freq
           else freq)
        ∅ (findall_words (lower text)).

(** [sum(word_freq.get(word.lower(), 0) for word in sentence.split())
     / len(sentence.split())] *)
Definition sentence_score (word_freq : gmap string nat) (sentence : string)
    : option Q :=
  let words := split_whitespace sentence in
  let score :=
    foldl (fun total word => total + default 0 (word_freq !! lower word))
          0 words in
  py_div score (length words).

(** [sorted(items, key=lambda x: x[1], reverse=True)]: descending
    scores, equal scores in the order of the items *)
Fixpoint insert_by_value (x : nat * Q) (l : list (nat * Q))
    : list (nat * Q) :=
  match l with
  | [] => [x]
  | y :: l' =>
      if Qle_bool (snd x) (snd y) then y :: insert_by_value x l'
      else x :: l
  end.

Definition sorted_by_value (l : list (nat * Q)) : list (nat * Q) :=
  foldl (fun acc x => insert_by_value x acc) [] l.

(** [sorted(indices)] *)
Fixpoint insert_index (i : nat) (l : list nat) : list nat :=
  match l with
  | [] => [i]
  | j :: l' => if (j <=? i)%nat then j :: insert_index i l' else i :: l
  end.

Definition sorted_indices (l : list nat) : list nat :=
  foldl (fun acc i => insert_index i acc) [] l.

Definition _generate_extractive_summary (text : string) : option string :=
  let sentences := _split_into_sentences text in
  if (length sentences <=? 3)%nat then Some text
  else
    let word_freq := _calculate_word_frequency text in
    scores ← mapM (sentence_score word_freq) sentences;
    let sentence_scores := combine (seq 0 (length sentences)) scores in
    let top_sentences := sorted_by_value sentence_scores in
    let selected_indices := sorted_indices (map fst (take 3 top_sentences)) in
    summary_sentences ← mapM (fun idx => sentences !! idx) selected_indices;
    Some (join " " summary_sentences).

(** The loop over the chunks in [_generate_transformer_summary]. *)
Fixpoint summarize_chunks (model : Summarizer) (chunks : list string)
    (summaries : list string) : option (list string) :=
  match chunks with
  | [] => Some summaries
  | chunk :: rest =>
      if (length (split_whitespace chunk) <? 50)%nat
      then summarize_chunks model rest (summaries ++ [chunk])
      else
        result ← model chunk;
        match result with
        | summary_text :: _ =>
            summarize_chunks model rest (summaries ++ [summary_text])
        | [] => summarize_chunks model rest summaries
        end
  end.

Definition _generate_transformer_summary (model : Summarizer)
    (text : string) : option string :=
  let max_chunk_length := 1024 in
  let chunks := _split_text_into_chunks text max_chunk_length in
  summaries ← summarize_chunks model chunks [];
  match summaries with
  | _ :: _ :: _ =>
      let combined_summary := join " " summaries in
      if (max_length <? length (split_whitespace combined_summary))%nat
      then
        result ← model combined_summary;
        match result with
        | summary_text :: _ => Some summary_text
        | [] => Some combined_summary
        end
      else Some combined_summary
  | [summary] => Some summary
  | [] => Some (slice_to 200 text +:+ "...")
  end.

(** the body of the [try] of [summarize] *)
Definition summarize_body (self : t) (cleaned_text : string)
    : option string :=
  summary ←
    match summarizer self with
    | Some model => _generate_transformer_summary model cleaned_text
    | None => _generate_extractive_summary cleaned_text
    end;
  Some (_postprocess_summary summary).

Definition summarize (self : t) (text : string) : string :=
  if negb (truthy text) || (String.length (strip text) <? 100)%nat
  then
    if (200 <? String.length text)%nat
    then slice_to 200 text +:+ "..." else text
  else
    let cleaned_text := _preprocess_text text in
    if (length (split_whitespace cleaned_text) <=? max_length)%nat
    then cleaned_text
    else
      match summarize_body self cleaned_text with
      | Some summary => summary
      | None => _truncate_text cleaned_text max_length
      end.

(** The number of words [s.split()] finds in [s] when it starts inside
    a word ([in_word]) or not: the length of [split_whitespace]. *)
Fixpoint word_count (in_word : bool) (s : string) : nat :=
  match s with
  | "" => if in_word then 1 else 0
  | String c s' =>
      if is_space c then (if in_word then 1 else 0) + word_count false s'
      else word_count true s'
  end.

(** whether a text read from [in_word] ends inside a word *)
Fixpoint ends_in_word (in_word : bool) (s : string) : bool :=
  match s with
  | "" => in_word
  | String c s' => ends_in_word (negb (is_space c)) s'
  end.

(** a string without blanks *)
Fixpoint no_blank (s : string) : bool :=
  match s with
  | "" => true
  | String c s' => negb (is_space c) && no_blank s'
  end.

(** whether a blank of [s] stands directly before one of [.,;:!?] *)
Fixpoint blank_before_mark (s : string) : bool :=
  match s with
  | "" => false
  | String c s' =>
      (is_space c
       && match s' with String p _ => is_punctuation p | "" => false end)
      || blank_before_mark s'
  end.

End DocumentSummarizer.

(** ** parser.py *)

Module DocumentParser.
Import Text.

(** [\d] on ASCII *)
Definition is_digit (c : ascii) : bool := between 48 57 c.

Fixpoint all_blank (s : string) : bool :=
  match s with
  | "" => true
  | String c s' => is_space c && all_blank s'
  end.

(** whether [\d+\s*] followed by the end of the text matches [s] *)
Fixpoint digits_then_blanks (s : string) : bool :=
  match s with
  | "" => false
  | String c s' => is_digit c && (digits_then_blanks s' || all_blank s')
  end.

(** [re.sub(r'\b\d+\s*$', '', s, flags=re.MULTILINE)] where it is
    called: the blanks of the text have just been turned into spaces,
    so the text holds no line break and [$] can only be its end.  The
    search goes from left to right; [\b] before a digit holds when the
    previous character is not a word character ([after_word]).  A
    match reaches the end of the text, so what is kept is what
    precedes it. *)
Fixpoint drop_page_number_from (after_word : bool) (s : string) : string :=
  match s with
  | "" => ""
  | String c s' =>
      if negb after_word && digits_then_blanks s then ""
      else String c (drop_page_number_from (is_word_char c) s')
  end.

Definition drop_page_number (s : string) : string :=
  drop_page_number_from false s.

(** the characters kept by the class of the third substitution:
    besides the word characters and the blanks, [. , ; : ! ? - ( )],
    the square and curly brackets, the double and the single quote *)
Definition kept_by_clean (c : ascii) : bool :=
  is_word_char c || is_space c
  || existsb (Nat.eqb (code c))
       [46; 44; 59; 58; 33; 63; 45; 40; 41; 91; 93; 123; 125; 34; 39].

Fixpoint blank_special (s : string) : string :=
  match s with
  | "" => ""
  | String c s' =>
      String (if kept_by_clean c then c else " "%char) (blank_special s')
  end.

(** [re.sub(r' +', ' ', s)]: a run of spaces becomes one space *)
Fixpoint collapse_spaces_from (in_run : bool) (s : string) : string :=
  match s with
  | "" => ""
  | String c s' =>
      if (code c =? 32)%nat then
        if in_run then collapse_spaces_from true s'
        else String " " (collapse_spaces_from true s')
      else String c (collapse_spaces_from false s')
  end.

Definition collapse_spaces (s : string) : string :=
  collapse_spaces_from false s.

(** The two [replace] calls on the quotes put a quote for itself; the
    dashes they are followed by lie outside ASCII (and the class above
    has already blanked them). *)
Definition _clean_text (text : string) : string :=
  if negb (truthy text) then ""
  else
    let text := DocumentSummarizer.collapse_whitespace text in
    let text := drop_page_number text in
    let text := blank_special text in
    let text := collapse_spaces text in
    strip text.

(** Every blank of [s] is a space, and no blank follows a blank
    ([after_blank]: the character before [s] is a blank). *)
Fixpoint single_spaced (after_blank : bool) (s : string) : bool :=
  match s with
  | "" => true
  | String c s' =>
      if is_space c
      then negb after_blank && (code c =? 32)%nat && single_spaced true s'
      else single_spaced false s'
  end.

(** every blank of [s] is a space *)
Fixpoint only_spaces (s : string) : bool :=
  match s with
  | "" => true
  | String c s' => (negb (is_space c) || (code c =? 32)%nat) && only_spaces s'
  end.

(** every character of [s] is in a class *)
Fixpoint all_chars (in_class : ascii -> bool) (s : string) : bool :=
  match s with
  | "" => true
  | String c s' => in_class c && all_chars in_class s'
  end.

End DocumentParser.

(** ** Concrete inputs used by the examples below *)

Module Scenarios.
Import Text Ranker Random.

(** the scenario of the lexical path *)
Definition cat_document : string :=
  "The cat sat on the mat. The mat was red. Cats like red mats.".
Definition color_question : string := "What color is the mat?".

(** a question made of short words only *)
Definition short_question : string := "Is it a cat?".

(** an engine without models, and engines with an embedder only *)
Definition bare_engine : QAEngine.t :=
  {| QAEngine.embedder := None; QAEngine.qa_pipeline := None |}.
Definition engine_with (e : Embedder) : QAEngine.t :=
  {| QAEngine.embedder := Some e; QAEngine.qa_pipeline := None |}.
Definition evaluator_with (e : Embedder) : AnswerEvaluator.t :=
  {| AnswerEvaluator.embedder := Some e;
     AnswerEvaluator.stop_words := list_to_set ["the"; "this"; "that"] |}.
Definition bare_evaluator : AnswerEvaluator.t :=
  {| AnswerEvaluator.embedder := None;
     AnswerEvaluator.stop_words := list_to_set ["the"; "this"; "that"] |}.

(** three chunks (and four sentences) whose similarity to any query
    grows along the list and stays below the threshold *)
Definition three_chunks : list string :=
  ["alpha chunk of text."; "beta chunk of text."; "gamma chunk of text."].
Definition four_sentences : string :=
  "alpha chunk of text. beta chunk of text. gamma chunk of text. delta chunk of text.".
Definition rising_embedder : Embedder := fun _ candidate =>
  if String.prefix "alpha" candidate then Some (1 # 10)
  else if String.prefix "beta" candidate then Some (2 # 10)
  else if String.prefix "gamma" candidate then Some (25 # 100)
  else Some (28 # 100).


(** a span extractor that answers "red" with confidence 0.5 on a chunk
    about the mat and "blue" with confidence 0.9 on the others *)
Definition two_answers : QAEngine.Extractor := fun _ context =>
  if contains "mat" context
  then Some {| QAEngine.score := 5 # 10; QAEngine.start := 12;
               QAEngine.end_ := 15; QAEngine.answer := "red" |}
  else Some {| QAEngine.score := 9 # 10; QAEngine.start := 11;
               QAEngine.end_ := 15; QAEngine.answer := "blue" |}.
Definition mat_and_sky : list string :=
  ["The mat was red today."; "The sky is blue today."].

(** a challenge generator whose tokenizers split on blanks and on
    sentence ends, and a random source *)
Definition generator : ChallengeGenerator.t :=
  {| ChallengeGenerator.stop_words := list_to_set ["the"; "this"; "that"];
     ChallengeGenerator.question_templates := ChallengeGenerator.templates;
     ChallengeGenerator.word_tokenize := fun s => Some (split_whitespace s);
     ChallengeGenerator.sent_tokenize :=
       fun s => Some (Segmenter._split_into_sentences s) |}.
Definition source : rng := {| draws := fun n => 7 * n + 3; cursor := 0 |}.
Definition climate_document : string :=
  "Climate shapes the ocean. The ocean stores heat. Climate and ocean interact. Climate models track ocean heat content, and heat moves slowly.".

Definition greek_document : string :=
  "alpha beta gamma delta epsilon zeta alpha beta gamma delta epsilon zeta alpha beta gamma delta epsilon zeta".

Definition climate_question : AnswerEvaluator.Question :=
  ChallengeGenerator.logic_question
    "How does the document explain the relationship between climate and ocean?"
    ["climate"; "ocean"].

(** a report of 21 sentences and 159 words *)
Definition tide_report : string :=
  join " "
    ("Storms raise the sea level."
       :: replicate 19 "The tide rises and falls twice each day."
       ++ ["Harbours flood."]).

(** a summarizer whose model could not be loaded, and one whose model
    raises on every call *)
Definition no_model : DocumentSummarizer.t :=
  {| DocumentSummarizer.summarizer := None |}.
Definition failing_model : DocumentSummarizer.t :=
  {| DocumentSummarizer.summarizer := Some (fun _ => None) |}.

End Scenarios.

(** * Properties *)

(** ** The primitives on small inputs *)

Example re_split_trailing_blank :
  Text.re_split_sentences "a.  b! " = ["a."; "b!"; ""].
Proof. reflexivity. Qed.

Example re_split_needs_sentence_end :
  Text.re_split_sentences " Dr Who went home" = [" Dr Who went home"].
Proof. reflexivity. Qed.

Example split_into_sentences_drops_short :
  Segmenter._split_into_sentences "Too short. A longer sentence here!  Ok?"
  = ["A longer sentence here!"].
Proof. reflexivity. Qed.

Example findall_words_question :
  Text.findall_words (Text.lower "What color is the mat?")
  = ["what"; "color"; "is"; "the"; "mat"].
Proof. reflexivity. Qed.

Example argsort_equal_scores :
  Ranker.argsort [1 # 2; 1 # 2; 1 # 3; 1 # 2; 9 # 10] = [2; 0; 1; 3; 4]
  /\ Ranker.top_indices 3 [1 # 2; 1 # 2; 1 # 3; 1 # 2; 9 # 10] = [4; 3; 1].
Proof. split; reflexivity. Qed.

Example range_step_chunks :
  QAEngine.range_step 501 250 = [0; 250; 500]
  /\ QAEngine.range_step 500 250 = [0; 250]
  /\ QAEngine.range_step 0 250 = [].
Proof. repeat split; reflexivity. Qed.

Example py_round_half_even :
  (Num.py_round (1 # 8) 2 == 12 # 100)%Q
  /\ (Num.py_round (3 # 8) 2 == 38 # 100)%Q.
Proof. split; reflexivity. Qed.

Example format_relationship_template :
  ChallengeGenerator.format
    "How does the document explain the relationship between {concept1} and {concept2}?"
    [("topic", "climate"); ("concept1", "climate");
     ("concept2", "ocean"); ("concept", "climate")]
  = Some "How does the document explain the relationship between climate and ocean?".
Proof. reflexivity. Qed.

(** ** Strings *)

Section StringFacts.
Import Text.

Lemma append_cons (c : ascii) (a b : string) :
  String c a +:+ b = String c (a +:+ b).
Proof. reflexivity. Qed.

Lemma append_empty_l (a : string) : "" +:+ a = a.
Proof. reflexivity. Qed.

Lemma append_assoc (a b c : string) : (a +:+ b) +:+ c = a +:+ (b +:+ c).
Proof.
  induction a as [|x a IH]; [reflexivity|].
  now rewrite !append_cons, IH.
Qed.

Lemma append_empty_r (a : string) : a +:+ "" = a.
Proof.
  induction a as [|x a IH]; [reflexivity|].
  now rewrite append_cons, IH.
Qed.

Lemma lstrip_suffix (s : string) : exists pre, s = pre +:+ lstrip s.
Proof.
  induction s as [|c s [pre IH]]; simpl.
  - now exists "".
  - destruct (is_space c).
    + exists (String c pre). now rewrite append_cons, <- IH.
    + now exists "".
Qed.

Lemma rstrip_prefix (s : string) : exists post, s = rstrip s +:+ post.
Proof.
  induction s as [|c s [post IH]]; simpl.
  - now exists "".
  - destruct (rstrip s) as [|d r] eqn:E.
    + destruct (is_space c).
      * exists (String c s). reflexivity.
      * exists post. rewrite append_empty_l in IH.
        now rewrite append_cons, append_empty_l, <- IH.
    + exists post. now rewrite append_cons, <- IH.
Qed.

Lemma strip_substring (s : string) : substring_of (strip s) s.
Proof.
  unfold substring_of, strip.
  destruct (lstrip_suffix s) as [pre Hpre].
  destruct (rstrip_prefix (lstrip s)) as [post Hpost].
  exists pre, post. now rewrite <- Hpost.
Qed.

Lemma occur_in_order_shift (l : list string) (pre text : string) :
  occur_in_order l text -> occur_in_order l (pre +:+ text).
Proof.
  destruct l as [|s l]; simpl; [trivial|].
  intros (p & q & -> & H). exists (pre +:+ p), q.
  split; [now rewrite append_assoc | exact H].
Qed.

Lemma occur_in_order_tail (s : string) (l : list string) (text : string) :
  occur_in_order (s :: l) text -> occur_in_order l text.
Proof.
  simpl. intros (p & q & -> & H).
  rewrite <- append_assoc. now apply occur_in_order_shift.
Qed.

Lemma occur_in_order_substrings (l : list string) (text : string) :
  occur_in_order l text -> Forall (fun s => substring_of s text) l.
Proof.
  revert text. induction l as [|s l IH]; intros text H; [constructor|].
  constructor.
  - destruct H as (p & q & -> & _). now exists p, q.
  - apply IH. now apply occur_in_order_tail with s.
Qed.

(** The pieces of [re.split] lie in the text one after the other; the
    first one starts the text unless the scanner is inside a match. *)
Lemma re_split_from_in_order (st : scan) (s : string) :
  forall p ps, re_split_from st s = (p, ps) ->
  exists pre post,
    s = pre +:+ (p +:+ post) /\ occur_in_order ps post
    /\ (st <> InMatch -> pre = "").
Proof.
  revert st. induction s as [|c s IH]; intros st p ps; simpl.
  - intros [= <- <-]. exists "", "". simpl. tauto.
  - destruct (is_space c && in_match_position st) eqn:Hsep.
    + destruct (re_split_from InMatch s) as [p' ps'] eqn:E.
      destruct (IH InMatch p' ps' E) as (pre & post & Hs & Hord & _).
      destruct st; simpl in Hsep; rewrite ?andb_false_r in Hsep;
        try discriminate.
      * intros [= <- <-]. exists "", (String c s).
        split; [reflexivity|]. split; [|reflexivity].
        exists (String c pre), post.
        split; [now rewrite append_cons, <- Hs | exact Hord].
      * intros [= <- <-]. exists (String c pre), post.
        split; [now rewrite append_cons, <- Hs|].
        split; [exact Hord|]. intros H. now contradiction H.
    + destruct (re_split_from (after c) s) as [p' ps'] eqn:E.
      destruct (IH (after c) p' ps' E) as (pre & post & Hs & Hord & Hpre).
      intros [= <- <-].
      assert (pre = "") as ->.
      { apply Hpre. unfold after. now destruct (is_sentence_end c). }
      exists "", post. rewrite append_empty_l in Hs.
      split; [now rewrite append_empty_l, append_cons, <- Hs|].
      split; [exact Hord | reflexivity].
Qed.

Lemma re_split_sentences_in_order (text : string) :
  occur_in_order (re_split_sentences text) text.
Proof.
  unfold re_split_sentences.
  destruct (re_split_from Plain text) as [p ps] eqn:E.
  destruct (re_split_from_in_order Plain text p ps E)
    as (pre & post & Hs & Hord & _).
  simpl. now exists pre, post.
Qed.

Lemma strip_filter_in_order (keep : string -> bool) (l : list string)
    (text : string) :
  occur_in_order l text ->
  occur_in_order (map strip (List.filter keep l)) text.
Proof.
  revert text. induction l as [|s l IH]; intros text H; simpl; [trivial|].
  destruct (keep s); simpl.
  - destruct H as (p & q & -> & H).
    destruct (strip_substring s) as (a & b & Hs).
    exists (p +:+ a), (b +:+ q). split.
    + rewrite Hs at 1. now rewrite !append_assoc.
    + apply occur_in_order_shift. now apply IH.
  - apply IH. now apply occur_in_order_tail with s.
Qed.

End StringFacts.

(** ** The segmenter *)

(** C6. Every sentence of [_split_into_sentences] has more than 10
    characters and is a contiguous substring of the input, and the
    sentences lie in the input one after the other, in the order in
    which they are returned. *)
Theorem segmenter_sentences_verbatim_in_order (text : string) :
  Forall (fun s => 10 < String.length s /\ Text.substring_of s text)
         (Segmenter._split_into_sentences text)
  /\ Text.occur_in_order (Segmenter._split_into_sentences text) text.
Proof.
  assert (Hord : Text.occur_in_order (Segmenter._split_into_sentences text) text).
  { unfold Segmenter._split_into_sentences.
    apply strip_filter_in_order, re_split_sentences_in_order. }
  split; [|exact Hord].
  apply occur_in_order_substrings in Hord.
  rewrite Forall_forall in Hord |- *.
  intros s Hs. split; [|now apply Hord].
  unfold Segmenter._split_into_sentences in Hs.
  apply list_elem_of_fmap in Hs as (y & -> & Hy).
  apply list_elem_of_In, filter_In in Hy as [_ Hy].
  apply andb_true_iff in Hy as [_ Hy].
  now apply Nat.ltb_lt in Hy.
Qed.

(** ** The evaluator: combination, grades, empty answer *)

Section EvaluatorFacts.
Import Num AnswerEvaluator.

Lemma Qlt_bool_true (x y : Q) : Qlt_bool x y = true <-> (x < y)%Q.
Proof.
  unfold Qlt_bool. rewrite negb_true_iff, <- not_true_iff_false, Qle_bool_iff.
  split; [apply Qnot_le_lt | apply Qlt_not_le].
Qed.

Lemma Qlt_bool_false (x y : Q) : Qlt_bool x y = false <-> (y <= x)%Q.
Proof. unfold Qlt_bool. now rewrite negb_false_iff, Qle_bool_iff. Qed.

Lemma Qle_bool_false (x y : Q) : Qle_bool x y = false <-> (y < x)%Q.
Proof.
  rewrite <- not_true_iff_false, Qle_bool_iff.
  split; [apply Qnot_le_lt | apply Qlt_not_le].
Qed.




End EvaluatorFacts.



(** C8. The letter grade is monotone in the score: a lower score never
    gets a higher grade, over the bands A+ (0.9 and above), A, B+, B,
    C+, C, D and F (below 0.3). *)
Theorem get_grade_monotone (s1 s2 : Q) :
  (s1 < s2)%Q ->
  AnswerEvaluator.grade_rank (AnswerEvaluator._get_grade s1)
  <= AnswerEvaluator.grade_rank (AnswerEvaluator._get_grade s2).
Proof.
  intros Hlt. unfold AnswerEvaluator._get_grade.
  repeat match goal with
         | |- context [Qle_bool ?a ?b] =>
             let E := fresh "E" in
             destruct (Qle_bool a b) eqn:E;
             [apply Qle_bool_iff in E | apply Qle_bool_false in E]
         end;
    try (exfalso; lra);
    vm_compute; lia.
Qed.

Lemma get_grade_monotone_witness :
  (4 # 10 < 85 # 100)%Q
  /\ AnswerEvaluator._get_grade (4 # 10) = "C"
  /\ AnswerEvaluator._get_grade (85 # 100) = "A"
  /\ AnswerEvaluator.grade_rank (AnswerEvaluator._get_grade (4 # 10))
     <= AnswerEvaluator.grade_rank (AnswerEvaluator._get_grade (85 # 100)).
Proof.
  assert (H : (4 # 10 < 85 # 100)%Q) by reflexivity.
  split; [exact H|]. split; [reflexivity|]. split; [reflexivity|].
  exact (get_grade_monotone (4 # 10) (85 # 100) H).
Defined.



(** ** The lexical path of the answer synthesizer *)

Section LexicalFacts.
Import Text Num QAEngine.

Lemma long_words_empty (s : string) :
  Forall (fun w => String.length w <= 3) (findall_words (lower s)) ->
  long_words s = ∅.
Proof.
  intros H. apply leibniz_equiv, elem_of_equiv_empty. intros w Hw.
  unfold long_words in Hw. apply elem_of_filter in Hw as [Hlen Hin].
  apply elem_of_list_to_set in Hin.
  rewrite Forall_forall in H. specialize (H w Hin). lia.
Qed.

(** The ratio is taken only when the intersection is not empty, and
    then the question has a word: the division never raises. *)
Lemma score_sentence_total (question_words : gset string)
    (sentence_scores : list (Q * string)) (sentence : string) :
  is_Some (score_sentence question_words sentence_scores sentence).
Proof.
  unfold score_sentence.
  destruct (0 <? size (question_words ∩ long_words sentence))%nat eqn:E;
    [|eauto].
  apply Nat.ltb_lt in E.
  assert (size (question_words ∩ long_words sentence) <= size question_words)
    by apply subseteq_size, intersection_subseteq_l.
  unfold py_div. destruct (size question_words); [lia | eauto].
Qed.

Lemma score_sentence_no_words (sentence_scores : list (Q * string))
    (sentence : string) :
  score_sentence ∅ sentence_scores sentence = Some sentence_scores.
Proof.
  unfold score_sentence.
  now rewrite (left_absorb_L ∅ (∩)), size_empty.
Qed.

Lemma score_sentences_no_words (sentences : list string)
    (sentence_scores : list (Q * string)) :
  score_sentences ∅ sentences sentence_scores = Some sentence_scores.
Proof.
  revert sentence_scores.
  induction sentences as [|s l IH]; intros acc; simpl; [reflexivity|].
  rewrite score_sentence_no_words. simpl. apply IH.
Qed.

Lemma score_chunks_no_words (chunks : list string)
    (sentence_scores : list (Q * string)) :
  score_chunks ∅ chunks sentence_scores = Some sentence_scores.
Proof.
  revert sentence_scores.
  induction chunks as [|c l IH]; intros acc; simpl; [reflexivity|].
  rewrite score_sentences_no_words. simpl. apply IH.
Qed.

Lemma find_relevant_single_chunk (self : t) (question chunk : string) :
  _find_relevant_chunks self question [chunk] = [chunk].
Proof.
  unfold _find_relevant_chunks.
  destruct (embedder self) as [e|]; [|reflexivity].
  unfold Ranker.similarities. simpl.
  destruct (e question chunk) as [s|]; [|reflexivity]. simpl.
  unfold Ranker.relevant, Ranker.relevant_indices. simpl.
  now destruct (Ranker.above_threshold [s] 0).
Qed.

End LexicalFacts.

(** C4 as stated fails: on the cat document the lexical path finds no
    evidence.  The question keeps the words [what] and [color] only
    ([mat] has 3 characters), the document has neither, and the answer
    is the fixed one, which does not contain [red]. *)
Lemma lexical_path_cat_document_no_evidence :
  let chunks :=
    QAEngine._find_relevant_chunks Scenarios.bare_engine
      Scenarios.color_question
      (QAEngine._split_document_into_chunks Scenarios.cat_document) in
  QAEngine._generate_fallback_answer Scenarios.color_question chunks
  = Some (QAEngine.could_not_find, [])
  /\ Text.contains "red" QAEngine.could_not_find = false
  /\ ~ (exists answer evidence,
          QAEngine._generate_fallback_answer Scenarios.color_question chunks
          = Some (answer, evidence)
          /\ head evidence = Some "The mat was red."
          /\ Text.contains "red" answer = true).
Proof.
  assert (E : QAEngine._generate_fallback_answer Scenarios.color_question
                (QAEngine._find_relevant_chunks Scenarios.bare_engine
                   Scenarios.color_question
                   (QAEngine._split_document_into_chunks
                      Scenarios.cat_document))
              = Some (QAEngine.could_not_find, []))
    by (vm_compute; reflexivity).
  cbv zeta. rewrite E. split; [reflexivity|]. split; [reflexivity|].
  intros (answer & evidence & [= <- <-] & Hhead & _). discriminate Hhead.
Qed.

(** C4, amended. For the cat document and the question about the colour
    of the mat, whatever the embedder of the engine: the document is one
    chunk of three sentences, the question words of more than 3
    characters are [what] and [color], no sentence shares one of them,
    and the lexical path returns the fixed could-not-find answer with
    no evidence. *)
Theorem lexical_path_cat_document (self : QAEngine.t) :
  let chunks :=
    QAEngine._find_relevant_chunks self Scenarios.color_question
      (QAEngine._split_document_into_chunks Scenarios.cat_document) in
  chunks = [Scenarios.cat_document]
  /\ QAEngine._split_into_sentences Scenarios.cat_document
     = ["The cat sat on the mat."; "The mat was red."; "Cats like red mats."]
  /\ QAEngine.long_words Scenarios.color_question = {[ "what"; "color" ]}
  /\ Forall (fun sentence =>
               QAEngine.long_words Scenarios.color_question
               ∩ QAEngine.long_words sentence = ∅)
            (QAEngine._split_into_sentences Scenarios.cat_document)
  /\ QAEngine._generate_fallback_answer Scenarios.color_question chunks
     = Some (QAEngine.could_not_find, []).
Proof.
  assert (E : QAEngine._split_document_into_chunks Scenarios.cat_document
              = [Scenarios.cat_document]) by (vm_compute; reflexivity).
  cbv zeta. rewrite E, find_relevant_single_chunk.
  split; [reflexivity|]. split; [vm_compute; reflexivity|].
  split; [vm_compute; reflexivity|].
  split; [|vm_compute; reflexivity].
  assert (S : QAEngine._split_into_sentences Scenarios.cat_document
     = ["The cat sat on the mat."; "The mat was red."; "Cats like red mats."])
    by (vm_compute; reflexivity).
  rewrite S. repeat constructor; vm_compute; reflexivity.
Qed.

(** C10. When no word of the question has more than 3 characters, the
    lexical path returns, for every list of chunks, the fixed
    could-not-find answer with an empty evidence list; it is a value
    ([Some]), so no division by the empty question-word set was made. *)
Theorem lexical_path_short_words_total (question : string)
    (chunks : list string) :
  Forall (fun w => String.length w <= 3)
         (Text.findall_words (Text.lower question)) ->
  QAEngine._generate_fallback_answer question chunks
  = Some (QAEngine.could_not_find, []).
Proof.
  intros H. unfold QAEngine._generate_fallback_answer.
  rewrite (long_words_empty question H), score_chunks_no_words.
  reflexivity.
Qed.

Lemma lexical_path_short_words_witness :
  Forall (fun w => String.length w <= 3)
         (Text.findall_words (Text.lower Scenarios.short_question))
  /\ QAEngine._generate_fallback_answer Scenarios.short_question
       [Scenarios.cat_document]
     = Some (QAEngine.could_not_find, []).
Proof.
  assert (H : Forall (fun w => String.length w <= 3)
                (Text.findall_words (Text.lower Scenarios.short_question))).
  { vm_compute. repeat constructor. }
  split; [exact H|].
  exact (lexical_path_short_words_total Scenarios.short_question
           [Scenarios.cat_document] H).
Defined.

(** ** The ranker *)

Section RankerFacts.
Import Num Ranker.

Lemma insert_by_score_perm (x : Q * nat) (l : list (Q * nat)) :
  insert_by_score x l ≡ₚ x :: l.
Proof.
  induction l as [|y l IH]; simpl; [reflexivity|].
  destruct (Qle_bool (fst y) (fst x)); [|reflexivity].
  rewrite IH. apply Permutation_swap.
Qed.



Lemma sort_from_perm (l acc : list (Q * nat)) :
  foldl (fun acc x => insert_by_score x acc) acc l ≡ₚ acc ++ l.
Proof.
  revert acc. induction l as [|x l IH]; intros acc; simpl.
  - now rewrite app_nil_r.
  - rewrite IH, insert_by_score_perm. apply Permutation_middle.
Qed.



Lemma StronglySorted_with (A : Type) (R : relation A) (P : A -> Prop)
    (l : list A) :
  StronglySorted R l -> Forall P l ->
  StronglySorted (fun x y => R x y /\ P x /\ P y) l.
Proof.
  induction 1 as [|x l Hs IH Hx]; intros Hp; [constructor|].
  apply Forall_cons in Hp as [Hpx Hp].
  constructor; [now apply IH|].
  rewrite Forall_forall in Hx, Hp |- *. intros y Hy.
  split; [now apply Hx | split; [exact Hpx | now apply Hp]].
Qed.


Lemma StronglySorted_take (A : Type) (R : relation A) (k : nat)
    (l : list A) :
  StronglySorted R l -> StronglySorted R (take k l).
Proof.
  intros H. rewrite <- (take_drop k l) in H.
  now apply StronglySorted_app_1_l in H.
Qed.

Lemma StronglySorted_filter (A : Type) (R : relation A) (f : A -> bool)
    (l : list A) :
  StronglySorted R l -> StronglySorted R (List.filter f l).
Proof.
  induction 1 as [|x l Hs IH Hx]; simpl; [constructor|].
  destruct (f x); [|exact IH].
  constructor; [exact IH|].
  rewrite Forall_forall in Hx |- *. intros y Hy.
  apply list_elem_of_In, filter_In in Hy as [Hy _].
  now apply Hx, list_elem_of_In.
Qed.




(** When no score is above the threshold nothing is kept. *)
Lemma relevant_none_clear (k : nat) (sims : list Q)
    (candidates : list string) :
  Forall (fun s => (s <= threshold)%Q) sims ->
  relevant k sims candidates = [].
Proof.
  intros H. unfold relevant, relevant_indices.
  replace (List.filter (above_threshold sims) (top_indices k sims))
    with (@nil nat); [reflexivity|].
  symmetry. induction (top_indices k sims) as [|i l IH]; [reflexivity|].
  simpl. rewrite <- IH.
  replace (above_threshold sims i) with false; [reflexivity|].
  symmetry. apply Qlt_bool_false.
  destruct (Nat.lt_ge_cases i (length sims)) as [Hi|Hi].
  - rewrite Forall_forall in H. apply H, list_elem_of_In, nth_In, Hi.
  - rewrite nth_overflow by exact Hi. discriminate.
Qed.


Lemma take_not_nil (A : Type) (n : nat) (l : list A) :
  l <> [] -> take (S n) l <> [].
Proof. now destruct l. Qed.

End RankerFacts.

(** C1 as stated fails: with an embedder and every score at or below
    0.3, the chunk ranker returns the first 2 chunks of the list and the
    sentence ranker the first 3 sentences of the document, in document
    order, which are not the candidates of highest similarity. *)
Lemma ranker_none_clear_not_top_by_similarity :
  (Ranker.similarities Scenarios.rising_embedder "query"
     Scenarios.three_chunks
   = Some [1 # 10; 2 # 10; 25 # 100]
   /\ QAEngine._find_relevant_chunks
        (Scenarios.engine_with Scenarios.rising_embedder) "query"
        Scenarios.three_chunks
      = ["alpha chunk of text."; "beta chunk of text."]
   /\ Ranker.top_by_similarity 2 [1 # 10; 2 # 10; 25 # 100]
        Scenarios.three_chunks
      = ["gamma chunk of text."; "beta chunk of text."])
  /\ (Ranker.similarities Scenarios.rising_embedder "query"
        (AnswerEvaluator._split_into_sentences Scenarios.four_sentences)
      = Some [1 # 10; 2 # 10; 25 # 100; 28 # 100]
      /\ AnswerEvaluator._find_relevant_sentences
           (Scenarios.evaluator_with Scenarios.rising_embedder) "query"
           Scenarios.four_sentences
         = ["alpha chunk of text."; "beta chunk of text.";
            "gamma chunk of text."]
      /\ Ranker.top_by_similarity 3 [1 # 10; 2 # 10; 25 # 100; 28 # 100]
           (AnswerEvaluator._split_into_sentences Scenarios.four_sentences)
         = ["delta chunk of text."; "gamma chunk of text.";
            "beta chunk of text."]).
Proof. repeat split; vm_compute; reflexivity. Qed.

(** C1, amended. With an embedder that encodes the candidates, when no
    similarity exceeds 0.3 the chunk ranker returns the first 2 chunks
    and the sentence ranker the first 3 sentences, in their original
    order; the result is not empty when there is a candidate. *)
Theorem ranker_none_clear_returns_leading_candidates
    (e : Ranker.Embedder) (pipeline : option QAEngine.Extractor)
    (stop : gset string) (question document_text : string)
    (chunks : list string) (chunk_sims sentence_sims : list Q) :
  Ranker.similarities e question chunks = Some chunk_sims ->
  Forall (fun s => (s <= Ranker.threshold)%Q) chunk_sims ->
  Ranker.similarities e question
    (AnswerEvaluator._split_into_sentences document_text)
  = Some sentence_sims ->
  Forall (fun s => (s <= Ranker.threshold)%Q) sentence_sims ->
  let engine :=
    {| QAEngine.embedder := Some e; QAEngine.qa_pipeline := pipeline |} in
  let evaluator :=
    {| AnswerEvaluator.embedder := Some e;
       AnswerEvaluator.stop_words := stop |} in
  (QAEngine._find_relevant_chunks engine question chunks = take 2 chunks
   /\ (chunks <> [] ->
       QAEngine._find_relevant_chunks engine question chunks <> []))
  /\ (AnswerEvaluator._find_relevant_sentences evaluator question
        document_text
      = take 3 (AnswerEvaluator._split_into_sentences document_text)
      /\ (AnswerEvaluator._split_into_sentences document_text <> [] ->
          AnswerEvaluator._find_relevant_sentences evaluator question
            document_text <> [])).
Proof.
  intros Hc Hcs Hs Hss engine evaluator.
  assert (E1 : QAEngine._find_relevant_chunks engine question chunks
               = take 2 chunks).
  { unfold QAEngine._find_relevant_chunks, engine. simpl.
    now rewrite Hc, (relevant_none_clear 3 chunk_sims chunks Hcs). }
  assert (E2 : AnswerEvaluator._find_relevant_sentences evaluator question
                 document_text
               = take 3 (AnswerEvaluator._split_into_sentences document_text)).
  { unfold AnswerEvaluator._find_relevant_sentences, evaluator. simpl.
    now rewrite Hs, (relevant_none_clear 5 sentence_sims _ Hss). }
  rewrite E1, E2.
  split; (split; [reflexivity | apply take_not_nil]).
Qed.

Lemma ranker_none_clear_witness :
  QAEngine._find_relevant_chunks
    (Scenarios.engine_with Scenarios.rising_embedder) "query"
    Scenarios.three_chunks
  = take 2 Scenarios.three_chunks
  /\ AnswerEvaluator._find_relevant_sentences
       (Scenarios.evaluator_with Scenarios.rising_embedder) "query"
       Scenarios.four_sentences
     = take 3 (AnswerEvaluator._split_into_sentences Scenarios.four_sentences).
Proof.
  assert (Hc : Ranker.similarities Scenarios.rising_embedder "query"
                 Scenarios.three_chunks
               = Some [1 # 10; 2 # 10; 25 # 100]) by reflexivity.
  assert (Hcs : Forall (fun s => (s <= Ranker.threshold)%Q)
                  [1 # 10; 2 # 10; 25 # 100])
    by (repeat constructor; discriminate).
  assert (Hs : Ranker.similarities Scenarios.rising_embedder "query"
                 (AnswerEvaluator._split_into_sentences
                    Scenarios.four_sentences)
               = Some [1 # 10; 2 # 10; 25 # 100; 28 # 100]) by reflexivity.
  assert (Hss : Forall (fun s => (s <= Ranker.threshold)%Q)
                  [1 # 10; 2 # 10; 25 # 100; 28 # 100])
    by (repeat constructor; discriminate).
  pose proof (ranker_none_clear_returns_leading_candidates
                Scenarios.rising_embedder None
                (list_to_set ["the"; "this"; "that"]) "query"
                Scenarios.four_sentences Scenarios.three_chunks
                _ _ Hc Hcs Hs Hss) as [[H1 _] [H2 _]].
  split; [exact H1 | exact H2].
Defined.




(** ** The span-extractor path of the answer synthesizer *)

Section ExtractorFacts.
Import Text Num QAEngine.

Variable pipeline : Extractor.
Variable question : string.

Lemma qa_step_score_grows (st : best) (chunk : string) :
  (best_score st <= best_score (qa_step pipeline question st chunk))%Q.
Proof.
  unfold qa_step. destruct (pipeline question chunk) as [r|]; [|lra].
  destruct (Qlt_bool (best_score st) (score r)) eqn:E; simpl; [|lra].
  apply Qlt_bool_true in E. destruct (truthy (answer r)); simpl; lra.
Qed.

Lemma qa_fold_score_grows (chunks : list string) (st : best) :
  (best_score st
   <= best_score (foldl (qa_step pipeline question) st chunks))%Q.
Proof.
  revert st. induction chunks as [|c l IH]; intros st; simpl; [lra|].
  pose proof (qa_step_score_grows st c). pose proof (IH (qa_step pipeline question st c)).
  lra.
Qed.

(** The loop ends with a score at least as high as the confidence of
    every answer that is not empty. *)
Lemma qa_loop_best_score (chunks : list string) (chunk : string)
    (result : QAResult) :
  chunk ∈ chunks -> pipeline question chunk = Some result ->
  truthy (answer result) = true ->
  (score result <= best_score (qa_loop pipeline question chunks))%Q.
Proof.
  unfold qa_loop. generalize ({| best_answer := ""; best_score := 0;
                                 source_sentences := [] |}).
  induction chunks as [|c l IH]; intros st Hin Hres Hans.
  - now apply elem_of_nil in Hin.
  - simpl. apply elem_of_cons in Hin as [<-|Hin].
    + pose proof (qa_fold_score_grows l (qa_step pipeline question st chunk)) as H.
      assert (score result <= best_score (qa_step pipeline question st chunk))%Q.
      { unfold qa_step. rewrite Hres, Hans, andb_true_r.
        destruct (Qlt_bool (best_score st) (score result)) eqn:E; simpl.
        - lra.
        - now apply Qlt_bool_false in E. }
      lra.
    + now apply IH.
Qed.

End ExtractorFacts.

(** C2, the failing input.  The extractor answers [red] with confidence
    0.5 on the first chunk and [blue] with confidence 0.9 on the second:
    the winning answer is [blue], and the evidence still holds the
    sentence found for the superseded answer, which does not contain
    [blue]. *)
Theorem qa_answer_evidence_keeps_superseded_sentence :
  QAEngine._generate_qa_answer Scenarios.two_answers "What color is it?"
    Scenarios.mat_and_sky
  = Some ("blue", ["The mat was red today."; "The sky is blue today."])
  /\ Text.contains (Text.lower "blue") (Text.lower "The mat was red today.")
     = false.
Proof. split; vm_compute; reflexivity. Qed.

(** ** The challenge generator *)

Section GeneratorFacts.
Import Random ChallengeGenerator.

Variable self : t.
Variable document_text : string.

Lemma fallback_questions_length : length _generate_fallback_questions = 3.
Proof. reflexivity. Qed.

(** Padding adds exactly the missing questions. *)
Lemma pad_with_fallbacks_length (missing : nat) :
  forall (questions padded : list Question) (g : rng),
    pad_with_fallbacks self missing document_text questions g = Some padded ->
    length padded = length questions + missing.
Proof.
  induction missing as [|m IH]; intros questions padded g; simpl.
  - intros [= <-]. lia.
  - destruct (_generate_fallback_question self document_text g)
      as [[fb g']|]; simpl; [|discriminate].
    intros H. apply IH in H. rewrite length_app in H. simpl in H. lia.
Qed.

Lemma generate_body_length (g : rng) (questions : list Question) :
  generate_body self document_text g = Some questions ->
  length questions = 3.
Proof.
  unfold generate_body.
  destruct (_extract_key_concepts self document_text) as [concepts|];
    [|discriminate].
  cbn [mbind option_bind].
  destruct (length concepts <? 2)%nat.
  { intros H. assert (questions = _generate_fallback_questions)
      by congruence.
    subst. reflexivity. }
  destruct (question_rounds self 3 document_text concepts [] ∅ g)
    as [[qs g']|]; [|discriminate].
  cbn [mbind option_bind].
  destruct (pad_with_fallbacks self (3 - length qs) document_text qs g')
    as [padded|] eqn:E; [|discriminate].
  cbn [mbind option_bind].
  intros H. assert (questions = take 3 padded) by congruence. subst.
  apply pad_with_fallbacks_length in E.
  rewrite length_take. lia.
Qed.

Lemma generate_questions_length (g : rng) :
  length (generate_questions self document_text g) = 3.
Proof.
  unfold generate_questions.
  destruct (negb (Text.truthy document_text)
            || (String.length (Text.strip document_text) <? 100)%nat);
    [reflexivity|].
  destruct (generate_body self document_text g) as [qs|] eqn:E;
    [|reflexivity].
  now apply generate_body_length with g.
Qed.

End GeneratorFacts.

(** C7. For a document of at least 100 characters from which at least
    2 key concepts are extracted, [generate_questions] returns exactly 3
    questions, whatever the random source draws. *)
Theorem generate_questions_returns_three (self : ChallengeGenerator.t)
    (document_text : string) (key_concepts : list string)
    (g : Random.rng) :
  100 <= String.length document_text ->
  ChallengeGenerator._extract_key_concepts self document_text
  = Some key_concepts ->
  2 <= length key_concepts ->
  length (ChallengeGenerator.generate_questions self document_text g) = 3.
Proof. intros _ _ _. apply generate_questions_length. Qed.

Lemma generate_questions_witness :
  ChallengeGenerator._extract_key_concepts Scenarios.generator
    Scenarios.climate_document
  = Some ["ocean"; "climate"; "heat"]
  /\ length (ChallengeGenerator.generate_questions Scenarios.generator
               Scenarios.climate_document Scenarios.source) = 3.
Proof.
  assert (Hlen : 100 <= String.length Scenarios.climate_document)
    by (vm_compute; lia).
  assert (Hk : ChallengeGenerator._extract_key_concepts Scenarios.generator
                 Scenarios.climate_document
               = Some ["ocean"; "climate"; "heat"])
    by (vm_compute; reflexivity).
  assert (H2 : 2 <= length ["ocean"; "climate"; "heat"]) by (simpl; lia).
  split; [exact Hk|].
  exact (generate_questions_returns_three Scenarios.generator
           Scenarios.climate_document _ Scenarios.source Hlen Hk H2).
Defined.

(** * Further properties of the pipeline *)

(** ** The ranker returns candidates, and some of them *)

Section RankerSelection.
Import Num Ranker.

Lemma argsort_in_range (sims : list Q) :
  Forall (fun i => i < length sims) (argsort sims).
Proof.
  unfold argsort, sort_by_score. apply Forall_forall. intros i Hi.
  apply list_elem_of_fmap in Hi as ([q j] & -> & Hin).
  rewrite sort_from_perm in Hin. simpl in Hin.
  apply list_elem_of_In, in_combine_r, in_seq in Hin. simpl. lia.
Qed.

Lemma argsort_length (sims : list Q) : length (argsort sims) = length sims.
Proof.
  unfold argsort, sort_by_score.
  rewrite length_map, sort_from_perm. simpl.
  rewrite length_combine, length_seq. lia.
Qed.

Lemma relevant_indices_in_range (k : nat) (sims : list Q) :
  Forall (fun i => i < length sims) (relevant_indices k sims).
Proof.
  pose proof (argsort_in_range sims) as H.
  rewrite Forall_forall in H |- *. intros i Hi. apply H.
  unfold relevant_indices, top_indices in Hi.
  apply list_elem_of_In, filter_In in Hi as [Hi _].
  apply list_elem_of_In, elem_of_take in Hi as (n & Hn & _).
  apply list_elem_of_lookup_2, list_elem_of_In in Hn.
  apply list_elem_of_In. now apply in_rev.
Qed.

Lemma relevant_indices_length (k : nat) (sims : list Q) :
  length (relevant_indices k sims) <= k.
Proof.
  unfold relevant_indices, top_indices.
  etransitivity; [apply List.filter_length_le|].
  rewrite length_take. lia.
Qed.

Lemma relevant_from_candidates (k : nat) (sims : list Q)
    (candidates : list string) :
  length candidates = length sims ->
  Forall (fun c => c ∈ candidates) (relevant k sims candidates)
  /\ length (relevant k sims candidates) <= k.
Proof.
  intros Hlen. unfold relevant. split.
  - apply Forall_forall. intros c Hc.
    apply list_elem_of_fmap in Hc as (i & -> & Hi).
    pose proof (relevant_indices_in_range k sims) as H.
    rewrite Forall_forall in H. specialize (H i Hi).
    apply list_elem_of_In, nth_In. lia.
  - rewrite length_map. apply relevant_indices_length.
Qed.

Lemma take_from_candidates (A : Type) (n : nat) (l : list A) :
  Forall (fun c => c ∈ l) (take n l) /\ length (take n l) <= n.
Proof.
  split; [|rewrite length_take; lia].
  apply Forall_forall. intros c Hc.
  apply elem_of_take in Hc as (i & Hi & _).
  eapply list_elem_of_lookup_2. exact Hi.
Qed.

End RankerSelection.

(** X1. Whatever the embedder does (absent, raising, or giving any
    scores), [_find_relevant_chunks] returns at most 3 chunks, each of
    them one of the chunks it was given, and it returns at least one
    chunk when it is given one. *)
Theorem find_relevant_chunks_selects (self : QAEngine.t)
    (question : string) (chunks : list string) :
  let found := QAEngine._find_relevant_chunks self question chunks in
  Forall (fun c => c ∈ chunks) found
  /\ length found <= 3
  /\ (chunks <> [] -> found <> []).
Proof.
  cbv zeta. unfold QAEngine._find_relevant_chunks.
  destruct (QAEngine.embedder self) as [e|].
  - destruct (Ranker.similarities e question chunks) as [sims|] eqn:E.
    + apply length_mapM in E.
      destruct (relevant_from_candidates 3 sims chunks E) as [Hin Hlen].
      destruct (Ranker.relevant 3 sims chunks) as [|c r] eqn:Er.
      * destruct (take_from_candidates _ 2 chunks) as [H1 H2].
        split; [exact H1|]. split; [lia | apply take_not_nil].
      * split; [exact Hin|]. split; [exact Hlen | discriminate].
    + destruct (take_from_candidates _ 3 chunks) as [H1 H2].
      split; [exact H1|]. split; [exact H2 | apply take_not_nil].
  - destruct (take_from_candidates _ 3 chunks) as [H1 H2].
    split; [exact H1|]. split; [exact H2 | apply take_not_nil].
Qed.

(** X2. Whatever the embedder does, [_find_relevant_sentences] returns
    at most 5 sentences, each of them a sentence of the document, and
    at least one when the document has a sentence. *)
Theorem find_relevant_sentences_selects (self : AnswerEvaluator.t)
    (question document_text : string) :
  let sentences := AnswerEvaluator._split_into_sentences document_text in
  let found :=
    AnswerEvaluator._find_relevant_sentences self question document_text in
  Forall (fun s => s ∈ sentences) found
  /\ length found <= 5
  /\ (sentences <> [] -> found <> []).
Proof.
  cbv zeta. unfold AnswerEvaluator._find_relevant_sentences.
  set (sentences := AnswerEvaluator._split_into_sentences document_text).
  destruct (AnswerEvaluator.embedder self) as [e|].
  - destruct (Ranker.similarities e question sentences) as [sims|] eqn:E.
    + apply length_mapM in E.
      destruct (relevant_from_candidates 5 sims sentences E) as [Hin Hlen].
      destruct (Ranker.relevant 5 sims sentences) as [|c r] eqn:Er.
      * destruct (take_from_candidates _ 3 sentences) as [H1 H2].
        split; [exact H1|]. split; [lia | apply take_not_nil].
      * split; [exact Hin|]. split; [exact Hlen | discriminate].
    + destruct (take_from_candidates _ 3 sentences) as [H1 H2].
      split; [exact H1|]. split; [lia | apply take_not_nil].
  - destruct (take_from_candidates _ 5 sentences) as [H1 H2].
    split; [exact H1|]. split; [exact H2 | apply take_not_nil].
Qed.

Lemma find_relevant_chunks_selects_witness :
  Scenarios.three_chunks <> []
  /\ QAEngine._find_relevant_chunks
       (Scenarios.engine_with Scenarios.rising_embedder) "query"
       Scenarios.three_chunks <> [].
Proof.
  assert (H : Scenarios.three_chunks <> []) by discriminate.
  split; [exact H|].
  exact (proj2 (proj2 (find_relevant_chunks_selects
           (Scenarios.engine_with Scenarios.rising_embedder) "query"
           Scenarios.three_chunks)) H).
Defined.

Lemma find_relevant_sentences_selects_witness :
  AnswerEvaluator._split_into_sentences Scenarios.four_sentences <> []
  /\ AnswerEvaluator._find_relevant_sentences
       (Scenarios.evaluator_with Scenarios.rising_embedder) "query"
       Scenarios.four_sentences <> [].
Proof.
  assert (H : AnswerEvaluator._split_into_sentences Scenarios.four_sentences
              <> []) by (vm_compute; discriminate).
  split; [exact H|].
  exact (proj2 (proj2 (find_relevant_sentences_selects
           (Scenarios.evaluator_with Scenarios.rising_embedder) "query"
           Scenarios.four_sentences)) H).
Defined.

(** ** The lexical path: what it returns for every question *)

Section LexicalAnswer.
Import Text Num QAEngine.

Lemma string_length_append (a b : string) :
  String.length (a +:+ b) = String.length a + String.length b.
Proof.
  induction a as [|c a IH]; [reflexivity|].
  rewrite append_cons. simpl. now rewrite IH.
Qed.

Lemma slice_to_length (n : nat) (s : string) :
  String.length (slice_to n s) <= n.
Proof.
  unfold slice_to. revert s.
  induction n as [|n IH]; intros [|c s]; simpl; try lia.
  specialize (IH s). lia.
Qed.

Lemma overlap_ratio_defined (question_words sentence_words : gset string) :
  0 < size (question_words ∩ sentence_words) ->
  is_Some (py_div (size (question_words ∩ sentence_words))
                  (size question_words)).
Proof.
  intros H.
  assert (size (question_words ∩ sentence_words) <= size question_words)
    by apply subseteq_size, intersection_subseteq_l.
  unfold py_div. destruct (size question_words); [lia | eauto].
Qed.

Variable question : string.
Variable chunks : list string.

Lemma score_sentences_entries (chunk : string) (sentences : list string)
    (acc : list (Q * string)) :
  chunk ∈ chunks ->
  Forall (fun s => s ∈ _split_into_sentences chunk) sentences ->
  Forall (scored_entry question chunks) acc ->
  exists scores,
    score_sentences (long_words question) sentences acc = Some scores
    /\ Forall (scored_entry question chunks) scores.
Proof.
  intros Hc. revert acc.
  induction sentences as [|s l IH]; intros acc Hs Hacc; simpl; [eauto|].
  apply Forall_cons in Hs as [Hs Hl].
  unfold score_sentence.
  destruct (0 <? size (long_words question ∩ long_words s))%nat eqn:E0;
    simpl; [|now apply IH].
  apply Nat.ltb_lt, overlap_ratio_defined in E0 as [q E].
  rewrite E. simpl.
  apply IH; [exact Hl|]. apply Forall_app. split; [exact Hacc|].
  repeat constructor; [exists chunk; now split | exact E].
Qed.

Lemma score_chunks_entries (rest : list string) (acc : list (Q * string)) :
  Forall (fun c => c ∈ chunks) rest ->
  Forall (scored_entry question chunks) acc ->
  exists scores,
    score_chunks (long_words question) rest acc = Some scores
    /\ Forall (scored_entry question chunks) scores.
Proof.
  revert acc. induction rest as [|c l IH]; intros acc Hr Hacc; simpl; [eauto|].
  apply Forall_cons in Hr as [Hc Hl].
  destruct (score_sentences_entries c (_split_into_sentences c) acc Hc)
    as (scores & -> & Hs); [now apply Forall_forall | exact Hacc|].
  simpl. now apply IH.
Qed.

Lemma insert_desc_perm (x : Q * string) (l : list (Q * string)) :
  insert_desc x l ≡ₚ x :: l.
Proof.
  induction l as [|y l IH]; simpl; [reflexivity|].
  destruct (tuple_le x y); [|reflexivity].
  rewrite IH. apply Permutation_swap.
Qed.

Lemma sort_reverse_from_perm (l acc : list (Q * string)) :
  foldl (fun acc x => insert_desc x acc) acc l ≡ₚ acc ++ l.
Proof.
  revert acc. induction l as [|x l IH]; intros acc; simpl.
  - now rewrite app_nil_r.
  - rewrite IH, insert_desc_perm. apply Permutation_middle.
Qed.

Lemma sort_reverse_perm (l : list (Q * string)) : sort_reverse l ≡ₚ l.
Proof. unfold sort_reverse. now rewrite sort_reverse_from_perm. Qed.

End LexicalAnswer.

(** X3. The lexical path returns a value for every question and every
    list of chunks (its division never raises): at most 2 evidence
    sentences, each a sentence of one of the chunks that holds more
    than a fifth of the question's long words, and an answer of at most
    303 characters. *)
Theorem fallback_answer_evidence (question : string)
    (chunks : list string) :
  let long_words := QAEngine.long_words in
  let _split_into_sentences := QAEngine._split_into_sentences in
  exists answer evidence,
    QAEngine._generate_fallback_answer question chunks
    = Some (answer, evidence)
    /\ length evidence <= 2
    /\ Forall (fun s =>
                 (exists chunk,
                    chunk ∈ chunks /\ s ∈ _split_into_sentences chunk)
                 /\ size (long_words question)
                    < 5 * size (long_words question ∩ long_words s))
              evidence
    /\ String.length answer <= 303.
Proof.
  cbv zeta. unfold QAEngine._generate_fallback_answer.
  destruct (score_chunks_entries question chunks chunks [])
    as (scores & -> & Hs); [now apply Forall_forall | constructor|].
  simpl.
  set (kept := List.filter (fun x => Num.Qlt_bool (2 # 10) (fst x))
                           (take 2 (QAEngine.sort_reverse scores))).
  assert (Hlen : length (map snd kept) <= 2).
  { rewrite length_map. unfold kept.
    etransitivity; [apply List.filter_length_le|].
    rewrite length_take. lia. }
  assert (Hev : Forall (fun s =>
                 (exists chunk,
                    chunk ∈ chunks
                    /\ s ∈ QAEngine._split_into_sentences chunk)
                 /\ size (QAEngine.long_words question)
                    < 5 * size (QAEngine.long_words question
                                ∩ QAEngine.long_words s))
              (map snd kept)).
  { apply Forall_forall. intros s Hin.
    apply list_elem_of_fmap in Hin as ([q s'] & -> & Hin).
    apply list_elem_of_In, filter_In in Hin as [Hin Hq].
    apply list_elem_of_In, elem_of_take in Hin as (i & Hi & _).
    apply list_elem_of_lookup_2 in Hi. rewrite sort_reverse_perm in Hi.
    rewrite Forall_forall in Hs. destruct (Hs _ Hi) as [Hc Hd].
    split; [exact Hc|]. simpl in *.
    apply Qlt_bool_true in Hq. unfold Num.py_div in Hd.
    destruct (size (QAEngine.long_words question)) as [|n] eqn:En; [discriminate|].
    injection Hd as <-. unfold Qlt in Hq.
    cbn [Qnum Qden] in Hq.
    rewrite <- Pos.of_nat_succ, Zpos_P_of_succ_nat in Hq. lia. }
  destruct (map snd kept) as [|s l] eqn:E.
  - exists QAEngine.could_not_find, []. repeat split; [simpl; lia | constructor|].
    vm_compute. lia.
  - eexists _, _. split; [reflexivity|]. split; [exact Hlen|].
    split; [exact Hev|].
    destruct (300 <? String.length (Text.join " " (s :: l)))%nat eqn:E3.
    + rewrite string_length_append.
      pose proof (slice_to_length 300 (Text.join " " (s :: l))) as Hslice.
      assert (String.length "..." = 3) as -> by reflexivity. lia.
    + apply Nat.ltb_ge in E3. lia.
Qed.


(** ** The span-extractor path: which answer wins *)

Section ExtractorWinner.
Import Text Num QAEngine.

Variable pipeline : Extractor.
Variable question : string.

Lemma qa_step_chosen (done : list string) (st : best) (chunk : string) :
  chosen pipeline question done st ->
  chosen pipeline question (done ++ [chunk])
         (qa_step pipeline question st chunk).
Proof.
  unfold QAEngine.chosen. intros Hinv. unfold qa_step.
  destruct (pipeline question chunk) as [r|] eqn:Er.
  - destruct (Qlt_bool (best_score st) (score r) && truthy (answer r))
      eqn:Etest.
    + apply andb_true_iff in Etest as [Hlt Hans].
      apply Qlt_bool_true in Hlt. right.
      exists done, chunk, [], r. simpl.
      split; [reflexivity|]. split; [exact Er|].
      split; [reflexivity|]. split; [reflexivity|]. split; [exact Hans|].
      destruct Hinv as [(_ & H0 & Hle)|Hw].
      * rewrite H0 in Hlt. split; [exact Hlt|]. split.
        -- intros c' r' Hc' Hr' Ha'. specialize (Hle c' r' Hc' Hr' Ha'). lra.
        -- intros c' r' Hc'. now apply elem_of_nil in Hc'.
      * destruct Hw as (before & c0 & later & r0 & -> & Hr0 & _ & Hs0 & _
                        & Hpos & Hb & Hl).
        split; [lra|]. split.
        -- intros c' r' Hc' Hr' Ha'.
           apply elem_of_app in Hc' as [Hc'|Hc'].
           ++ specialize (Hb c' r' Hc' Hr' Ha'). lra.
           ++ apply elem_of_cons in Hc' as [->|Hc'].
              ** rewrite Hr0 in Hr'. injection Hr' as <-.
                 rewrite Hs0. exact Hlt.
              ** specialize (Hl c' r' Hc' Hr' Ha'). lra.
        -- intros c' r' Hc'. now apply elem_of_nil in Hc'.
    + assert (Hr : truthy (answer r) = true -> (score r <= best_score st)%Q).
      { intros Ha. rewrite Ha, andb_true_r in Etest.
        now apply Qlt_bool_false in Etest. }
      destruct Hinv as [(Ha0 & H0 & Hle)|Hw].
      * left. split; [exact Ha0|]. split; [exact H0|].
        intros c' r' Hc' Hr' Ha'.
        apply elem_of_app in Hc' as [Hc'|Hc']; [now apply (Hle c' r')|].
        apply list_elem_of_singleton in Hc' as ->.
        rewrite Er in Hr'. injection Hr' as <-.
        specialize (Hr Ha'). rewrite H0 in Hr. exact Hr.
      * right.
        destruct Hw as (before & c0 & later & r0 & -> & Hr0 & Ha0 & Hs0 & Ht
                        & Hpos & Hb & Hl).
        exists before, c0, (later ++ [chunk]), r0.
        split; [now rewrite <- app_assoc|].
        repeat (split; [assumption|]).
        intros c' r' Hc' Hr' Ha'.
        apply elem_of_app in Hc' as [Hc'|Hc']; [now apply (Hl c' r')|].
        apply list_elem_of_singleton in Hc' as ->.
        rewrite Er in Hr'. injection Hr' as <-. now apply Hr.
  - destruct Hinv as [(Ha0 & H0 & Hle)|Hw].
    + left. split; [exact Ha0|]. split; [exact H0|].
      intros c' r' Hc' Hr' Ha'.
      apply elem_of_app in Hc' as [Hc'|Hc']; [now apply (Hle c' r')|].
      apply list_elem_of_singleton in Hc' as ->. congruence.
    + right.
      destruct Hw as (before & c0 & later & r0 & -> & Hr0 & Ha0 & Hs0 & Ht
                      & Hpos & Hb & Hl).
      exists before, c0, (later ++ [chunk]), r0.
      split; [now rewrite <- app_assoc|].
      repeat (split; [assumption|]).
      intros c' r' Hc' Hr' Ha'.
      apply elem_of_app in Hc' as [Hc'|Hc']; [now apply (Hl c' r')|].
      apply list_elem_of_singleton in Hc' as ->. congruence.
Qed.

Lemma qa_fold_chosen (rest done : list string) (st : best) :
  chosen pipeline question done st ->
  chosen pipeline question (done ++ rest)
         (foldl (qa_step pipeline question) st rest).
Proof.
  revert done st. induction rest as [|c l IH]; intros done st Hinv; simpl.
  - now rewrite app_nil_r.
  - replace (done ++ c :: l) with ((done ++ [c]) ++ l)
      by now rewrite <- app_assoc.
    apply IH. now apply qa_step_chosen.
Qed.

Lemma qa_loop_chosen (chunks : list string) :
  let st := qa_loop pipeline question chunks in
  (best_answer st = ""
   /\ forall chunk result,
        chunk ∈ chunks -> pipeline question chunk = Some result ->
        truthy (answer result) = true -> (score result <= 0)%Q)
  \/ wins pipeline question chunks (best_answer st) (best_score st).
Proof.
  cbv zeta. unfold qa_loop.
  destruct (qa_fold_chosen chunks []
              {| best_answer := ""; best_score := 0;
                 source_sentences := [] |}) as [(H1 & _ & H2)|H];
    unfold QAEngine.chosen.
  - left. split; [reflexivity|]. split; [reflexivity|].
    intros c r Hc. now apply elem_of_nil in Hc.
  - left. split; [exact H1 | exact H2].
  - now right.
Qed.

End ExtractorWinner.

(** X4. When some chunk gives an answer that is not empty with a
    confidence above 0, [_generate_qa_answer] returns the answer of the
    first chunk of highest confidence among the chunks whose answer is
    not empty: chunks before it are strictly below, chunks after it at
    most equal. *)
Theorem qa_answer_is_first_best (pipeline : QAEngine.Extractor)
    (question : string) (chunks : list string)
    (chunk : string) (result : QAEngine.QAResult) :
  chunk ∈ chunks ->
  pipeline question chunk = Some result ->
  Text.truthy (QAEngine.answer result) = true ->
  (0 < QAEngine.score result)%Q ->
  exists answer confidence evidence,
    QAEngine._generate_qa_answer pipeline question chunks
    = Some (answer, evidence)
    /\ QAEngine.wins pipeline question chunks answer confidence.
Proof.
  intros Hc Hr Ha Hpos. unfold QAEngine._generate_qa_answer.
  destruct (qa_loop_chosen pipeline question chunks) as [[_ Hle]|Hw].
  - specialize (Hle chunk result Hc Hr Ha). lra.
  - pose proof Hw as (_ & _ & _ & _ & _ & _ & _ & _ & Ht & _).
    rewrite Ht. eauto.
Qed.

Lemma qa_answer_is_first_best_witness :
  exists answer confidence evidence,
    QAEngine._generate_qa_answer Scenarios.two_answers "What color is it?"
      Scenarios.mat_and_sky
    = Some (answer, evidence)
    /\ QAEngine.wins Scenarios.two_answers "What color is it?"
         Scenarios.mat_and_sky answer confidence.
Proof.
  apply (qa_answer_is_first_best Scenarios.two_answers "What color is it?"
           Scenarios.mat_and_sky "The sky is blue today."
           {| QAEngine.score := 9 # 10; QAEngine.start := 11;
              QAEngine.end_ := 15; QAEngine.answer := "blue" |}).
  - apply list_elem_of_In. simpl. auto.
  - reflexivity.
  - reflexivity.
  - reflexivity.
Defined.

(** ** The chunker *)

Section ChunkerFacts.
Import Text QAEngine.

(** A stripped string is empty or starts with a character that is not
    blank. *)
Lemma lstrip_head (s : string) :
  lstrip s = "" \/ exists c r, lstrip s = String c r /\ is_space c = false.
Proof.
  induction s as [|c s IH]; [now left|]. simpl.
  destruct (is_space c) eqn:E; [exact IH|]. right. eauto.
Qed.

Lemma strip_head (s : string) :
  strip s = "" \/ exists c r, strip s = String c r /\ is_space c = false.
Proof.
  unfold strip. destruct (lstrip_head s) as [->|(c & r & -> & Hc)];
    [now left|].
  simpl. destruct (rstrip r) as [|d r'].
  - rewrite Hc. right. eauto.
  - right. eauto.
Qed.

Lemma strip_of_nonblank_head (c : ascii) (r : string) :
  is_space c = false -> truthy (strip (String c r)) = true.
Proof.
  intros Hc. unfold strip. simpl. rewrite Hc. simpl.
  destruct (rstrip r); [now rewrite Hc | reflexivity].
Qed.

Lemma sentence_head (text s : string) :
  s ∈ _split_into_sentences text ->
  exists c r, s = String c r /\ is_space c = false.
Proof.
  unfold _split_into_sentences, Segmenter._split_into_sentences.
  intros Hs. apply list_elem_of_fmap in Hs as (y & -> & Hy).
  apply list_elem_of_In, filter_In in Hy as [_ Hy].
  apply andb_true_iff in Hy as [Hy _].
  destruct (strip_head y) as [E|H]; [now rewrite E in Hy | exact H].
Qed.

Lemma join_head (sep : string) (c : ascii) (r : string) (l : list string) :
  exists r', join sep (String c r :: l) = String c r'.
Proof.
  unfold join. simpl. destruct l; [eauto|].
  rewrite append_cons. eauto.
Qed.

Lemma join_holds (sep s : string) (l : list string) :
  s ∈ l -> substring_of s (join sep l).
Proof.
  unfold join. induction l as [|x l IH]; intros Hs.
  - now apply elem_of_nil in Hs.
  - apply elem_of_cons in Hs as [->|Hs].
    + simpl. destruct l as [|y l'].
      * exists "", "". now rewrite append_empty_l, append_empty_r.
      * exists "", (sep +:+ String.concat sep (y :: l')). reflexivity.
    + destruct (IH Hs) as (a & b & E). simpl.
      destruct l as [|y l]; [now apply elem_of_nil in Hs|].
      exists (x +:+ sep +:+ a), b. rewrite E.
      now rewrite !append_assoc.
Qed.

Lemma range_step_bound (n i : nat) :
  i ∈ range_step n 250 -> i < n.
Proof.
  unfold range_step. intros Hi.
  apply list_elem_of_fmap in Hi as (k & -> & Hk).
  apply list_elem_of_In, in_seq in Hk.
  assert (H : k < (n + 250 - 1) / 250) by lia.
  assert (Hle : S k <= (n + 250 - 1) / 250) by lia.
  assert (Hm : 250 * ((n + 250 - 1) / 250) <= n + 250 - 1)
    by (apply Nat.Div0.mul_div_le).
  nia.
Qed.

Lemma range_step_start (n j : nat) :
  j < n -> (j / 250) * 250 ∈ range_step n 250.
Proof.
  intros Hj. unfold range_step.
  apply list_elem_of_fmap. exists (j / 250). split; [reflexivity|].
  apply list_elem_of_In, in_seq. split; [lia|]. rewrite Nat.add_0_l.
  apply Nat.Div0.div_lt_upper_bound.
  assert (H2 : n + 250 - 1 < 250 * S ((n + 250 - 1) / 250))
    by (apply Nat.mul_succ_div_gt; lia).
  lia.
Qed.

Lemma block_start (j : nat) : (j / 250) * 250 <= j < (j / 250) * 250 + 250.
Proof.
  pose proof (Nat.Div0.mul_div_le j 250).
  assert (j < 250 * S (j / 250)) by (apply Nat.mul_succ_div_gt; lia).
  lia.
Qed.

(** No chunk is dropped: a window that starts inside the list of
    sentences begins with a character that is not blank. *)
Lemma chunks_all_kept (text : string) :
  _split_document_into_chunks text
  = map (fun i => join " " (take 500 (drop i (_split_into_sentences text))))
        (range_step (length (_split_into_sentences text)) 250).
Proof.
  unfold _split_document_into_chunks.
  change (500 / 2) with 250.
  set (sentences := _split_into_sentences text).
  set (window := fun i => join " " (take 500 (drop i sentences))).
  assert (H : Forall (fun i => i < length sentences)
                     (range_step (length sentences) 250)).
  { apply Forall_forall. intros i. apply range_step_bound. }
  induction (range_step (length sentences) 250) as [|i l IH];
    [reflexivity|].
  apply Forall_cons in H as [Hi Hl]. simpl.
  replace (truthy (strip (window i))) with true; [now rewrite IH|].
  symmetry. unfold window.
  destruct (drop i sentences) as [|s rest] eqn:E.
  { apply (f_equal length) in E. rewrite length_drop in E. simpl in E. lia. }
  assert (Hs : s ∈ sentences).
  { apply (list_elem_of_lookup_2 _ i). rewrite <- (Nat.add_0_r i).
    rewrite <- lookup_drop, E. reflexivity. }
  destruct (sentence_head text s Hs) as (c & r & -> & Hc).
  change (take 500 (String c r :: rest)) with (String c r :: take 499 rest).
  destruct (join_head " " c r (take 499 rest)) as [r' ->].
  now apply strip_of_nonblank_head.
Qed.

End ChunkerFacts.

(** X5. The chunker drops no window and covers every sentence: the
    number of chunks is the number of sentences divided by 250, rounded
    up, and every sentence of the document is a substring of some
    chunk. *)
Theorem chunks_cover_sentences (text : string) :
  let sentences := QAEngine._split_into_sentences text in
  let chunks := QAEngine._split_document_into_chunks text in
  length chunks = (length sentences + 249) / 250
  /\ Forall (fun s => exists chunk, chunk ∈ chunks /\ Text.substring_of s chunk)
            sentences.
Proof.
  cbv zeta. rewrite chunks_all_kept. split.
  - rewrite length_map. unfold QAEngine.range_step.
    rewrite length_map, length_seq. f_equal. lia.
  - apply Forall_forall. intros s Hs.
    apply list_elem_of_lookup in Hs as [j Hj].
    pose proof (lookup_lt_Some _ _ _ Hj) as Hlt.
    pose proof (block_start j) as [H1 H2].
    exists (Text.join " "
              (take 500 (drop ((j / 250) * 250)
                              (QAEngine._split_into_sentences text)))).
    split.
    + apply list_elem_of_fmap. exists ((j / 250) * 250).
      split; [reflexivity | now apply range_step_start].
    + apply join_holds.
      apply (list_elem_of_lookup_2 _ (j - (j / 250) * 250)).
      rewrite lookup_take_lt by lia. rewrite lookup_drop.
      replace ((j / 250) * 250 + (j - (j / 250) * 250)) with j by lia.
      exact Hj.
Qed.

(** ** The reference locator and [answer_question] *)

Section ReferenceFacts.
Import Text QAEngine.

Lemma prefix_append (s post : string) : String.prefix s (s +:+ post) = true.
Proof.
  induction s as [|c s IH]; [now destruct post|].
  rewrite append_cons. simpl. now destruct (ascii_dec c c).
Qed.

Lemma str_find_prefix (s hay : string) :
  String.prefix s hay = true -> str_find s hay = Some 0.
Proof. intros H. destruct hay; cbn [str_find]; now rewrite H. Qed.

(** [find] finds what occurs. *)
Lemma str_find_occurrence (s pre post : string) :
  is_Some (str_find s (pre +:+ (s +:+ post))).
Proof.
  induction pre as [|c pre [i IH]].
  - rewrite append_empty_l, str_find_prefix; [eauto | apply prefix_append].
  - rewrite append_cons. cbn [str_find].
    destruct (String.prefix s (String c (pre +:+ (s +:+ post)))); [eauto|].
    rewrite IH. simpl. eauto.
Qed.

Lemma split_blank_lines_length (s : string) :
  1 <= length (split_blank_lines s).
Proof.
  unfold split_blank_lines.
  destruct (split_blank_lines_from s). simpl. lia.
Qed.

(** the two shapes of a citation *)
Lemma reference_for_shape (document_text sentence : string) :
  match str_find sentence document_text with
  | None => reference_for document_text sentence = "Based on document content"
  | Some _ =>
      exists paragraph number,
        1 <= paragraph /\ 1 <= number
        /\ reference_for document_text sentence
           = "Based on paragraph " +:+ pretty paragraph
             +:+ ", sentence " +:+ pretty number
  end.
Proof.
  unfold reference_for.
  destruct (str_find sentence document_text) as [pos|]; [|reflexivity].
  eexists _, _. split; [apply split_blank_lines_length|].
  split; [|reflexivity]. lia.
Qed.

End ReferenceFacts.

(** X6. A sentence that occurs verbatim in the document is always
    located: its citation names a paragraph and a sentence, both
    numbered from 1, and is never the generic one. *)
Theorem reference_of_verbatim_sentence (document_text sentence : string) :
  Text.substring_of sentence document_text ->
  exists paragraph number,
    1 <= paragraph /\ 1 <= number
    /\ QAEngine._generate_references [sentence] document_text
       = ["Based on paragraph " +:+ pretty paragraph
          +:+ ", sentence " +:+ pretty number].
Proof.
  intros (pre & post & ->).
  pose proof (reference_for_shape (pre +:+ (sentence +:+ post)) sentence) as H.
  destruct (str_find_occurrence sentence pre post) as [i Hi].
  rewrite Hi in H. destruct H as (p & n & Hp & Hn & E).
  exists p, n. split; [exact Hp|]. split; [exact Hn|].
  unfold QAEngine._generate_references. simpl. now rewrite E.
Qed.

Lemma reference_of_verbatim_sentence_witness :
  Text.substring_of "The mat was red." Scenarios.cat_document
  /\ exists paragraph number,
       1 <= paragraph /\ 1 <= number
       /\ QAEngine._generate_references ["The mat was red."]
            Scenarios.cat_document
          = ["Based on paragraph " +:+ pretty paragraph
             +:+ ", sentence " +:+ pretty number].
Proof.
  assert (H : Text.substring_of "The mat was red." Scenarios.cat_document).
  { exists "The cat sat on the mat. ", " Cats like red mats.". reflexivity. }
  split; [exact H|].
  exact (reference_of_verbatim_sentence Scenarios.cat_document
           "The mat was red." H).
Defined.

(** X7. For every engine, question and document, [answer_question]
    returns one citation for each evidence sentence, and each citation
    is the generic one or names a paragraph and a sentence numbered
    from 1. *)
Theorem answer_question_cites_each_source (self : QAEngine.t)
    (question document_text : string) :
  let result := QAEngine.answer_question self question document_text in
  let references := snd (fst result) in
  let source_sentences := snd result in
  length references = length source_sentences
  /\ Forall (fun reference =>
               reference = "Based on document content"
               \/ exists paragraph number,
                    1 <= paragraph /\ 1 <= number
                    /\ reference
                       = "Based on paragraph " +:+ pretty paragraph
                         +:+ ", sentence " +:+ pretty number)
            references.
Proof.
  cbv zeta. unfold QAEngine.answer_question.
  destruct (negb (Text.truthy question) || negb (Text.truthy document_text));
    [split; [reflexivity | constructor]|].
  unfold QAEngine.answer_body.
  destruct (QAEngine._split_document_into_chunks document_text) as [|c l];
    [split; [reflexivity | constructor]|].
  destruct (QAEngine._find_relevant_chunks self question (c :: l))
    as [|r rs]; [split; [reflexivity | constructor]|].
  destruct (match QAEngine.qa_pipeline self with
            | Some pipeline =>
                QAEngine._generate_qa_answer pipeline question (r :: rs)
            | None => QAEngine._generate_fallback_answer question (r :: rs)
            end) as [[answer sources]|];
    [|split; [reflexivity | constructor]].
  cbn [mbind option_bind fst snd].
  split; [apply length_map|].
  apply Forall_forall. intros ref Href.
  apply list_elem_of_fmap in Href as (s & -> & _).
  pose proof (reference_for_shape document_text s) as H.
  destruct (Text.str_find s document_text); [now right | now left].
Qed.

(** ** The evaluator: ranges of the signals and of the result *)

Section EvaluatorRanges.
Import Text Num AnswerEvaluator.

Lemma py_min_unit (x : Q) : (0 <= x)%Q -> (0 <= py_min x 1 <= 1)%Q.
Proof.
  intros H. unfold py_min.
  destruct (Qlt_bool 1 x) eqn:E.
  - split; discriminate.
  - apply Qlt_bool_false in E. now split.
Qed.

Lemma clamp_unit (x : Q) : (0 <= py_min (py_max x 0) 1 <= 1)%Q.
Proof.
  apply py_min_unit. unfold py_max.
  destruct (Qlt_bool x 0) eqn:E; [discriminate|].
  now apply Qlt_bool_false in E.
Qed.

(** a ratio of two sizes, when the divisor is not 0 *)
Lemma py_div_ratio (a b : nat) :
  b <> 0 -> exists q, py_div a b = Some q /\ (0 <= q)%Q.
Proof.
  intros Hb. unfold py_div. destruct b as [|b]; [lia|].
  eexists. split; [reflexivity|].
  unfold Qle. simpl. lia.
Qed.

Lemma keyword_overlap_unit (self : t) (user_answer : string)
    (expected_concepts : list string) (document_text : string) :
  exists k,
    _calculate_keyword_overlap self user_answer expected_concepts
                               document_text = Some k
    /\ (0 <= k <= 1)%Q.
Proof.
  unfold _calculate_keyword_overlap.
  destruct expected_concepts as [|c l].
  { eexists. split; [reflexivity | split; discriminate]. }
  set (concept_words := foldl _ _ _).
  destruct (decide (concept_words = ∅)) as [E|E].
  { eexists. split; [reflexivity | split; discriminate]. }
  destruct (py_div_ratio
              (size (significant_words self user_answer ∩ concept_words))
              (size concept_words)) as (q & -> & Hq).
  { intros H. now apply size_empty_iff, leibniz_equiv in H. }
  simpl. eexists. split; [reflexivity | now apply py_min_unit].
Qed.

Lemma content_relevance_unit (self : t) (user_answer : string)
    (relevant_sentences : list string) :
  exists c,
    _calculate_content_relevance self user_answer relevant_sentences = Some c
    /\ (0 <= c <= 1)%Q.
Proof.
  unfold _calculate_content_relevance.
  destruct relevant_sentences as [|s l].
  { eexists. split; [reflexivity | split; discriminate]. }
  destruct (decide (significant_words self user_answer = ∅)) as [E|E].
  { eexists. split; [reflexivity | split; discriminate]. }
  set (sentence_words := foldl _ _ _).
  destruct (decide (sentence_words = ∅)) as [E'|E'].
  { eexists. split; [reflexivity | split; discriminate]. }
  destruct (py_div_ratio
              (size (significant_words self user_answer ∩ sentence_words))
              (size (significant_words self user_answer))) as (q & -> & Hq).
  { intros H. now apply size_empty_iff, leibniz_equiv in H. }
  simpl. eexists. split; [reflexivity | now apply py_min_unit].
Qed.

End EvaluatorRanges.

(** X8. The keyword and content signals never raise (their divisions
    are guarded) and always lie in [[0,1]], for every evaluator, answer,
    list of concepts and list of sentences. *)
Theorem keyword_and_content_signals_in_unit_interval
    (self : AnswerEvaluator.t) (user_answer document_text : string)
    (expected_concepts relevant_sentences : list string) :
  exists keyword content,
    AnswerEvaluator._calculate_keyword_overlap self user_answer
      expected_concepts document_text = Some keyword
    /\ AnswerEvaluator._calculate_content_relevance self user_answer
         relevant_sentences = Some content
    /\ (0 <= keyword <= 1)%Q /\ (0 <= content <= 1)%Q.
Proof.
  destruct (keyword_overlap_unit self user_answer expected_concepts
              document_text) as (k & Hk & Hk').
  destruct (content_relevance_unit self user_answer relevant_sentences)
    as (c & Hc & Hc').
  exists k, c. tauto.
Qed.

Section RoundingFacts.
Import Num AnswerEvaluator.

(** Rounding to the nearest integer stays between two integers that
    bound the number. *)
Lemma round_half_even_between (lo hi : Z) (x : Q) :
  (inject_Z lo <= x <= inject_Z hi)%Q ->
  (lo <= round_half_even x <= hi)%Z.
Proof.
  intros [Hlo Hhi]. unfold round_half_even.
  pose proof (Qfloor_le x) as Hf.
  pose proof (Qlt_floor x) as Hf'.
  assert (Hlf : (lo <= Qfloor x)%Z).
  { rewrite <- (Qfloor_Z lo). now apply Qfloor_resp_le. }
  assert (Hfh : (Qfloor x <= hi)%Z).
  { rewrite <- (Qfloor_Z hi). now apply Qfloor_resp_le. }
  assert (Hup : (1 # 2 <= x - inject_Z (Qfloor x))%Q ->
                (Qfloor x + 1 <= hi)%Z).
  { intros Hr.
    assert (Hlt : (inject_Z (Qfloor x) < inject_Z hi)%Q) by lra.
    rewrite <- Zlt_Qlt in Hlt. lia. }
  destruct (Qlt_bool (x - inject_Z (Qfloor x)) (1 # 2)) eqn:E1; [lia|].
  apply Qlt_bool_false in E1. specialize (Hup E1).
  destruct (Qlt_bool (1 # 2) (x - inject_Z (Qfloor x))); [lia|].
  destruct (Z.even (Qfloor x)); lia.
Qed.

Lemma py_round_between (x : Q) (ndigits : nat) (hi : Z) :
  (0 <= x <= inject_Z hi)%Q ->
  (0 <= py_round x ndigits <= inject_Z hi)%Q.
Proof.
  intros [H0 H1]. unfold py_round.
  set (scale := (10 ^ Z.of_nat ndigits)%Z).
  assert (Hs : (0 < scale)%Z) by (apply Z.pow_pos_nonneg; lia).
  assert (Hsq : (0 < inject_Z scale)%Q)
    by (change (inject_Z 0 < inject_Z scale)%Q;
        rewrite <- Zlt_Qlt; exact Hs).
  destruct (round_half_even_between 0 (hi * scale) (x * inject_Z scale))
    as [Ha Hb].
  { rewrite inject_Z_mult. split.
    - change (inject_Z 0) with 0%Q. nra.
    - nra. }
  rewrite Zle_Qle in Ha, Hb. rewrite inject_Z_mult in Hb.
  change (inject_Z 0) with 0%Q in Ha.
  split.
  - apply Qle_shift_div_l; [exact Hsq | lra].
  - apply Qle_shift_div_r; [exact Hsq | lra].
Qed.

Lemma create_evaluation_range (score : Q) (feedback analysis : string) :
  (0 <= score <= 1)%Q ->
  let evaluation := _create_evaluation score feedback analysis in
  (0 <= AnswerEvaluator.score evaluation <= 1)%Q
  /\ (0 <= percentage evaluation <= 100)%Q.
Proof.
  intros [H0 H1]. simpl. split.
  - apply (py_round_between score 2 1). now split.
  - apply (py_round_between (score * 100) 1 100).
    change (inject_Z 100) with 100%Q. split; lra.
Qed.

End RoundingFacts.

(** X9. For every evaluator (whatever its embedder returns), question,
    answer and document, [evaluate_answer] returns a score in [[0,1]] and
    a percentage in [[0,100]]. *)
Theorem evaluate_answer_score_range (self : AnswerEvaluator.t)
    (question : AnswerEvaluator.Question)
    (user_answer document_text : string) :
  let evaluation :=
    AnswerEvaluator.evaluate_answer self question user_answer document_text in
  (0 <= AnswerEvaluator.score evaluation <= 1)%Q
  /\ (0 <= AnswerEvaluator.percentage evaluation <= 100)%Q.
Proof.
  cbv zeta. unfold AnswerEvaluator.evaluate_answer.
  assert (Hhalf : (0 <= 5 # 10 <= 1)%Q) by (split; discriminate).
  assert (Hzero : (0 <= 0 <= 1)%Q) by (split; discriminate).
  destruct (negb (Text.truthy user_answer)
            || negb (AnswerEvaluator.dict_truthy question));
    [now apply create_evaluation_range|].
  destruct (AnswerEvaluator.evaluate_body self question user_answer
              document_text) as [evaluation|] eqn:E;
    [|now apply create_evaluation_range].
  unfold AnswerEvaluator.evaluate_body in E.
  destruct (AnswerEvaluator.q_question question) as [text|];
    [|discriminate].
  cbn [mbind option_bind] in E.
  destruct (AnswerEvaluator._find_relevant_sentences self text document_text)
    as [|s l].
  { injection E as <-. now apply create_evaluation_range. }
  destruct (AnswerEvaluator._calculate_keyword_overlap self user_answer
              (default [] (AnswerEvaluator.q_concepts question))
              document_text) as [k|]; [|discriminate].
  cbn [mbind option_bind] in E.
  destruct (AnswerEvaluator._calculate_content_relevance self user_answer
              (s :: l)) as [c|]; [|discriminate].
  cbn [mbind option_bind] in E.
  injection E as <-. apply create_evaluation_range.
  unfold AnswerEvaluator._combine_scores. apply clamp_unit.
Qed.

(** ** The evaluator: degraded results *)

Lemma find_relevant_sentences_none (self : AnswerEvaluator.t)
    (question document_text : string) :
  AnswerEvaluator._split_into_sentences document_text = [] ->
  AnswerEvaluator._find_relevant_sentences self question document_text = [].
Proof.
  intros H. unfold AnswerEvaluator._find_relevant_sentences. rewrite H.
  destruct (AnswerEvaluator.embedder self); reflexivity.
Qed.

(** X10. With an answer and a question dict that are not empty:
    a question dict without the key [question] gives the evaluation
    [Evaluation error], and a document without a sentence of more than
    10 characters gives [Limited context available], whatever the
    embedder; both have the score 0.5 and the grade C+. *)
Theorem evaluate_answer_degraded (self : AnswerEvaluator.t)
    (question : AnswerEvaluator.Question)
    (user_answer document_text : string) :
  Text.truthy user_answer = true ->
  AnswerEvaluator.dict_truthy question = true ->
  let evaluation :=
    AnswerEvaluator.evaluate_answer self question user_answer document_text in
  (AnswerEvaluator.q_question question = None ->
   AnswerEvaluator.feedback evaluation = "Evaluation error"
   /\ (AnswerEvaluator.score evaluation == 5 # 10)%Q
   /\ AnswerEvaluator.grade evaluation = "C+")
  /\ (AnswerEvaluator.q_question question <> None ->
      AnswerEvaluator._split_into_sentences document_text = [] ->
      AnswerEvaluator.feedback evaluation = "Limited context available"
      /\ (AnswerEvaluator.score evaluation == 5 # 10)%Q
      /\ AnswerEvaluator.grade evaluation = "C+").
Proof.
  intros Ha Hq. cbv zeta. unfold AnswerEvaluator.evaluate_answer.
  rewrite Ha, Hq. simpl. unfold AnswerEvaluator.evaluate_body. split.
  - intros ->. simpl. repeat split.
  - intros Hk Hs. destruct (AnswerEvaluator.q_question question) as [text|];
      [|congruence].
    cbn [mbind option_bind].
    rewrite (find_relevant_sentences_none self text document_text Hs).
    repeat split.
Qed.

Lemma evaluate_answer_degraded_witness :
  AnswerEvaluator.feedback
    (AnswerEvaluator.evaluate_answer
       (Scenarios.evaluator_with Scenarios.rising_embedder)
       Scenarios.climate_question "An answer." "Too short.")
  = "Limited context available".
Proof.
  assert (Ha : Text.truthy "An answer." = true) by reflexivity.
  assert (Hq : AnswerEvaluator.dict_truthy Scenarios.climate_question = true)
    by reflexivity.
  assert (Hk : AnswerEvaluator.q_question Scenarios.climate_question <> None)
    by discriminate.
  assert (Hs : AnswerEvaluator._split_into_sentences "Too short." = [])
    by reflexivity.
  exact (proj1 (proj2 (evaluate_answer_degraded
           (Scenarios.evaluator_with Scenarios.rising_embedder)
           Scenarios.climate_question "An answer." "Too short." Ha Hq)
           Hk Hs)).
Defined.

(** ** The evaluator: feedback, grade and keyword score *)

(** X11. The feedback text and the letter grade of a score agree:
    "Excellent" goes with A+ or A, "Good" with B+ or B, "Fair" with C+
    or C, and the two lowest texts with D or F. *)
Theorem feedback_agrees_with_grade (overall semantic keyword content : Q)
    (user_answer : string) :
  let feedback :=
    AnswerEvaluator._generate_feedback overall semantic keyword content
                                       user_answer in
  let rank := AnswerEvaluator.grade_rank (AnswerEvaluator._get_grade overall) in
  (6 <= rank /\ Text.contains "Excellent answer!" feedback = true)
  \/ (4 <= rank <= 5 /\ Text.contains "Good answer!" feedback = true)
  \/ (2 <= rank <= 3 /\ Text.contains "Fair answer." feedback = true)
  \/ (rank <= 1
      /\ (Text.contains "needs improvement" feedback = true
          \/ Text.contains "doesn't seem to address" feedback = true)).
Proof.
  cbv zeta.
  unfold AnswerEvaluator._generate_feedback, AnswerEvaluator._get_grade.
  repeat match goal with
         | |- context [Qle_bool ?a ?b] =>
             let E := fresh "E" in
             destruct (Qle_bool a b) eqn:E;
             [apply Qle_bool_iff in E | apply Qle_bool_false in E]
         end;
    try (exfalso; lra);
    vm_compute; intuition lia.
Qed.

Section KeywordFacts.
Import Text Num AnswerEvaluator.

Lemma concept_words_member (concepts : list string) (acc : gset string)
    (concept w : string) :
  concept ∈ concepts -> w ∈ findall_words (lower concept) ->
  w ∈ foldl (fun acc concept =>
               acc ∪ list_to_set (findall_words (lower concept)))
            acc concepts.
Proof.
  revert acc. induction concepts as [|c l IH]; intros acc Hc Hw.
  - now apply elem_of_nil in Hc.
  - simpl. apply elem_of_cons in Hc as [<-|Hc]; [|now apply IH].
    assert (Hin : w ∈ acc ∪ list_to_set (findall_words (lower concept)))
      by (apply elem_of_union_r, elem_of_list_to_set, Hw).
    clear IH Hw. revert Hin.
    generalize (acc ∪ list_to_set (findall_words (lower concept))).
    induction l as [|c l IH]; intros acc' Hin; [exact Hin|].
    simpl. apply IH. now apply elem_of_union_l.
Qed.

End KeywordFacts.

(** X12. The words of the answer are filtered (stop words and words of
    at most 3 characters are dropped) and the words of the expected
    concepts are not: when a concept holds such a word, the keyword
    score is below 1 whatever the answer. *)
Theorem keyword_score_below_one (self : AnswerEvaluator.t)
    (user_answer document_text : string) (expected_concepts : list string)
    (concept w : string) :
  concept ∈ expected_concepts ->
  w ∈ Text.findall_words (Text.lower concept) ->
  String.length w <= 3 \/ w ∈ AnswerEvaluator.stop_words self ->
  exists keyword,
    AnswerEvaluator._calculate_keyword_overlap self user_answer
      expected_concepts document_text = Some keyword
    /\ (keyword < 1)%Q.
Proof.
  intros Hc Hw Hshort. unfold AnswerEvaluator._calculate_keyword_overlap.
  destruct expected_concepts as [|c l]; [now apply elem_of_nil in Hc|].
  pose proof (concept_words_member (c :: l) ∅ concept w Hc Hw) as Hin.
  set (concept_words := foldl _ _ _) in *.
  destruct (decide (concept_words = ∅)) as [E|E].
  { rewrite E in Hin. now apply not_elem_of_empty in Hin. }
  set (answer_words := AnswerEvaluator.significant_words self user_answer).
  assert (Hlt : size (answer_words ∩ concept_words) < size concept_words).
  { apply subset_size. split; [apply intersection_subseteq_r|].
    intros Hsub. specialize (Hsub w Hin).
    apply elem_of_intersection in Hsub as [Hsub _].
    unfold answer_words, AnswerEvaluator.significant_words in Hsub.
    apply elem_of_filter in Hsub as [[Hstop Hlen] _].
    destruct Hshort; [lia | contradiction]. }
  unfold Num.py_div.
  destruct (size concept_words) as [|n] eqn:En; [lia|].
  simpl. eexists. split; [reflexivity|].
  assert (Hq : (Z.of_nat (size (answer_words ∩ concept_words))
                # Pos.of_nat (S n) < 1)%Q).
  { unfold Qlt. cbn [Qnum Qden].
    rewrite <- Pos.of_nat_succ, Zpos_P_of_succ_nat. lia. }
  unfold Num.py_min.
  destruct (Num.Qlt_bool 1 _) eqn:E1; [|exact Hq].
  apply Qlt_bool_true in E1. lra.
Qed.

Lemma keyword_score_below_one_witness :
  exists keyword,
    AnswerEvaluator._calculate_keyword_overlap Scenarios.bare_evaluator
      "The key points are arguments" ["key points"; "arguments"]
      Scenarios.cat_document = Some keyword
    /\ (keyword < 1)%Q.
Proof.
  apply (keyword_score_below_one Scenarios.bare_evaluator
           "The key points are arguments" Scenarios.cat_document
           ["key points"; "arguments"] "key points" "key").
  - apply list_elem_of_In. simpl. auto.
  - apply list_elem_of_In. vm_compute. auto.
  - left. simpl. lia.
Defined.

(** ** The concept extractor *)

Section ConceptFacts.
Import Text ChallengeGenerator.

(** The counter dict after the words [seen]: its keys are the words
    seen, each once, with the number of times it was seen. *)
Lemma count_word_keys (word : string) (word_freq : list (string * nat)) :
  forall w, w ∈ map fst (count_word word word_freq)
            <-> w = word \/ w ∈ map fst word_freq.
Proof.
  induction word_freq as [|[k n] l IH]; intros w; simpl.
  - rewrite list_elem_of_singleton, elem_of_nil. tauto.
  - destruct (String.eqb_spec k word) as [->|Hne]; simpl.
    + rewrite !elem_of_cons. tauto.
    + rewrite !elem_of_cons, IH. tauto.
Qed.

Lemma count_word_nodup (word : string) (word_freq : list (string * nat)) :
  NoDup (map fst word_freq) -> NoDup (map fst (count_word word word_freq)).
Proof.
  induction word_freq as [|[k n] l IH]; intros Hnd; simpl.
  - repeat constructor. apply not_elem_of_nil.
  - apply NoDup_cons in Hnd as [Hk Hl].
    destruct (String.eqb_spec k word) as [->|Hne]; simpl.
    + now apply NoDup_cons.
    + apply NoDup_cons. split; [|now apply IH].
      rewrite count_word_keys. intros [->|H]; [congruence | contradiction].
Qed.

Lemma count_word_entry (word : string) (word_freq : list (string * nat)) :
  NoDup (map fst word_freq) ->
  forall w n, (w, n) ∈ count_word word word_freq ->
    (w <> word /\ (w, n) ∈ word_freq)
    \/ (w = word /\ exists m, (word, m) ∈ word_freq /\ n = m + 1)
    \/ (w = word /\ (word ∉ map fst word_freq) /\ n = 1).
Proof.
  induction word_freq as [|[k m] l IH]; intros Hnd w n Hin; simpl in Hin.
  - apply list_elem_of_singleton in Hin. injection Hin as -> ->.
    right. right. split; [reflexivity|]. split; [apply not_elem_of_nil|].
    reflexivity.
  - simpl in Hnd. apply NoDup_cons in Hnd as [Hk Hl].
    destruct (String.eqb_spec k word) as [->|Hne].
    + apply elem_of_cons in Hin as [Hin|Hin].
      * injection Hin as -> ->. right. left. split; [reflexivity|].
        exists m. split; [left | reflexivity].
      * left. split; [|now right].
        intros ->. apply Hk. apply list_elem_of_fmap. now exists (word, n).
    + apply elem_of_cons in Hin as [Hin|Hin].
      * injection Hin as -> ->. left. split; [exact Hne | left].
      * destruct (IH Hl w n Hin) as [[H1 H2]|[[-> (m' & H1 & H2)]|[-> [H1 H2]]]].
        -- left. split; [exact H1 | now right].
        -- right. left. split; [reflexivity|]. exists m'.
           split; [now right | exact H2].
        -- right. right. split; [reflexivity|]. split; [|exact H2].
           simpl. rewrite elem_of_cons. intros [E|E]; [congruence | contradiction].
Qed.

(** what the dict holds after the words [seen] *)
Lemma word_freq_counts (words seen : list string)
    (word_freq : list (string * nat)) :
  NoDup (map fst word_freq) ->
  (forall w n, (w, n) ∈ word_freq -> n = count_occ string_dec seen w) ->
  (forall w, w ∈ seen -> w ∈ map fst word_freq) ->
  let final := foldl (fun acc word => count_word word acc) word_freq words in
  NoDup (map fst final)
  /\ forall w n, (w, n) ∈ final ->
                 n = count_occ string_dec (seen ++ words) w.
Proof.
  revert seen word_freq.
  induction words as [|word words IH]; intros seen wf Hnd Hcount Hkeys.
  - simpl. rewrite app_nil_r. now split.
  - simpl. replace (seen ++ word :: words) with ((seen ++ [word]) ++ words)
      by now rewrite <- app_assoc.
    apply IH.
    + now apply count_word_nodup.
    + intros w n Hin. rewrite count_occ_app. simpl.
      destruct (count_word_entry word wf Hnd w n Hin)
        as [[H1 H2]|[[-> (m & H1 & H2)]|[-> [H1 H2]]]].
      * rewrite (Hcount w n H2).
        destruct (string_dec word w); [congruence | lia].
      * rewrite (Hcount word m H1) in H2.
        destruct (string_dec word word); [lia | congruence].
      * destruct (string_dec word word); [|congruence].
        assert (count_occ string_dec seen word = 0); [|lia].
        apply count_occ_not_In. intros Hw. now apply list_elem_of_In, Hkeys in Hw.
    + intros w Hw. rewrite count_word_keys.
      apply elem_of_app in Hw as [Hw|Hw]; [right; now apply Hkeys|].
      apply list_elem_of_singleton in Hw. now left.
Qed.

Lemma insert_by_count_perm (x : string * nat) (l : list (string * nat)) :
  insert_by_count x l ≡ₚ x :: l.
Proof.
  induction l as [|y l IH]; simpl; [reflexivity|].
  destruct (snd x <=? snd y)%nat; [|reflexivity].
  rewrite IH. apply Permutation_swap.
Qed.

Lemma sorted_by_count_from_perm (l acc : list (string * nat)) :
  foldl (fun acc x => insert_by_count x acc) acc l ≡ₚ acc ++ l.
Proof.
  revert acc. induction l as [|x l IH]; intros acc; simpl.
  - now rewrite app_nil_r.
  - rewrite IH, insert_by_count_perm. apply Permutation_middle.
Qed.

Lemma sorted_by_count_perm (l : list (string * nat)) :
  sorted_by_count l ≡ₚ l.
Proof. unfold sorted_by_count. now rewrite sorted_by_count_from_perm. Qed.

Lemma count_occ_filter (keep : string -> bool) (l : list string) (w : string) :
  keep w = true ->
  count_occ string_dec (List.filter keep l) w = count_occ string_dec l w.
Proof.
  intros Hw. induction l as [|x l IH]; [reflexivity|]. simpl.
  destruct (keep x) eqn:E; simpl.
  - now rewrite IH.
  - destruct (string_dec x w) as [->|Hne]; [congruence | exact IH].
Qed.

Lemma list_filter_sublist (A : Type) (f : A -> bool) (l : list A) :
  List.filter f l `sublist_of` l.
Proof.
  induction l as [|x l IH]; simpl; [constructor|].
  destruct (f x); now constructor.
Qed.

Lemma insert_by_count_sorted (x : string * nat) (l : list (string * nat)) :
  StronglySorted (fun a b => snd b <= snd a) l ->
  StronglySorted (fun a b => snd b <= snd a) (insert_by_count x l).
Proof.
  induction l as [|y l IH]; intros Hs; simpl; [repeat constructor|].
  apply StronglySorted_cons in Hs as [Hy Hs].
  destruct (snd x <=? snd y)%nat eqn:E.
  - apply Nat.leb_le in E. apply StronglySorted_cons. split; [|now apply IH].
    rewrite insert_by_count_perm. now constructor.
  - apply Nat.leb_gt in E. apply StronglySorted_cons. split.
    + constructor; [lia|]. eapply Forall_impl; [exact Hy|].
      simpl. intros z Hz. lia.
    + apply StronglySorted_cons. now split.
Qed.

Lemma sorted_by_count_sorted (l : list (string * nat)) :
  StronglySorted (fun a b => snd b <= snd a) (sorted_by_count l).
Proof.
  unfold sorted_by_count.
  assert (H : StronglySorted (fun a b : string * nat => snd b <= snd a) [])
    by constructor.
  revert H. generalize (@nil (string * nat)).
  induction l as [|x l IH]; intros acc Hacc; simpl; [exact Hacc|].
  apply IH. now apply insert_by_count_sorted.
Qed.

End ConceptFacts.

Lemma key_concepts_facts (self : ChallengeGenerator.t)
    (text : string) (tokens : list string) :
  ChallengeGenerator.word_tokenize self
    (Text.sub_punctuation (Text.lower text)) = Some tokens ->
  exists concepts,
    ChallengeGenerator._extract_key_concepts self text = Some concepts
    /\ length concepts <= 20
    /\ NoDup concepts
    /\ Forall (fun c =>
                 3 < String.length c
                 /\ (c ∉ ChallengeGenerator.stop_words self)
                 /\ 3 <= count_occ string_dec tokens c)
              concepts
    /\ StronglySorted
         (fun c d => count_occ string_dec tokens d
                     <= count_occ string_dec tokens c)
         concepts.
Proof.
  intros Htok. unfold ChallengeGenerator._extract_key_concepts.
  rewrite Htok. cbn [mbind option_bind].
  set (keep := fun word : string =>
                 bool_decide (word ∉ ChallengeGenerator.stop_words self)
                 && (3 <? String.length word)%nat).
  set (words := List.filter keep tokens).
  set (word_freq :=
         foldl (fun acc word => ChallengeGenerator.count_word word acc)
               [] words).
  set (kept := List.filter (fun x : string * nat => (2 <? snd x)%nat)
                 (take 20 (ChallengeGenerator.sorted_by_count word_freq))).
  destruct (word_freq_counts words [] []) as [Hnd Hcount].
  { constructor. }
  { intros w n Hin. now apply elem_of_nil in Hin. }
  { intros w Hin. now apply elem_of_nil in Hin. }
  fold word_freq in Hnd, Hcount. rewrite app_nil_l in Hcount.
  assert (Hsub : kept `sublist_of` ChallengeGenerator.sorted_by_count word_freq).
  { unfold kept.
    transitivity (take 20 (ChallengeGenerator.sorted_by_count word_freq));
      [apply list_filter_sublist | apply sublist_take]. }
  assert (Hin : forall x, x ∈ kept -> x ∈ word_freq /\ 2 < snd x).
  { intros x Hx. split.
    - rewrite <- (sorted_by_count_perm word_freq).
      eapply elem_of_sublist; eauto.
    - unfold kept in Hx. apply list_elem_of_In, filter_In in Hx as [_ Hx].
      now apply Nat.ltb_lt in Hx. }
  exists (map fst kept). split; [reflexivity|]. split; [|split; [|split]].
  - rewrite length_map. unfold kept.
    etransitivity; [apply List.filter_length_le|].
    rewrite length_take. lia.
  - apply (sublist_NoDup _
             (map fst (ChallengeGenerator.sorted_by_count word_freq))).
    + now rewrite (sorted_by_count_perm word_freq).
    + now apply fmap_sublist.
  - apply Forall_forall. intros c Hc.
    apply list_elem_of_fmap in Hc as ([w n] & -> & Hx).
    destruct (Hin _ Hx) as [Hwf Hn]. simpl in *.
    pose proof (Hcount w n Hwf) as Hcnt.
    assert (Hw : In w words).
    { apply (count_occ_In string_dec). lia. }
    apply filter_In in Hw as [_ Hkeep].
    unfold words in Hcnt.
    rewrite (count_occ_filter keep tokens w Hkeep) in Hcnt.
    unfold keep in Hkeep. apply andb_true_iff in Hkeep as [H1 H2].
    apply bool_decide_eq_true in H1. apply Nat.ltb_lt in H2.
    split; [exact H2|]. split; [exact H1 | lia].
  - assert (Hs : StronglySorted (fun a b : string * nat => snd b <= snd a) kept).
    { unfold kept. apply StronglySorted_filter, StronglySorted_take,
        sorted_by_count_sorted. }
    assert (Hp : Forall (fun x : string * nat =>
                           snd x = count_occ string_dec tokens (fst x)) kept).
    { apply Forall_forall. intros [w n] Hx.
      destruct (Hin _ Hx) as [Hwf Hn]. simpl in *.
      pose proof (Hcount w n Hwf) as Hcnt.
      assert (Hw : In w words).
      { apply (count_occ_In string_dec). lia. }
      apply filter_In in Hw as [_ Hkeep].
      unfold words in Hcnt.
      now rewrite (count_occ_filter keep tokens w Hkeep) in Hcnt. }
    pose proof (StronglySorted_with _ _ _ _ Hs Hp) as H.
    apply (StronglySorted_fmap fst _
             (fun c d => count_occ string_dec tokens d
                         <= count_occ string_dec tokens c)) in H.
    + exact H.
    + intros x y (Hle & Hx & Hy). now rewrite <- Hx, <- Hy.
Qed.

(** X13. When the tokenizer returns, [_extract_key_concepts] returns at
    most 20 concepts without repetition; each has more than 3
    characters, is not a stop word and occurs at least 3 times among
    the tokens, and the concepts are listed by descending number of
    occurrences. *)
Theorem extract_key_concepts_sound (self : ChallengeGenerator.t)
    (text : string) (tokens : list string) :
  ChallengeGenerator.word_tokenize self
    (Text.sub_punctuation (Text.lower text)) = Some tokens ->
  exists concepts,
    ChallengeGenerator._extract_key_concepts self text = Some concepts
    /\ length concepts <= 20
    /\ NoDup concepts
    /\ Forall (fun c =>
                 3 < String.length c
                 /\ (c ∉ ChallengeGenerator.stop_words self)
                 /\ 3 <= count_occ string_dec tokens c)
              concepts
    /\ StronglySorted
         (fun c d => count_occ string_dec tokens d
                     <= count_occ string_dec tokens c)
         concepts.
Proof.
  intros Htok.
  destruct (key_concepts_facts self text tokens Htok)
    as (concepts & H1 & H2 & H3 & H4 & H5).
  exists concepts. repeat split; assumption.
Qed.

Lemma extract_key_concepts_sound_witness :
  exists concepts,
    ChallengeGenerator._extract_key_concepts Scenarios.generator
      Scenarios.climate_document = Some concepts
    /\ length concepts <= 20
    /\ NoDup concepts
    /\ Forall (fun c =>
                 3 < String.length c
                 /\ (c ∉ ChallengeGenerator.stop_words Scenarios.generator)
                 /\ 3 <= count_occ string_dec
                           (Text.split_whitespace
                              (Text.sub_punctuation
                                 (Text.lower Scenarios.climate_document))) c)
              concepts
    /\ StronglySorted
         (fun c d =>
            count_occ string_dec
              (Text.split_whitespace
                 (Text.sub_punctuation
                    (Text.lower Scenarios.climate_document))) d
            <= count_occ string_dec
                 (Text.split_whitespace
                    (Text.sub_punctuation
                       (Text.lower Scenarios.climate_document))) c)
         concepts.
Proof.
  apply (extract_key_concepts_sound Scenarios.generator
           Scenarios.climate_document). reflexivity.
Defined.

(** ** Sampling and the question templates *)

Section SamplingFacts.
Import Text Random ChallengeGenerator.

Lemma randbelow_bound (g : rng) (n : nat) :
  n <> 0 -> fst (randbelow g n) < n.
Proof. intros Hn. unfold randbelow. simpl. now apply Nat.mod_upper_bound. Qed.

(** Two draws from a pool without repetition are two different
    elements of the pool. *)
Lemma sample_two (pool : list string) (g : rng) :
  2 <= length pool -> NoDup pool ->
  exists a b g',
    sample pool 2 g = Some ([a; b], g')
    /\ a ∈ pool /\ b ∈ pool /\ a <> b.
Proof.
  intros Hlen Hnd. unfold sample.
  replace (2 <=? length pool)%nat with true
    by (symmetry; now apply Nat.leb_le).
  set (n := length pool) in *.
  cbn [sample_pool].
  destruct (randbelow g n) as [j0 g1] eqn:E0.
  pose proof (randbelow_bound g n ltac:(lia)) as Hj0.
  rewrite E0 in Hj0. simpl in Hj0.
  destruct (lookup_lt_is_Some_2 pool j0 Hj0) as [a Ha].
  destruct (lookup_lt_is_Some_2 pool (n - 1) ltac:(lia)) as [z Hz].
  rewrite Ha, Hz. cbn [mbind option_bind].
  destruct (randbelow g1 (n - 1)) as [j1 g2] eqn:E1.
  pose proof (randbelow_bound g1 (n - 1) ltac:(lia)) as Hj1.
  rewrite E1 in Hj1. simpl in Hj1.
  assert (Hlen' : length (<[j0:=z]> pool) = n) by apply length_insert.
  destruct (lookup_lt_is_Some_2 (<[j0:=z]> pool) j1 ltac:(lia)) as [b Hb].
  destruct (lookup_lt_is_Some_2 (<[j0:=z]> pool) (n - 1 - 1) ltac:(lia))
    as [y Hy].
  rewrite Hb, Hy. cbn [mbind option_bind].
  exists a, b, g2. split; [reflexivity|].
  split; [eapply list_elem_of_lookup_2; exact Ha|].
  destruct (decide (j0 = j1)) as [->|Hne].
  - rewrite list_lookup_insert_eq in Hb by exact Hj0. injection Hb as <-.
    split; [eapply list_elem_of_lookup_2; exact Hz|].
    intros ->. pose proof (NoDup_lookup _ _ _ _ Hnd Ha Hz). lia.
  - rewrite list_lookup_insert_ne in Hb by exact Hne.
    split; [eapply list_elem_of_lookup_2; exact Hb|].
    intros ->. pose proof (NoDup_lookup _ _ _ _ Hnd Ha Hb). lia.
Qed.

Lemma choice_member (A : Type) (seq : list A) (g : rng) :
  seq <> [] -> exists x g', choice seq g = Some (x, g') /\ x ∈ seq.
Proof.
  intros Hne. unfold choice.
  destruct (randbelow g (length seq)) as [i g'] eqn:E.
  pose proof (randbelow_bound g (length seq)) as Hi.
  rewrite E in Hi. simpl in Hi.
  destruct (lookup_lt_is_Some_2 seq i) as [x Hx].
  { apply Hi. destruct seq; [congruence | simpl; lia]. }
  rewrite Hx. simpl. exists x, g'. split; [reflexivity|].
  eapply list_elem_of_lookup_2. exact Hx.
Qed.

Lemma contains_occurrence (x pre post : string) :
  contains x (pre +:+ (x +:+ post)) = true.
Proof.
  induction pre as [|c pre IH].
  - rewrite append_empty_l. destruct (x +:+ post) eqn:E;
      cbn [contains]; rewrite <- E, prefix_append; reflexivity.
  - rewrite append_cons. cbn [contains]. rewrite IH.
    now destruct (String.prefix x (String c (pre +:+ (x +:+ post)))).
Qed.

(** Every template renders, and the text holds the first concept. *)
Lemma format_templates (template first second : string) :
  template ∈ templates ->
  exists pre post,
    format template
      [("topic", first); ("concept1", first);
       ("concept2", second); ("concept", first)]
    = Some (pre +:+ (first +:+ post)).
Proof.
  intros H. unfold templates in H.
  repeat (apply elem_of_cons in H as [->|H]);
    [ exists "What is the main argument presented about ", "?"
    | exists "How does the document explain the relationship between ",
             (" and " +:+ (second +:+ "?"))
    | exists "What evidence does the author provide to support the claim about ",
             "?"
    | exists "According to the document, what are the key factors that influence ",
             "?"
    | exists "What conclusion can be drawn about ",
             " based on the information provided?"
    | exists "How does the document define or describe ", "?"
    | exists "What are the implications of ",
             " as discussed in the document?"
    | exists "Based on the document, what is the significance of ", "?"
    | exists "What are the main differences between ",
             (" and " +:+ (second +:+ " as described?"))
    | exists "How does the author justify their position on ", "?"
    | now apply elem_of_nil in H ];
    reflexivity.
Qed.

End SamplingFacts.

Lemma single_question_facts (self : ChallengeGenerator.t)
    (text : string) (key_concepts : list string)
    (used_concepts : gset string) (g : Random.rng) :
  ChallengeGenerator.question_templates self = ChallengeGenerator.templates ->
  NoDup key_concepts ->
  2 <= length key_concepts ->
  exists question_text c1 c2 g',
    ChallengeGenerator._generate_single_question self text key_concepts
      used_concepts g
    = Some (Some (ChallengeGenerator.logic_question question_text [c1; c2]),
            g')
    /\ c1 ∈ key_concepts /\ c2 ∈ key_concepts /\ c1 <> c2
    /\ Text.contains c1 question_text = true
    /\ (2 <= length (List.filter (fun c => bool_decide (c ∉ used_concepts))
                                 key_concepts) ->
        (c1 ∉ used_concepts) /\ (c2 ∉ used_concepts)).
Proof.
  intros Ht Hnd Hlen. unfold ChallengeGenerator._generate_single_question.
  replace (length key_concepts <? 2)%nat with false
    by (symmetry; apply Nat.ltb_ge; lia).
  set (unused := List.filter (fun c => bool_decide (c ∉ used_concepts))
                             key_concepts).
  set (available := if (length unused <? 2)%nat then take 2 key_concepts
                    else unused).
  assert (Hsub : available `sublist_of` key_concepts).
  { unfold available. destruct (length unused <? 2)%nat;
      [apply sublist_take | apply list_filter_sublist]. }
  assert (Hav : 2 <= length available).
  { unfold available. destruct (length unused <? 2)%nat eqn:E.
    - rewrite length_take. lia.
    - now apply Nat.ltb_ge in E. }
  replace (Nat.min 2 (length available)) with 2 by lia.
  destruct (sample_two available g Hav) as (c1 & c2 & g1 & -> & H1 & H2 & Hne).
  { now apply (sublist_NoDup _ key_concepts). }
  cbn [mbind option_bind]. rewrite Ht.
  destruct (choice_member _ ChallengeGenerator.templates g1)
    as (template & g2 & -> & Hin); [discriminate|].
  cbn [mbind option_bind]. simpl.
  destruct (format_templates template c1 c2 Hin) as (pre & post & ->).
  simpl. exists (pre +:+ (c1 +:+ post)), c1, c2, g2.
  split; [reflexivity|].
  split; [eapply elem_of_sublist; eauto|].
  split; [eapply elem_of_sublist; eauto|].
  split; [exact Hne|]. split; [apply contains_occurrence|].
  intros Hun. unfold available in H1, H2.
  replace (length unused <? 2)%nat with false in H1, H2
    by (symmetry; apply Nat.ltb_ge; exact Hun).
  unfold unused in H1, H2.
  apply list_elem_of_In, filter_In in H1 as [_ H1].
  apply list_elem_of_In, filter_In in H2 as [_ H2].
  apply bool_decide_eq_true in H1, H2. now split.
Qed.

(** X14. With the templates of [__init__] and at least 2 key concepts
    without repetition, [_generate_single_question] never raises and
    never returns [None]: it returns a [logic] question of [medium]
    difficulty about two different key concepts, whose text holds the
    first of them, whatever the random source draws and whatever
    concepts were used before. *)
Theorem generate_single_question_sound (self : ChallengeGenerator.t)
    (text : string) (key_concepts : list string)
    (used_concepts : gset string) (g : Random.rng) :
  ChallengeGenerator.question_templates self = ChallengeGenerator.templates ->
  NoDup key_concepts ->
  2 <= length key_concepts ->
  exists question_text c1 c2 g',
    ChallengeGenerator._generate_single_question self text key_concepts
      used_concepts g
    = Some (Some (ChallengeGenerator.logic_question question_text [c1; c2]),
            g')
    /\ c1 ∈ key_concepts /\ c2 ∈ key_concepts /\ c1 <> c2
    /\ Text.contains c1 question_text = true.
Proof.
  intros Ht Hnd Hlen.
  destruct (single_question_facts self text key_concepts used_concepts g
              Ht Hnd Hlen) as (q & c1 & c2 & g' & H1 & H2 & H3 & H4 & H5 & _).
  exists q, c1, c2, g'. repeat split; assumption.
Qed.

Lemma generate_single_question_sound_witness :
  exists question_text c1 c2 g',
    ChallengeGenerator._generate_single_question Scenarios.generator
      Scenarios.climate_document ["ocean"; "climate"; "heat"] ∅
      Scenarios.source
    = Some (Some (ChallengeGenerator.logic_question question_text [c1; c2]),
            g')
    /\ c1 ∈ ["ocean"; "climate"; "heat"]
    /\ c2 ∈ ["ocean"; "climate"; "heat"] /\ c1 <> c2
    /\ Text.contains c1 question_text = true.
Proof.
  apply generate_single_question_sound.
  - reflexivity.
  - apply NoDup_ListNoDup. repeat constructor; simpl; intuition discriminate.
  - simpl. lia.
Defined.

Section MainPathFacts.
Import Text Random ChallengeGenerator.

Lemma size_list_to_set_le (l : list string) :
  size (list_to_set l : gset string) <= length l.
Proof.
  induction l as [|x l IH].
  - rewrite list_to_set_nil, size_empty. simpl. lia.
  - rewrite list_to_set_cons, size_union_alt, size_singleton.
    assert (size ((list_to_set l : gset string) ∖ {[x]})
            <= size (list_to_set l : gset string))
      by now apply subseteq_size, subseteq_difference_l.
    simpl. lia.
Qed.

Lemma size_union_le (X Y : gset string) : size (X ∪ Y) <= size X + size Y.
Proof.
  rewrite size_union_alt.
  assert (size (Y ∖ X) <= size Y)
    by now apply subseteq_size, subseteq_difference_l.
  lia.
Qed.

(** Concepts that were used remove at most as many key concepts. *)
Lemma unused_count (key_concepts : list string) (used : gset string) :
  NoDup key_concepts ->
  length key_concepts
  <= length (List.filter (fun c => bool_decide (c ∉ used)) key_concepts)
     + size used.
Proof.
  intros Hnd.
  set (unused := List.filter (fun c => bool_decide (c ∉ used)) key_concepts).
  assert (Hun : NoDup unused)
    by (apply (sublist_NoDup _ key_concepts);
        [exact Hnd | apply list_filter_sublist]).
  rewrite <- (size_list_to_set (C := gset string) key_concepts Hnd).
  rewrite <- (size_list_to_set (C := gset string) unused Hun).
  etransitivity; [|apply size_union_le].
  apply subseteq_size. intros c Hc. apply elem_of_list_to_set in Hc.
  destruct (decide (c ∈ used)) as [Hu|Hu]; [now apply elem_of_union_r|].
  apply elem_of_union_l, elem_of_list_to_set.
  unfold unused. apply list_elem_of_In, filter_In.
  split; [now apply list_elem_of_In | now apply bool_decide_eq_true].
Qed.

(** The three rounds of the main path and what each of them draws. *)
Lemma main_path_facts (self : t) (document_text : string)
    (key_concepts : list string) (g : rng) :
  question_templates self = templates ->
  100 <= String.length (strip document_text) ->
  _extract_key_concepts self document_text = Some key_concepts ->
  2 <= length key_concepts ->
  exists t1 a1 b1 t2 a2 b2 t3 a3 b3,
    generate_questions self document_text g
    = [logic_question t1 [a1; b1]; logic_question t2 [a2; b2];
       logic_question t3 [a3; b3]]
    /\ Forall (fun x : string * (string * string) =>
                 fst (snd x) ∈ key_concepts /\ snd (snd x) ∈ key_concepts
                 /\ fst (snd x) <> snd (snd x)
                 /\ contains (fst (snd x)) (fst x) = true)
              [(t1, (a1, b1)); (t2, (a2, b2)); (t3, (a3, b3))]
    /\ (4 <= length key_concepts ->
        (a2 ∉ [a1; b1]) /\ (b2 ∉ [a1; b1]))
    /\ (6 <= length key_concepts ->
        (a3 ∉ [a1; b1; a2; b2]) /\ (b3 ∉ [a1; b1; a2; b2])).
Proof.
  intros Ht Hlen Hk H2.
  assert (Hnd : NoDup key_concepts).
  { destruct (word_tokenize self (sub_punctuation (lower document_text)))
      as [tokens|] eqn:E.
    - destruct (key_concepts_facts self document_text tokens E)
        as (concepts & H & _ & Hnd & _).
      congruence.
    - unfold _extract_key_concepts in Hk. rewrite E in Hk. discriminate. }
  unfold generate_questions.
  replace (negb (truthy document_text)
           || (String.length (strip document_text) <? 100)%nat)
    with false.
  2:{ symmetry. apply orb_false_iff. split.
      - destruct document_text; [simpl in Hlen; lia | reflexivity].
      - apply Nat.ltb_ge. exact Hlen. }
  unfold generate_body. rewrite Hk.
  cbn [mbind option_bind].
  replace (length key_concepts <? 2)%nat with false
    by (symmetry; apply Nat.ltb_ge; lia).
  cbn [question_rounds].
  destruct (single_question_facts self document_text key_concepts ∅ g
              Ht Hnd H2) as (t1 & a1 & b1 & g1 & -> & Fa1 & Fb1 & Fc1 & Fd1 & _).
  cbn [mbind option_bind].
  set (used1 := ∅ ∪ list_to_set
                  (default [] (AnswerEvaluator.q_concepts
                                 (logic_question t1 [a1; b1])))).
  destruct (single_question_facts self document_text key_concepts used1
              g1 Ht Hnd H2)
    as (t2 & a2 & b2 & g2 & -> & Fa2 & Fb2 & Fc2 & Fd2 & Fe2).
  cbn [mbind option_bind].
  set (used2 := used1 ∪ list_to_set
                  (default [] (AnswerEvaluator.q_concepts
                                 (logic_question t2 [a2; b2])))).
  destruct (single_question_facts self document_text key_concepts used2
              g2 Ht Hnd H2)
    as (t3 & a3 & b3 & g3 & -> & Fa3 & Fb3 & Fc3 & Fd3 & Fe3).
  cbn [mbind option_bind]. simpl.
  exists t1, a1, b1, t2, a2, b2, t3, a3, b3.
  split; [reflexivity|].
  split; [repeat constructor; simpl; assumption|].
  assert (S1 : size used1 <= 2).
  { unfold used1. etransitivity; [apply size_union_le|].
    rewrite size_empty. apply (size_list_to_set_le [a1; b1]). }
  assert (L2 : size (list_to_set [a2; b2] : gset string) <= 2)
    by apply (size_list_to_set_le [a2; b2]).
  assert (S2 : size used2 <= 4).
  { unfold used2. etransitivity; [apply size_union_le|].
    change (default [] (AnswerEvaluator.q_concepts
                          (logic_question t2 [a2; b2]))) with [a2; b2].
    lia. }
  pose proof (unused_count key_concepts used1 Hnd) as U1.
  pose proof (unused_count key_concepts used2 Hnd) as U2.
  assert (In1 : forall c, c ∈ [a1; b1] -> c ∈ used1).
  { intros c Hc. unfold used1. now apply elem_of_union_r, elem_of_list_to_set. }
  assert (In2 : forall c, c ∈ [a1; b1; a2; b2] -> c ∈ used2).
  { intros c Hc. unfold used2.
    change [a1; b1; a2; b2] with ([a1; b1] ++ [a2; b2]) in Hc.
    apply elem_of_app in Hc as [Hc|Hc].
    - now apply elem_of_union_l, In1.
    - now apply elem_of_union_r, elem_of_list_to_set. }
  split.
  - intros H4. destruct Fe2 as [Ha Hb]; [lia|].
    split; intros Hc; [apply Ha | apply Hb]; now apply In1.
  - intros H6. destruct Fe3 as [Ha Hb]; [lia|].
    split; intros Hc; [apply Ha | apply Hb]; now apply In2.
Qed.

End MainPathFacts.

(** X15. With the templates of [__init__], a document of at least 100
    characters once stripped and at least 2 key concepts extracted,
    [generate_questions] needs no fallback: its 3 questions are [logic]
    questions, each about two different key concepts of the document
    and naming the first of them in its text. *)
Theorem generate_questions_main_path (self : ChallengeGenerator.t)
    (document_text : string) (key_concepts : list string) (g : Random.rng) :
  ChallengeGenerator.question_templates self = ChallengeGenerator.templates ->
  100 <= String.length (Text.strip document_text) ->
  ChallengeGenerator._extract_key_concepts self document_text
  = Some key_concepts ->
  2 <= length key_concepts ->
  exists q1 q2 q3,
    ChallengeGenerator.generate_questions self document_text g = [q1; q2; q3]
    /\ Forall (fun q =>
                 exists question_text c1 c2,
                   q = ChallengeGenerator.logic_question question_text [c1; c2]
                   /\ c1 ∈ key_concepts /\ c2 ∈ key_concepts /\ c1 <> c2
                   /\ Text.contains c1 question_text = true)
              [q1; q2; q3].
Proof.
  intros Ht Hlen Hk H2.
  destruct (main_path_facts self document_text key_concepts g Ht Hlen Hk H2)
    as (t1 & a1 & b1 & t2 & a2 & b2 & t3 & a3 & b3 & -> & HF & _).
  eexists _, _, _. split; [reflexivity|].
  apply Forall_cons in HF as [F1 HF].
  apply Forall_cons in HF as [F2 HF].
  apply Forall_cons in HF as [F3 _].
  simpl in F1, F2, F3.
  repeat constructor; eexists _, _, _; (split; [reflexivity|]); assumption.
Qed.

Lemma generate_questions_main_path_witness :
  exists q1 q2 q3,
    ChallengeGenerator.generate_questions Scenarios.generator
      Scenarios.climate_document Scenarios.source = [q1; q2; q3]
    /\ Forall (fun q =>
                 exists question_text c1 c2,
                   q = ChallengeGenerator.logic_question question_text [c1; c2]
                   /\ c1 ∈ ["ocean"; "climate"; "heat"]
                   /\ c2 ∈ ["ocean"; "climate"; "heat"] /\ c1 <> c2
                   /\ Text.contains c1 question_text = true)
              [q1; q2; q3].
Proof.
  apply generate_questions_main_path.
  - reflexivity.
  - vm_compute. lia.
  - vm_compute. reflexivity.
  - simpl. lia.
Defined.

(** X16. With at least 6 key concepts the 3 questions of the main path
    are about 6 different concepts: a question draws from the concepts
    no earlier question used as long as 2 of them are left. *)
Theorem generate_questions_distinct_concepts (self : ChallengeGenerator.t)
    (document_text : string) (key_concepts : list string) (g : Random.rng) :
  ChallengeGenerator.question_templates self = ChallengeGenerator.templates ->
  100 <= String.length (Text.strip document_text) ->
  ChallengeGenerator._extract_key_concepts self document_text
  = Some key_concepts ->
  6 <= length key_concepts ->
  exists t1 a1 b1 t2 a2 b2 t3 a3 b3,
    ChallengeGenerator.generate_questions self document_text g
    = [ChallengeGenerator.logic_question t1 [a1; b1];
       ChallengeGenerator.logic_question t2 [a2; b2];
       ChallengeGenerator.logic_question t3 [a3; b3]]
    /\ NoDup [a1; b1; a2; b2; a3; b3].
Proof.
  intros Ht Hlen Hk H6.
  destruct (main_path_facts self document_text key_concepts g Ht Hlen Hk
              ltac:(lia))
    as (t1 & a1 & b1 & t2 & a2 & b2 & t3 & a3 & b3 & E & HF & H2 & H3).
  exists t1, a1, b1, t2, a2, b2, t3, a3, b3. split; [exact E|].
  apply Forall_cons in HF as [(_ & _ & N1 & _) HF].
  apply Forall_cons in HF as [(_ & _ & N2 & _) HF].
  apply Forall_cons in HF as [(_ & _ & N3 & _) _].
  simpl in N1, N2, N3.
  destruct H2 as [Ha2 Hb2]; [lia|]. destruct H3 as [Ha3 Hb3]; [lia|].
  rewrite !NoDup_cons. rewrite !not_elem_of_cons in *.
  repeat split; try apply not_elem_of_nil; try apply NoDup_nil_2;
    intuition congruence.
Qed.

Lemma generate_questions_distinct_concepts_witness :
  exists t1 a1 b1 t2 a2 b2 t3 a3 b3,
    ChallengeGenerator.generate_questions Scenarios.generator
      Scenarios.greek_document Scenarios.source
    = [ChallengeGenerator.logic_question t1 [a1; b1];
       ChallengeGenerator.logic_question t2 [a2; b2];
       ChallengeGenerator.logic_question t3 [a3; b3]]
    /\ NoDup [a1; b1; a2; b2; a3; b3].
Proof.
  apply (generate_questions_distinct_concepts Scenarios.generator
           Scenarios.greek_document
           ["alpha"; "beta"; "gamma"; "delta"; "epsilon"; "zeta"]).
  - reflexivity.
  - vm_compute. lia.
  - vm_compute. reflexivity.
  - simpl. lia.
Defined.

(** ** The conversation context *)

Lemma find_relevant_chunks_count (self : QAEngine.t) (question : string)
    (chunks : list string) :
  length (QAEngine._find_relevant_chunks self question chunks)
  <= Nat.min 3 (length chunks)
  /\ (chunks <> [] ->
      QAEngine._find_relevant_chunks self question chunks <> []).
Proof.
  unfold QAEngine._find_relevant_chunks.
  assert (Htake : forall n, n <= 3 ->
            length (take n chunks) <= Nat.min 3 (length chunks))
    by (intros n Hn; rewrite length_take; lia).
  destruct (QAEngine.embedder self) as [e|];
    [|split; [now apply Htake | apply take_not_nil]].
  destruct (Ranker.similarities e question chunks) as [sims|] eqn:E;
    [|split; [now apply Htake | apply take_not_nil]].
  apply length_mapM in E.
  destruct (Ranker.relevant 3 sims chunks) as [|c r] eqn:Er;
    [split; [apply Htake; lia | apply take_not_nil]|].
  split; [|discriminate]. rewrite <- Er. unfold Ranker.relevant.
  rewrite length_map.
  pose proof (relevant_indices_length 3 sims) as H3.
  assert (Hn : length (Ranker.relevant_indices 3 sims) <= length sims).
  { unfold Ranker.relevant_indices, Ranker.top_indices.
    etransitivity; [apply List.filter_length_le|].
    rewrite length_take, length_rev, argsort_length. lia. }
  lia.
Qed.

(** X17. The context returned by [get_conversation_context] counts one
    chunk for every 250 sentences (rounded up); its relevant chunks are
    at most 3 and at most as many as the chunks, and there is one as
    soon as the document has a chunk. *)
Theorem conversation_context_counts (self : QAEngine.t)
    (question document_text : string) :
  let context :=
    QAEngine.get_conversation_context self question document_text in
  QAEngine.total_chunks context
  = (length (QAEngine._split_into_sentences document_text) + 249) / 250
  /\ length (QAEngine.relevant_chunks context)
     <= Nat.min 3 (QAEngine.total_chunks context)
  /\ (0 < QAEngine.total_chunks context ->
      QAEngine.relevant_chunks context <> [])
  /\ QAEngine.document_length context = String.length document_text.
Proof.
  cbv zeta. unfold QAEngine.get_conversation_context.
  cbn [QAEngine.total_chunks QAEngine.relevant_chunks
       QAEngine.document_length].
  destruct (find_relevant_chunks_count self question
              (QAEngine._split_document_into_chunks document_text))
    as [Hlen Hne].
  split; [|split; [exact Hlen|split; [|reflexivity]]].
  - rewrite chunks_all_kept, length_map. unfold QAEngine.range_step.
    rewrite length_map, length_seq. f_equal. lia.
  - intros Hpos. apply Hne. intros E. rewrite E in Hpos. simpl in Hpos. lia.
Qed.

Lemma conversation_context_counts_witness :
  0 < QAEngine.total_chunks
        (QAEngine.get_conversation_context Scenarios.bare_engine
           Scenarios.color_question Scenarios.cat_document)
  /\ QAEngine.relevant_chunks
       (QAEngine.get_conversation_context Scenarios.bare_engine
          Scenarios.color_question Scenarios.cat_document) <> [].
Proof.
  assert (H : 0 < QAEngine.total_chunks
                    (QAEngine.get_conversation_context Scenarios.bare_engine
                       Scenarios.color_question Scenarios.cat_document))
    by (vm_compute; lia).
  split; [exact H|].
  exact (proj1 (proj2 (proj2 (conversation_context_counts
           Scenarios.bare_engine Scenarios.color_question
           Scenarios.cat_document))) H).
Defined.

(** ** Counting words *)

Section WordCountFacts.
Import Text DocumentSummarizer.

Lemma truthy_snoc (cur : string) (c : ascii) :
  truthy (cur +:+ String c "") = true.
Proof. now destruct cur. Qed.

Lemma flush_length (cur : string) :
  length (flush cur) = if truthy cur then 1 else 0.
Proof. now destruct cur. Qed.

Lemma runs_length (cur s : string) :
  length (runs_from (fun c => negb (is_space c)) cur s)
  = word_count (truthy cur) s.
Proof.
  revert cur. induction s as [|c s IH]; intros cur; simpl.
  - apply flush_length.
  - destruct (is_space c); simpl.
    + now rewrite length_app, flush_length, IH.
    + now rewrite IH, truthy_snoc.
Qed.

Lemma split_whitespace_length (s : string) :
  length (split_whitespace s) = word_count false s.
Proof. apply runs_length. Qed.

Lemma word_count_append (b : bool) (a t : string) :
  word_count b (a +:+ t) + (if ends_in_word b a then 1 else 0)
  = word_count b a + word_count (ends_in_word b a) t.
Proof.
  revert b. induction a as [|c a IH]; intros b.
  - rewrite append_empty_l. simpl. destruct b; lia.
  - rewrite append_cons. simpl. destruct (is_space c); simpl.
    + specialize (IH false). lia.
    + apply (IH true).
Qed.

(** A text of [n] characters has at most [(n + 1) / 2] words. *)
Lemma word_count_half (s : string) :
  2 * word_count false s <= String.length s + 1
  /\ 2 * word_count true s <= String.length s + 2.
Proof.
  induction s as [|c s [IH1 IH2]]; simpl; [lia|].
  destruct (is_space c); simpl; lia.
Qed.

Lemma word_count_collapse (s : string) (in_run b : bool) :
  (in_run = true -> b = false) ->
  word_count b (collapse_from in_run s) = word_count b s.
Proof.
  revert in_run b. induction s as [|c s IH]; intros r b Hr; [reflexivity|].
  simpl. destruct (is_space c) eqn:E.
  - destruct r.
    + rewrite (Hr eq_refl). simpl. now apply IH.
    + change (word_count b (String " " (collapse_from true s)))
        with ((if b then 1 else 0) + word_count false (collapse_from true s)).
      f_equal. now apply IH.
  - simpl. rewrite E. apply IH. discriminate.
Qed.

Lemma word_count_lstrip (s : string) :
  word_count false (lstrip s) = word_count false s.
Proof.
  induction s as [|c s IH]; [reflexivity|]. simpl.
  destruct (is_space c) eqn:E; [exact IH|]. simpl. now rewrite E.
Qed.

Lemma word_count_rstrip (s : string) (b : bool) :
  word_count b (rstrip s) = word_count b s.
Proof.
  revert b. induction s as [|c s IH]; intros b; [reflexivity|]. simpl.
  destruct (rstrip s) as [|d r] eqn:Er.
  - destruct (is_space c) eqn:E; simpl; rewrite ?E, <- IH; simpl; lia.
  - change (word_count b (String c (String d r))
            = word_count b (String c s)).
    simpl. destruct (is_space c); rewrite <- IH; reflexivity.
Qed.

Lemma word_count_strip (s : string) :
  word_count false (strip s) = word_count false s.
Proof. unfold strip. now rewrite word_count_rstrip, word_count_lstrip. Qed.

Lemma rstrip_ends_in_word (s : string) (b : bool) :
  rstrip s = "" \/ ends_in_word b (rstrip s) = true.
Proof.
  revert b. induction s as [|c s IH]; intros b; [now left|]. simpl.
  destruct (rstrip s) as [|d r] eqn:Er.
  - destruct (is_space c) eqn:E; [now left|]. right. simpl. now rewrite E.
  - right. change (ends_in_word (negb (is_space c)) (String d r) = true).
    destruct (IH (negb (is_space c))) as [H|H]; [discriminate | exact H].
Qed.

Lemma strip_ends_in_word (s : string) :
  truthy (strip s) = true -> ends_in_word false (strip s) = true.
Proof.
  unfold strip. intros H.
  destruct (rstrip_ends_in_word (lstrip s) false) as [E|E]; [|exact E].
  now rewrite E in H.
Qed.

End WordCountFacts.

Section WordListFacts.
Import Text DocumentSummarizer.

(** what [split] returns: words, that is strings that are not empty
    and hold no blank *)
Lemma no_blank_snoc (cur : string) (c : ascii) :
  no_blank cur = true -> is_space c = false ->
  no_blank (cur +:+ String c "") = true.
Proof.
  intros Hcur Hc. induction cur as [|d cur IH].
  - rewrite append_empty_l. simpl. now rewrite Hc.
  - rewrite append_cons. simpl in Hcur.
    apply andb_true_iff in Hcur as [Hd Hcur].
    change (no_blank (String d (cur +:+ String c "")))
      with (negb (is_space d) && no_blank (cur +:+ String c "")).
    rewrite Hd. now apply IH.
Qed.

Lemma runs_are_words (cur s : string) :
  no_blank cur = true ->
  Forall (fun w => no_blank w = true /\ truthy w = true)
         (runs_from (fun c => negb (is_space c)) cur s).
Proof.
  revert cur. induction s as [|c s IH]; intros cur Hcur; simpl.
  - destruct cur; simpl; [constructor|]. repeat constructor. exact Hcur.
  - destruct (is_space c) eqn:E; simpl.
    + apply Forall_app. split; [|now apply IH].
      destruct cur; simpl; [constructor|]. repeat constructor. exact Hcur.
    + apply IH. now apply no_blank_snoc.
Qed.

Lemma split_whitespace_words (s : string) :
  Forall (fun w => no_blank w = true /\ truthy w = true) (split_whitespace s).
Proof. now apply runs_are_words. Qed.

Lemma word_count_word (w t : string) (b : bool) :
  no_blank w = true ->
  word_count b (w +:+ t) = word_count (b || truthy w) t
  /\ ends_in_word b (w +:+ t) = ends_in_word (b || truthy w) t.
Proof.
  revert b. induction w as [|c w IH]; intros b Hw.
  - rewrite append_empty_l. simpl. now rewrite orb_false_r.
  - rewrite append_cons. simpl in *.
    apply andb_true_iff in Hw as [Hc Hw]. apply negb_true_iff in Hc.
    rewrite Hc, orb_true_r. simpl.
    destruct (IH true Hw) as [H1 H2]. simpl in H1, H2. now split.
Qed.

Lemma join_words (l : list string) :
  Forall (fun w => no_blank w = true /\ truthy w = true) l ->
  word_count false (join " " l) = length l
  /\ (l <> [] -> ends_in_word false (join " " l) = true).
Proof.
  unfold join. induction l as [|w l IH]; intros H; [now split|].
  apply Forall_cons in H as [[Hw Ht] Hl].
  destruct l as [|y l].
  - simpl. rewrite <- (append_empty_r w).
    destruct (word_count_word w "" false Hw) as [-> ->].
    rewrite Ht. now split.
  - change (String.concat " " (w :: y :: l))
      with (w +:+ (" " +:+ String.concat " " (y :: l))).
    destruct (word_count_word w (" " +:+ String.concat " " (y :: l))
                false Hw) as [-> ->].
    rewrite Ht. destruct (IH Hl) as [IH1 IH2].
    change (" " +:+ String.concat " " (y :: l))
      with (String " " (String.concat " " (y :: l))).
    split.
    + change (word_count (false || true)
                (String " " (String.concat " " (y :: l))))
        with (1 + word_count false (String.concat " " (y :: l))).
      rewrite IH1. reflexivity.
    + intros _.
      change (ends_in_word (false || true)
                (String " " (String.concat " " (y :: l))))
        with (ends_in_word false (String.concat " " (y :: l))).
      now apply IH2.
Qed.

Lemma ends_sentence_append (a : string) (c : ascii) (b : string) :
  ends_sentence (a +:+ String c b) = ends_sentence (String c b).
Proof.
  induction a as [|d a IH]; [reflexivity|].
  rewrite append_cons.
  change (ends_sentence (String d (a +:+ String c b)))
    with (match a +:+ String c b with
          | "" => is_sentence_end d
          | _ => ends_sentence (a +:+ String c b)
          end).
  destruct (a +:+ String c b) eqn:E; [|exact IH].
  destruct a; discriminate.
Qed.

(** Truncation to [n] words (for [n] of 1 or more): at most [n] words;
    when the text is cut, exactly [n] words and a sentence mark at the
    end. *)
Lemma truncate_text_facts (text : string) (n : nat) :
  1 <= n ->
  word_count false (_truncate_text text n) <= n
  /\ (n < word_count false text ->
      word_count false (_truncate_text text n) = n
      /\ ends_sentence (_truncate_text text n) = true).
Proof.
  intros Hn. unfold _truncate_text.
  rewrite split_whitespace_length.
  destruct (word_count false text <=? n)%nat eqn:E.
  - apply Nat.leb_le in E. split; [exact E | lia].
  - apply Nat.leb_gt in E.
    assert (Hw : Forall (fun w => no_blank w = true /\ truthy w = true)
                        (take n (split_whitespace text))).
    { apply Forall_take, split_whitespace_words. }
    assert (Hlen : length (take n (split_whitespace text)) = n).
    { rewrite length_take, split_whitespace_length. lia. }
    destruct (join_words _ Hw) as [Hc He].
    assert (Hne : take n (split_whitespace text) <> []).
    { intros E0. rewrite E0 in Hlen. simpl in Hlen. lia. }
    specialize (He Hne).
    destruct (ends_sentence (join " " (take n (split_whitespace text))))
      eqn:Es; simpl.
    + rewrite Hc, Hlen. split; [lia|]. intros _. now split.
    + pose proof (word_count_append false
                    (join " " (take n (split_whitespace text))) "...") as Ha.
      rewrite He, Hc, Hlen in Ha.
      change (word_count true "...") with 1 in Ha.
      split; [lia|]. intros _. split; [lia|].
      apply ends_sentence_append.
Qed.

End WordListFacts.

(** X18. [_truncate_text] with a limit of at least 1 word returns a text
    of at most that many words; a text that is cut has exactly that
    many words and ends with a full stop, [!] or [?] (the ellipsis is
    added when the last word kept does not end a sentence). *)
Theorem truncate_text_bound (text : string) (max_words : nat) :
  1 <= max_words ->
  let truncated := DocumentSummarizer._truncate_text text max_words in
  length (Text.split_whitespace truncated) <= max_words
  /\ (max_words < length (Text.split_whitespace text) ->
      length (Text.split_whitespace truncated) = max_words
      /\ DocumentSummarizer.ends_sentence truncated = true).
Proof.
  intros Hn. cbv zeta. rewrite !split_whitespace_length.
  now apply truncate_text_facts.
Qed.

Lemma truncate_text_bound_witness :
  DocumentSummarizer._truncate_text "one two three four five" 3
  = "one two three..."
  /\ length (Text.split_whitespace
               (DocumentSummarizer._truncate_text "one two three four five" 3))
     = 3.
Proof.
  assert (H1 : 1 <= 3) by lia.
  assert (H2 : 3 < length (Text.split_whitespace "one two three four five"))
    by (vm_compute; lia).
  split; [reflexivity|].
  exact (proj1 (proj2 (truncate_text_bound "one two three four five" 3 H1)
                  H2)).
Defined.

Section PostprocessFacts.
Import Text DocumentSummarizer.

Lemma postprocess_summary_facts (summary : string) :
  word_count false (_postprocess_summary summary)
  = Nat.min (word_count false summary) max_length
  /\ (truthy (_postprocess_summary summary) = true ->
      ends_sentence (_postprocess_summary summary) = true).
Proof.
  unfold _postprocess_summary. rewrite split_whitespace_length.
  set (cut := if (max_length <? word_count false summary)%nat
              then _truncate_text summary max_length else summary).
  assert (Hcut : word_count false cut
                 = Nat.min (word_count false summary) max_length).
  { unfold cut. destruct (max_length <? word_count false summary)%nat eqn:E.
    - apply Nat.ltb_lt in E.
      assert (H1 : 1 <= max_length) by (unfold max_length; lia).
      destruct (truncate_text_facts summary max_length H1) as [_ H].
      destruct (H E) as [-> _]. lia.
    - apply Nat.ltb_ge in E. lia. }
  set (s := strip (collapse_whitespace cut)).
  assert (Hs : word_count false s
               = Nat.min (word_count false summary) max_length).
  { unfold s, collapse_whitespace.
    rewrite word_count_strip, word_count_collapse by discriminate.
    exact Hcut. }
  destruct (truthy s) eqn:Et; simpl.
  - destruct (ends_sentence s) eqn:Ee; simpl.
    + split; [exact Hs | now intros _].
    + pose proof (word_count_append false s ".") as Ha.
      assert (Hw : ends_in_word false s = true)
        by (apply strip_ends_in_word; exact Et).
      rewrite Hw in Ha.
      change (word_count true ".") with 1 in Ha.
      split; [lia|]. intros _. apply ends_sentence_append.
  - split; [exact Hs|]. rewrite Et. discriminate.
Qed.

End PostprocessFacts.

(** X19. [_postprocess_summary] keeps the words of a summary up to the
    first 150 ([max_length]): the result has as many words as the
    summary, or 150 when the summary has more; and a result that is
    not empty ends with a full stop, [!] or [?]. *)
Theorem postprocess_summary_bound (summary : string) :
  let result := DocumentSummarizer._postprocess_summary summary in
  length (Text.split_whitespace result)
  = Nat.min (length (Text.split_whitespace summary))
            DocumentSummarizer.max_length
  /\ (result = "" \/ DocumentSummarizer.ends_sentence result = true).
Proof.
  cbv zeta. rewrite !split_whitespace_length.
  destruct (postprocess_summary_facts summary) as [H1 H2].
  split; [exact H1|].
  destruct (DocumentSummarizer._postprocess_summary summary) eqn:E;
    [now left | right; now apply H2].
Qed.

Section SummarizeFacts.
Import Text DocumentSummarizer.

Lemma short_text_words (text : string) :
  word_count false
    (if (200 <? String.length text)%nat
     then slice_to 200 text +:+ "..." else text) <= max_length.
Proof.
  unfold max_length.
  destruct (200 <? String.length text)%nat eqn:E.
  - pose proof (proj1 (word_count_half (slice_to 200 text +:+ "..."))) as H.
    rewrite string_length_append in H.
    pose proof (slice_to_length 200 text) as Hs.
    change (String.length "...") with 3 in H. lia.
  - apply Nat.ltb_ge in E.
    pose proof (proj1 (word_count_half text)) as H. lia.
Qed.

Lemma summarize_body_facts (self : t) (cleaned_text summary : string) :
  summarize_body self cleaned_text = Some summary ->
  word_count false summary <= max_length
  /\ (truthy summary = true -> ends_sentence summary = true).
Proof.
  unfold summarize_body. intros H.
  destruct (match summarizer self with
            | Some model => _generate_transformer_summary model cleaned_text
            | None => _generate_extractive_summary cleaned_text
            end) as [raw|]; [|discriminate].
  simpl in H. assert (summary = _postprocess_summary raw) by congruence.
  subst summary.
  destruct (postprocess_summary_facts raw) as [H1 H2].
  split; [lia | exact H2].
Qed.

Lemma summarize_long_facts (self : t) (text : string) :
  (truthy text && (100 <=? String.length (strip text))%nat = true) ->
  max_length < word_count false (_preprocess_text text) ->
  truthy (summarize self text) = true ->
  ends_sentence (summarize self text) = true.
Proof.
  intros Hlong Hwords. unfold summarize.
  apply andb_true_iff in Hlong as [Ht Hl]. apply Nat.leb_le in Hl.
  rewrite Ht. simpl negb. rewrite orb_false_l.
  destruct (String.length (strip text) <? 100)%nat eqn:E;
    [apply Nat.ltb_lt in E; lia|].
  cbv zeta. rewrite split_whitespace_length.
  destruct (word_count false (_preprocess_text text) <=? max_length)%nat
    eqn:Ew; [apply Nat.leb_le in Ew; lia|].
  destruct (summarize_body self (_preprocess_text text)) as [summary|] eqn:Eb.
  - exact (proj2 (summarize_body_facts _ _ _ Eb)).
  - intros _.
    assert (H1 : 1 <= max_length) by (unfold max_length; lia).
    destruct (truncate_text_facts (_preprocess_text text) max_length H1)
      as [_ H].
    exact (proj2 (H Hwords)).
Qed.

End SummarizeFacts.

(** X20. [summarize] returns at most 150 words, whatever the text and
    whatever the summarization model answers (a text, several, none,
    or an exception), and also without a model. *)
Theorem summarize_at_most_max_length
    (self : DocumentSummarizer.t) (text : string) :
  length (Text.split_whitespace (DocumentSummarizer.summarize self text))
  <= DocumentSummarizer.max_length.
Proof.
  rewrite split_whitespace_length. unfold DocumentSummarizer.summarize.
  destruct (negb (Text.truthy text)
            || (String.length (Text.strip text) <? 100)%nat).
  - apply short_text_words.
  - cbv zeta. rewrite split_whitespace_length.
    destruct (DocumentSummarizer.word_count false
                (DocumentSummarizer._preprocess_text text)
              <=? DocumentSummarizer.max_length)%nat eqn:Ew.
    + now apply Nat.leb_le in Ew.
    + destruct (DocumentSummarizer.summarize_body self
                  (DocumentSummarizer._preprocess_text text))
        as [summary|] eqn:Eb.
      * exact (proj1 (summarize_body_facts _ _ _ Eb)).
      * apply truncate_text_facts.
        unfold DocumentSummarizer.max_length. lia.
Qed.

(** X21. For a text that takes the summarization path of [summarize]
    (not empty, 100 characters or more once stripped, more than 150
    words once preprocessed), the summary returned is empty or ends
    with a full stop, [!] or [?]; this holds for the model's summary,
    the extractive summary and the truncation of the [except]
    branch. *)
Theorem summarize_ends_with_sentence_mark
    (self : DocumentSummarizer.t) (text : string) :
  Text.truthy text = true ->
  100 <= String.length (Text.strip text) ->
  DocumentSummarizer.max_length
  < length (Text.split_whitespace
              (DocumentSummarizer._preprocess_text text)) ->
  DocumentSummarizer.summarize self text = ""
  \/ DocumentSummarizer.ends_sentence
       (DocumentSummarizer.summarize self text) = true.
Proof.
  intros Ht Hl Hw. rewrite split_whitespace_length in Hw.
  destruct (DocumentSummarizer.summarize self text) eqn:E; [now left|].
  right. rewrite <- E. apply summarize_long_facts.
  - rewrite Ht, andb_true_l. now apply Nat.leb_le.
  - exact Hw.
  - now rewrite E.
Qed.

Lemma summarize_ends_with_sentence_mark_witness :
  DocumentSummarizer.summarize Scenarios.failing_model Scenarios.tide_report
  = ""
  \/ DocumentSummarizer.ends_sentence
       (DocumentSummarizer.summarize Scenarios.failing_model
          Scenarios.tide_report) = true.
Proof.
  apply (summarize_ends_with_sentence_mark Scenarios.failing_model
           Scenarios.tide_report).
  - reflexivity.
  - vm_compute. lia.
  - vm_compute. lia.
Defined.

(** ** The extractive summary *)

Section ExtractiveFacts.
Import Text Num DocumentSummarizer.

Lemma insert_by_value_perm (x : nat * Q) (l : list (nat * Q)) :
  insert_by_value x l ≡ₚ x :: l.
Proof.
  induction l as [|y l IH]; simpl; [reflexivity|].
  destruct (Qle_bool (snd x) (snd y)); [|reflexivity].
  rewrite IH. apply Permutation_swap.
Qed.

Lemma insert_by_value_sorted (x : nat * Q) (l : list (nat * Q)) :
  StronglySorted (fun a b => (snd b <= snd a)%Q) l ->
  StronglySorted (fun a b => (snd b <= snd a)%Q) (insert_by_value x l).
Proof.
  induction l as [|y l IH]; intros Hs; simpl.
  - repeat constructor.
  - apply StronglySorted_cons in Hs as [Hy Hs].
    destruct (Qle_bool (snd x) (snd y)) eqn:E.
    + apply Qle_bool_iff in E.
      apply StronglySorted_cons. split; [|now apply IH].
      rewrite insert_by_value_perm. constructor; [exact E | exact Hy].
    + apply Qle_bool_false in E.
      apply StronglySorted_cons. split.
      * constructor; [lra|].
        eapply Forall_impl; [exact Hy|]. intros z Hz. simpl in Hz. lra.
      * apply StronglySorted_cons. now split.
Qed.

Lemma sorted_by_value_from (l acc : list (nat * Q)) :
  StronglySorted (fun a b => (snd b <= snd a)%Q) acc ->
  foldl (fun acc x => insert_by_value x acc) acc l ≡ₚ acc ++ l
  /\ StronglySorted (fun a b => (snd b <= snd a)%Q)
       (foldl (fun acc x => insert_by_value x acc) acc l).
Proof.
  revert acc. induction l as [|x l IH]; intros acc Hs; simpl.
  - now rewrite app_nil_r.
  - destruct (IH (insert_by_value x acc)) as [Hp Hsorted];
      [now apply insert_by_value_sorted|].
    split; [|exact Hsorted].
    rewrite Hp, insert_by_value_perm. apply Permutation_middle.
Qed.

Lemma insert_index_perm (i : nat) (l : list nat) :
  insert_index i l ≡ₚ i :: l.
Proof.
  induction l as [|j l IH]; simpl; [reflexivity|].
  destruct (j <=? i)%nat; [|reflexivity].
  rewrite IH. apply Permutation_swap.
Qed.

Lemma insert_index_sorted (i : nat) (l : list nat) :
  StronglySorted le l -> StronglySorted le (insert_index i l).
Proof.
  induction l as [|j l IH]; intros Hs; simpl.
  - repeat constructor.
  - apply StronglySorted_cons in Hs as [Hj Hs].
    destruct (j <=? i)%nat eqn:E.
    + apply Nat.leb_le in E.
      apply StronglySorted_cons. split; [|now apply IH].
      rewrite insert_index_perm. constructor; [exact E | exact Hj].
    + apply Nat.leb_gt in E.
      apply StronglySorted_cons. split.
      * constructor; [lia|].
        eapply Forall_impl; [exact Hj|]. intros z Hz. simpl in Hz. lia.
      * apply StronglySorted_cons. now split.
Qed.

Lemma sorted_indices_from (l acc : list nat) :
  StronglySorted le acc ->
  foldl (fun acc i => insert_index i acc) acc l ≡ₚ acc ++ l
  /\ StronglySorted le (foldl (fun acc i => insert_index i acc) acc l).
Proof.
  revert acc. induction l as [|x l IH]; intros acc Hs; simpl.
  - now rewrite app_nil_r.
  - destruct (IH (insert_index x acc)) as [Hp Hsorted];
      [now apply insert_index_sorted|].
    split; [|exact Hsorted].
    rewrite Hp, insert_index_perm. apply Permutation_middle.
Qed.

(** sorted indices without a repetition are strictly increasing *)
Lemma sorted_distinct_increasing (l : list nat) :
  StronglySorted le l -> NoDup l -> StronglySorted lt l.
Proof.
  induction l as [|i l IH]; intros Hs Hd; [constructor|].
  apply StronglySorted_cons in Hs as [Hi Hs].
  apply NoDup_cons in Hd as [Hni Hd].
  apply StronglySorted_cons. split; [|now apply IH].
  apply Forall_forall. intros j Hj.
  rewrite Forall_forall in Hi. specialize (Hi j Hj).
  assert (i <> j) by (intros ->; contradiction). lia.
Qed.

(** reading a list at increasing positions gives a sublist *)
Lemma lookup_increasing {A : Type} (l : list A) (idxs : list nat)
    (from : nat) :
  StronglySorted lt idxs ->
  Forall (fun i => from <= i < length l) idxs ->
  exists chosen,
    mapM (fun idx => l !! idx) idxs = Some chosen
    /\ Forall2 (fun i s => l !! i = Some s) idxs chosen
    /\ chosen `sublist_of` drop from l.
Proof.
  revert from. induction idxs as [|i idxs IH]; intros from Hs Hr.
  - exists []. repeat split; [constructor | apply sublist_nil_l].
  - apply StronglySorted_cons in Hs as [Hi Hs].
    apply Forall_cons in Hr as [[Hfrom Hlen] Hr].
    destruct (lookup_lt_is_Some_2 l i Hlen) as [x Hx].
    destruct (IH (S i) Hs) as (chosen & Hm & Hf & Hsub).
    { apply Forall_forall. intros j Hj.
      rewrite Forall_forall in Hi, Hr.
      specialize (Hi j Hj). specialize (Hr j Hj). lia. }
    exists (x :: chosen). repeat split.
    + simpl. rewrite Hx. simpl. now rewrite Hm.
    + now constructor.
    + replace (drop from l) with (take (i - from) (drop from l)
                                   ++ drop i l).
      * apply sublist_inserts_l. rewrite (drop_S l x i Hx).
        now apply sublist_skip.
      * rewrite <- (take_drop (i - from) (drop from l)) at 2.
        rewrite drop_drop. do 2 f_equal. lia.
Qed.

(** the sentences of a text hold a word each *)
Lemma ends_in_word_count (b : bool) (s : string) :
  ends_in_word b s = true -> 1 <= word_count b s.
Proof.
  revert b. induction s as [|c s IH]; intros b H; simpl in *.
  - now rewrite H.
  - destruct (is_space c); simpl in H.
    + specialize (IH false H). lia.
    + exact (IH true H).
Qed.

Lemma sentences_have_words (text : string) :
  Forall (fun s => 1 <= word_count false s) (_split_into_sentences text).
Proof.
  unfold _split_into_sentences. apply Forall_forall. intros s Hs.
  apply list_elem_of_In, in_map_iff in Hs as (s0 & <- & Hs0).
  apply filter_In in Hs0 as [_ Ht].
  apply ends_in_word_count, strip_ends_in_word, Ht.
Qed.

Lemma sentence_score_total (word_freq : gmap string nat) (s : string) :
  1 <= word_count false s -> is_Some (sentence_score word_freq s).
Proof.
  intros H. unfold sentence_score. rewrite split_whitespace_length.
  destruct (word_count false s); [lia|]. unfold py_div. eauto.
Qed.

(** an entry of the scores with their positions *)
Lemma combine_seq_lookup (scores : list Q) (from i : nat) (q : Q) :
  (i, q) ∈ combine (seq from (length scores)) scores
  <-> from <= i /\ scores !! (i - from) = Some q.
Proof.
  revert from. induction scores as [|x scores IH]; intros from; simpl.
  - split; [intros H; inversion H | intros [_ H]; discriminate].
  - rewrite elem_of_cons, IH. split.
    + intros [H|[H1 H2]].
      * assert (i = from) by congruence. assert (q = x) by congruence.
        subst. split; [lia|]. now rewrite Nat.sub_diag.
      * split; [lia|].
        replace (i - from) with (S (i - S from)) by lia. exact H2.
    + intros [H1 H2]. destruct (decide (i = from)) as [->|Hne].
      * left. rewrite Nat.sub_diag in H2. simpl in H2. congruence.
      * right. split; [lia|].
        replace (i - from) with (S (i - S from)) in H2 by lia. exact H2.
Qed.

Lemma combine_seq_fst (scores : list Q) (from : nat) :
  map fst (combine (seq from (length scores)) scores)
  = seq from (length scores).
Proof.
  revert from. induction scores as [|x scores IH]; intros from; simpl;
    [reflexivity|].
  now rewrite IH.
Qed.

(** The summary of a text of more than three sentences: the sentences
    at three increasing positions whose scores are not below those of
    the others. *)
Lemma extractive_summary_facts (text : string) :
  3 < length (_split_into_sentences text) ->
  exists (scores : list Q) (idxs : list nat) (chosen : list string),
    Forall2 (fun s q =>
               sentence_score (_calculate_word_frequency text) s = Some q)
            (_split_into_sentences text) scores
    /\ StronglySorted lt idxs
    /\ length idxs = 3
    /\ Forall2 (fun i s => _split_into_sentences text !! i = Some s)
               idxs chosen
    /\ chosen `sublist_of` _split_into_sentences text
    /\ (forall i j qi qj,
          i ∈ idxs -> (j ∉ idxs) ->
          scores !! i = Some qi -> scores !! j = Some qj ->
          (qj <= qi)%Q)
    /\ _generate_extractive_summary text = Some (join " " chosen).
Proof.
  intros Hn. unfold _generate_extractive_summary.
  set (sentences := _split_into_sentences text) in *.
  set (word_freq := _calculate_word_frequency text).
  destruct (length sentences <=? 3)%nat eqn:E;
    [apply Nat.leb_le in E; lia|].
  destruct (mapM (sentence_score word_freq) sentences) as [scores|] eqn:Em.
  2:{ exfalso. apply eq_None_not_Some in Em. apply Em.
      apply mapM_is_Some_2.
      eapply Forall_impl; [apply sentences_have_words|].
      intros s Hs. now apply sentence_score_total. }
  assert (Hscores := mapM_Some_1 _ _ _ Em).
  assert (Hlen := length_mapM _ _ _ Em).
  simpl. rewrite Hlen.
  set (entries := combine (seq 0 (length scores)) scores).
  destruct (sorted_by_value_from entries []) as [Hp Hsorted];
    [constructor|].
  simpl in Hp. fold (sorted_by_value entries) in Hp, Hsorted.
  set (top := take 3 (sorted_by_value entries)).
  destruct (sorted_indices_from (map fst top) []) as [Hip Hisorted];
    [constructor|].
  simpl in Hip. fold (sorted_indices (map fst top)) in Hip, Hisorted.
  assert (Hfst : map fst (sorted_by_value entries)
                 ≡ₚ seq 0 (length scores)).
  { rewrite <- (combine_seq_fst scores 0). fold entries.
    now apply Permutation_map. }
  assert (Htop : map fst top `sublist_of` map fst (sorted_by_value entries)).
  { apply (fmap_sublist fst). apply sublist_take. }
  assert (Hnd : NoDup (map fst top)).
  { eapply sublist_NoDup; [|exact Htop].
    rewrite Hfst. apply NoDup_seq. }
  assert (Hinc : StronglySorted lt (sorted_indices (map fst top))).
  { apply sorted_distinct_increasing; [exact Hisorted|]. now rewrite Hip. }
  assert (Hrange : Forall (fun i => 0 <= i < length sentences)
                          (sorted_indices (map fst top))).
  { apply Forall_forall. intros i Hi. rewrite Hip in Hi.
    assert (Hi' : i ∈ map fst (sorted_by_value entries))
      by (eapply elem_of_sublist; eassumption).
    rewrite Hfst in Hi'. apply elem_of_seq in Hi'. lia. }
  destruct (lookup_increasing sentences _ 0 Hinc Hrange)
    as (chosen & Hm & Hf & Hsub).
  exists scores, (sorted_indices (map fst top)), chosen.
  split; [exact Hscores|]. split; [exact Hinc|]. split.
  { rewrite Hip, length_map. unfold top. rewrite length_take.
    rewrite Hp. unfold entries.
    rewrite length_combine, length_seq. lia. }
  split; [exact Hf|]. split; [exact Hsub|]. split.
  - intros i j qi qj Hi Hj Hqi Hqj.
    rewrite Hip in Hi. rewrite Hip in Hj.
    apply list_elem_of_fmap in Hi as ([i' q] & Hi1 & Hi2).
    simpl in Hi1. subst i'.
    assert (Hq : scores !! i = Some q).
    { assert (Hin : (i, q) ∈ entries).
      { rewrite <- Hp. eapply elem_of_sublist; [exact Hi2|].
        apply sublist_take. }
      apply combine_seq_lookup in Hin as [_ Hin].
      now rewrite Nat.sub_0_r in Hin. }
    assert (q = qi) by congruence. subst q.
    assert (Hjin : (j, qj) ∈ sorted_by_value entries).
    { rewrite Hp. apply combine_seq_lookup. split; [lia|].
      now rewrite Nat.sub_0_r. }
    rewrite <- (take_drop 3 (sorted_by_value entries)) in Hjin, Hsorted.
    apply elem_of_app in Hjin as [Hjin|Hjin].
    + exfalso. apply Hj. apply list_elem_of_fmap. now exists (j, qj).
    + exact (StronglySorted_app_1_elem_of _ _ _ _ _ Hsorted Hi2 Hjin).
  - fold top. rewrite Hm. reflexivity.
Qed.

End ExtractiveFacts.

(** X22. The extractive summary of a text of more than three sentences
    is made of three of its sentences, joined by single spaces in the
    order of the text: every sentence gets a score (the division by
    its number of words is defined), the three positions chosen are
    distinct and in range, and no sentence left out has a higher
    score than a chosen one. *)
Theorem extractive_summary_selects (text : string) :
  3 < length (DocumentSummarizer._split_into_sentences text) ->
  exists (scores : list Q) (idxs : list nat) (chosen : list string),
    Forall2 (fun s q =>
               DocumentSummarizer.sentence_score
                 (DocumentSummarizer._calculate_word_frequency text) s
               = Some q)
            (DocumentSummarizer._split_into_sentences text) scores
    /\ StronglySorted lt idxs
    /\ length idxs = 3
    /\ Forall2 (fun i s =>
                  DocumentSummarizer._split_into_sentences text !! i = Some s)
               idxs chosen
    /\ chosen `sublist_of` DocumentSummarizer._split_into_sentences text
    /\ (forall i j qi qj,
          i ∈ idxs -> (j ∉ idxs) ->
          scores !! i = Some qi -> scores !! j = Some qj ->
          (qj <= qi)%Q)
    /\ DocumentSummarizer._generate_extractive_summary text
       = Some (Text.join " " chosen).
Proof. apply extractive_summary_facts. Qed.

Lemma extractive_summary_selects_witness :
  exists (scores : list Q) (idxs : list nat) (chosen : list string),
    Forall2 (fun s q =>
               DocumentSummarizer.sentence_score
                 (DocumentSummarizer._calculate_word_frequency
                    Scenarios.tide_report) s
               = Some q)
            (DocumentSummarizer._split_into_sentences Scenarios.tide_report)
            scores
    /\ StronglySorted lt idxs
    /\ length idxs = 3
    /\ Forall2 (fun i s =>
                  DocumentSummarizer._split_into_sentences
                    Scenarios.tide_report !! i = Some s)
               idxs chosen
    /\ chosen `sublist_of`
         DocumentSummarizer._split_into_sentences Scenarios.tide_report
    /\ (forall i j qi qj,
          i ∈ idxs -> (j ∉ idxs) ->
          scores !! i = Some qi -> scores !! j = Some qj ->
          (qj <= qi)%Q)
    /\ DocumentSummarizer._generate_extractive_summary Scenarios.tide_report
       = Some (Text.join " " chosen).
Proof.
  apply (extractive_summary_selects Scenarios.tide_report).
  vm_compute. lia.
Defined.

(** X23. [_generate_extractive_summary] returns a summary for every
    text: the sentences it scores are stripped and not empty, so the
    division by the number of words never fails, and the positions it
    reads are positions of sentences. *)
Theorem extractive_summary_never_raises (text : string) :
  is_Some (DocumentSummarizer._generate_extractive_summary text).
Proof.
  destruct (le_lt_dec (length (DocumentSummarizer._split_into_sentences text))
              3) as [H|H].
  - unfold DocumentSummarizer._generate_extractive_summary.
    apply Nat.leb_le in H. rewrite H. eauto.
  - destruct (extractive_summary_facts text H)
      as (scores & idxs & chosen & _ & _ & _ & _ & _ & _ & ->).
    eauto.
Qed.

Example extractive_summary_tide_report :
  DocumentSummarizer._generate_extractive_summary Scenarios.tide_report
  = Some "The tide rises and falls twice each day The tide rises and falls twice each day The tide rises and falls twice each day".
Proof. vm_compute. reflexivity. Qed.

(** ** The chunks handed to the summarization model *)

Section SummarizerChunkFacts.
Import Text DocumentSummarizer.

Lemma join_snoc_length (l : list string) (w : string) :
  String.length (join " " (l ++ [w]))
  <= String.length (join " " l) + String.length w + 1.
Proof.
  unfold join. induction l as [|x l IH]; [simpl; lia|].
  destruct l as [|y l].
  - change (String.concat " " ([x] ++ [w])) with (x +:+ (" " +:+ w)).
    rewrite !string_length_append. simpl. lia.
  - change (String.concat " " ((x :: y :: l) ++ [w]))
      with (x +:+ (" " +:+ String.concat " " ((y :: l) ++ [w]))).
    change (String.concat " " (x :: y :: l))
      with (x +:+ (" " +:+ String.concat " " (y :: l))).
    rewrite !string_length_append. simpl String.length at 1 4. lia.
Qed.

Lemma slice_to_whole (n : nat) (s : string) :
  String.length s <= n -> slice_to n s = s.
Proof.
  unfold slice_to. revert n. induction s as [|c s IH]; intros n H.
  - now destruct n.
  - destruct n; simpl in *; [lia|]. rewrite IH; [reflexivity | lia].
Qed.

Lemma runs_word (cur w t : string) :
  no_blank w = true ->
  runs_from (fun c => negb (is_space c)) cur (w +:+ t)
  = runs_from (fun c => negb (is_space c)) (cur +:+ w) t.
Proof.
  revert cur. induction w as [|c w IH]; intros cur Hw.
  - now rewrite append_empty_l, append_empty_r.
  - simpl in Hw. apply andb_true_iff in Hw as [Hc Hw].
    rewrite append_cons. simpl. rewrite Hc, (IH _ Hw), append_assoc.
    reflexivity.
Qed.

(** splitting the words joined by single spaces gives the words back *)
Lemma split_join_words (l : list string) :
  Forall (fun w => no_blank w = true /\ truthy w = true) l ->
  split_whitespace (join " " l) = l.
Proof.
  unfold split_whitespace, join.
  induction l as [|w l IH]; intros H; [reflexivity|].
  apply Forall_cons in H as [[Hw Ht] Hl].
  destruct l as [|y l].
  - simpl String.concat.
    pose proof (runs_word "" w "" Hw) as Hr.
    rewrite append_empty_r, append_empty_l in Hr. rewrite Hr.
    simpl. now destruct w.
  - change (String.concat " " (w :: y :: l))
      with (w +:+ (String " " (String.concat " " (y :: l)))).
    rewrite (runs_word _ _ _ Hw), append_empty_l.
    change (runs_from (fun c => negb (is_space c)) w
              (String " " (String.concat " " (y :: l))))
      with (flush w ++ runs_from (fun c => negb (is_space c)) ""
                         (String.concat " " (y :: l))).
    rewrite (IH Hl). now destruct w.
Qed.

Lemma split_word (w : string) :
  no_blank w = true -> truthy w = true -> split_whitespace w = [w].
Proof.
  intros Hw Ht. apply (split_join_words [w]). now repeat constructor.
Qed.

(** Every chunk closed while the words [ws] are read holds at most
    [limit] characters or is one of the words. *)
Lemma chunk_steps_bound (limit : nat) (W ws : list string) (st : chunking) :
  Forall (fun w => w ∈ W) ws ->
  Forall (fun c => String.length c <= limit \/ c ∈ W) (chunks st) ->
  String.length (join " " (current_chunk st)) <= current_length st ->
  (current_length st <= limit
   \/ exists w, current_chunk st = [w] /\ w ∈ W) ->
  let st' := foldl (chunk_step limit) st ws in
  Forall (fun c => String.length c <= limit \/ c ∈ W) (chunks st')
  /\ String.length (join " " (current_chunk st')) <= current_length st'
  /\ (current_length st' <= limit
      \/ exists w, current_chunk st' = [w] /\ w ∈ W).
Proof.
  revert st. induction ws as [|word ws IH]; intros st Hws Hc Hl Hb;
    [now repeat split|].
  apply Forall_cons in Hws as [Hword Hws].
  simpl. apply (IH _ Hws); unfold chunk_step;
    destruct (limit <? current_length st + String.length word + 1)%nat
      eqn:E;
    try (apply Nat.ltb_ge in E);
    destruct (current_chunk st) as [|x r] eqn:Ec;
    cbn [chunks current_chunk current_length]; rewrite ?Ec.
  - apply Forall_app. split; [exact Hc|]. apply Forall_singleton.
    left. apply slice_to_length.
  - apply Forall_app. split; [exact Hc|]. apply Forall_singleton.
    destruct Hb as [Hb|(w & Hw & HW)].
    + left. lia.
    + right. assert (r = []) by congruence. assert (x = w) by congruence.
      subst. exact HW.
  - exact Hc.
  - exact Hc.
  - exact Hl.
  - unfold join. simpl. lia.
  - unfold join. simpl. lia.
  - pose proof (join_snoc_length (x :: r) word) as H.
    lia.
  - exact Hb.
  - right. exists word. now split.
  - left. lia.
  - left. lia.
Qed.

(** When no word is longer than [limit], the chunks hold the words
    read, in order. *)
Lemma chunk_steps_words (limit : nat) (ws : list string) (st : chunking) :
  Forall (fun w => (no_blank w = true /\ truthy w = true)
                   /\ String.length w <= limit) ws ->
  Forall (fun w => no_blank w = true /\ truthy w = true)
         (current_chunk st) ->
  let st' := foldl (chunk_step limit) st ws in
  flat_map split_whitespace (chunks st') ++ current_chunk st'
  = flat_map split_whitespace (chunks st) ++ current_chunk st ++ ws
  /\ Forall (fun w => no_blank w = true /\ truthy w = true)
            (current_chunk st').
Proof.
  revert st. induction ws as [|word ws IH]; intros st Hws Hc.
  - simpl. now rewrite app_nil_r.
  - apply Forall_cons in Hws as [[Hword Hlen] Hws]. simpl.
    assert (Hstep :
      flat_map split_whitespace (chunks (chunk_step limit st word))
        ++ current_chunk (chunk_step limit st word)
      = flat_map split_whitespace (chunks st) ++ current_chunk st ++ [word]
      /\ Forall (fun w => no_blank w = true /\ truthy w = true)
                (current_chunk (chunk_step limit st word))).
    { unfold chunk_step.
      destruct (limit <? current_length st + String.length word + 1)%nat.
      - destruct (current_chunk st) as [|x r] eqn:Ec;
          cbn [chunks current_chunk current_length];
          rewrite flat_map_app; cbn [flat_map].
        + rewrite (slice_to_whole _ _ Hlen).
          rewrite (split_word word (proj1 Hword) (proj2 Hword)).
          rewrite !app_nil_r. simpl. split; [reflexivity | constructor].
        + rewrite (split_join_words (x :: r) Hc), app_nil_r.
          rewrite <- !app_assoc. split; [reflexivity|].
          now apply Forall_singleton.
      - cbn [chunks current_chunk current_length].
        split; [reflexivity|].
        apply Forall_app. split; [exact Hc|]. now apply Forall_singleton. }
    destruct Hstep as [Hs1 Hs2].
    destruct (IH (chunk_step limit st word) Hws Hs2) as [H1 H2].
    split; [|exact H2]. cbv zeta in H1. rewrite H1, app_assoc, Hs1.
    now rewrite <- !app_assoc.
Qed.

Lemma split_text_into_chunks_bound (text : string) (limit : nat) :
  Forall (fun chunk =>
            String.length chunk <= limit \/ chunk ∈ split_whitespace text)
         (_split_text_into_chunks text limit).
Proof.
  unfold _split_text_into_chunks. cbv zeta.
  destruct (chunk_steps_bound limit (split_whitespace text)
              (split_whitespace text)
              {| chunks := [];
                 current_chunk := [];
                 current_length := 0 |})
    as (Hc & Hl & Hb).
  - apply Forall_forall. now intros w Hw.
  - constructor.
  - simpl. lia.
  - left. simpl. lia.
  - cbv zeta in Hc, Hl, Hb.
    destruct (current_chunk _) as [|x r] eqn:Ec;
      [exact Hc|].
    apply Forall_app. split; [exact Hc|]. apply Forall_singleton.
    destruct Hb as [Hb|(w & Hw & HW)].
    + left. lia.
    + right. assert (r = []) by congruence. assert (x = w) by congruence.
      subst. exact HW.
Qed.


End SummarizerChunkFacts.

(** X24. Every chunk of [_split_text_into_chunks] holds at most
    [max_length] characters or is a single word of the text: a word
    longer than the limit is cut only when it is read while no chunk
    is open; after an open chunk it is kept whole. *)
Theorem chunks_within_limit_or_one_word (text : string) (limit : nat) :
  Forall (fun chunk =>
            String.length chunk <= limit
            \/ chunk ∈ Text.split_whitespace text)
         (DocumentSummarizer._split_text_into_chunks text limit).
Proof. apply split_text_into_chunks_bound. Qed.

Example chunks_long_word_kept_whole :
  DocumentSummarizer._split_text_into_chunks "aaa bbb ccc ddddddddddd ee" 8
  = ["aaa bbb"; "ccc"; "ddddddddddd"; "ee"].
Proof. reflexivity. Qed.

Example chunks_long_word_cut :
  DocumentSummarizer._split_text_into_chunks "ddddddddddd ee" 8
  = ["dddddddd"; "ee"].
Proof. reflexivity. Qed.

(** X25. When no word of the text is longer than [max_length], the
    chunks of [_split_text_into_chunks] hold at most [max_length]
    characters each and, read one after the other, hold the words of
    the text in the order of the text: no word is lost, cut or
    repeated. *)
Theorem chunks_keep_the_words (text : string) (limit : nat) :
  Forall (fun w => String.length w <= limit) (Text.split_whitespace text) ->
  Forall (fun chunk => String.length chunk <= limit)
         (DocumentSummarizer._split_text_into_chunks text limit)
  /\ flat_map Text.split_whitespace
       (DocumentSummarizer._split_text_into_chunks text limit)
     = Text.split_whitespace text.
Proof.
  intros Hlen. split.
  - pose proof (split_text_into_chunks_bound text limit) as H.
    eapply Forall_impl; [exact H|]. intros c [Hc|Hc]; [exact Hc|].
    rewrite Forall_forall in Hlen. now apply Hlen.
  - unfold DocumentSummarizer._split_text_into_chunks. cbv zeta.
    destruct (chunk_steps_words limit (Text.split_whitespace text)
                {| DocumentSummarizer.chunks := [];
                   DocumentSummarizer.current_chunk := [];
                   DocumentSummarizer.current_length := 0 |})
      as [H1 H2].
    + apply Forall_forall. intros w Hw. split.
      * pose proof (split_whitespace_words text) as Hp.
        rewrite Forall_forall in Hp. now apply Hp.
      * rewrite Forall_forall in Hlen. now apply Hlen.
    + constructor.
    + cbv zeta in H1, H2. simpl in H1.
      destruct (DocumentSummarizer.current_chunk _) as [|x r] eqn:Ec.
      * now rewrite app_nil_r in H1.
      * rewrite flat_map_app. cbn [flat_map].
        rewrite (split_join_words (x :: r) H2), app_nil_r. exact H1.
Qed.

Lemma chunks_keep_the_words_witness :
  Forall (fun chunk => String.length chunk <= 8)
         (DocumentSummarizer._split_text_into_chunks "aaa bbb ccc dddddddd ee"
            8)
  /\ flat_map Text.split_whitespace
       (DocumentSummarizer._split_text_into_chunks "aaa bbb ccc dddddddd ee"
          8)
     = ["aaa"; "bbb"; "ccc"; "dddddddd"; "ee"].
Proof.
  apply (chunks_keep_the_words "aaa bbb ccc dddddddd ee" 8).
  vm_compute. repeat constructor.
Defined.

(** ** The document cleaner *)

Section CleanerFacts.
Import Text DocumentSummarizer DocumentParser.

Lemma space_code (c : ascii) :
  (code c =? 32)%nat = true -> c = " "%char /\ is_space c = true.
Proof.
  intros H. apply Nat.eqb_eq in H. unfold code in H.
  assert (c = " "%char).
  { rewrite <- (ascii_nat_embedding c), H. reflexivity. }
  subst. now split.
Qed.

Lemma collapse_only_spaces (in_run : bool) (s : string) :
  only_spaces (collapse_from in_run s) = true.
Proof.
  revert in_run. induction s as [|c s IH]; intros r; [reflexivity|].
  simpl. destruct (is_space c) eqn:E.
  - destruct r; [apply IH|].
    change (only_spaces (String " " (collapse_from true s)))
      with (only_spaces (collapse_from true s)). apply IH.
  - simpl. rewrite E. simpl. apply IH.
Qed.

Lemma drop_page_number_only_spaces (after_word : bool) (s : string) :
  only_spaces s = true ->
  only_spaces (drop_page_number_from after_word s) = true.
Proof.
  revert after_word. induction s as [|c s IH]; intros a H; [reflexivity|].
  cbn [drop_page_number_from].
  destruct (negb a && digits_then_blanks (String c s)); [reflexivity|].
  simpl in *. apply andb_true_iff in H as [Hc Hs].
  rewrite Hc. now apply IH.
Qed.

Lemma blank_special_only_spaces (s : string) :
  only_spaces s = true -> only_spaces (DocumentParser.blank_special s) = true.
Proof.
  induction s as [|c s IH]; intros H; [reflexivity|].
  simpl in *. apply andb_true_iff in H as [Hc Hs].
  rewrite (IH Hs), andb_true_r.
  destruct (kept_by_clean c); [exact Hc | reflexivity].
Qed.

Lemma blank_special_kept (s : string) :
  all_chars kept_by_clean (DocumentParser.blank_special s) = true.
Proof.
  induction s as [|c s IH]; [reflexivity|]. simpl.
  rewrite IH, andb_true_r.
  destruct (kept_by_clean c) eqn:E; [exact E | reflexivity].
Qed.

Lemma collapse_spaces_single (in_run : bool) (s : string) :
  only_spaces s = true ->
  single_spaced in_run (collapse_spaces_from in_run s) = true.
Proof.
  revert in_run. induction s as [|c s IH]; intros r H; [reflexivity|].
  simpl in H. apply andb_true_iff in H as [Hc Hs]. simpl.
  destruct (code c =? 32)%nat eqn:E.
  - destruct r; [now apply IH|].
    change (single_spaced false (String " " (collapse_spaces_from true s)))
      with (single_spaced true (collapse_spaces_from true s)).
    now apply IH.
  - rewrite orb_false_r in Hc. apply negb_true_iff in Hc.
    simpl. rewrite Hc. now apply IH.
Qed.

Lemma collapse_spaces_kept (in_run : bool) (s : string) :
  all_chars kept_by_clean s = true ->
  all_chars kept_by_clean (collapse_spaces_from in_run s) = true.
Proof.
  revert in_run. induction s as [|c s IH]; intros r H; [reflexivity|].
  simpl in H. apply andb_true_iff in H as [Hc Hs]. simpl.
  destruct (code c =? 32)%nat.
  - destruct r; [now apply IH|].
    change (all_chars kept_by_clean
              (String " " (collapse_spaces_from true s)))
      with (all_chars kept_by_clean (collapse_spaces_from true s)).
    now apply IH.
  - simpl. rewrite Hc. now apply IH.
Qed.

Lemma lstrip_single (b : bool) (s : string) :
  single_spaced b s = true -> single_spaced true (lstrip s) = true.
Proof.
  revert b. induction s as [|c s IH]; intros b H; [reflexivity|].
  simpl in *. destruct (is_space c) eqn:E.
  - apply andb_true_iff in H as [_ H]. now apply (IH true).
  - simpl. now rewrite E.
Qed.

Lemma rstrip_single (b : bool) (s : string) :
  single_spaced b s = true -> single_spaced b (rstrip s) = true.
Proof.
  revert b. induction s as [|c s IH]; intros b H; [reflexivity|].
  simpl in *. destruct (rstrip s) as [|d r] eqn:Er.
  - destruct (is_space c) eqn:E; [reflexivity|]. simpl. now rewrite E.
  - change (single_spaced b (String c (String d r)))
      with (if is_space c
            then negb b && (code c =? 32)%nat
                 && single_spaced true (String d r)
            else single_spaced false (String d r)).
    destruct (is_space c).
    + apply andb_true_iff in H as [H1 H2]. rewrite H1. now apply IH.
    + now apply IH.
Qed.

Lemma lstrip_kept (p : ascii -> bool) (s : string) :
  all_chars p s = true -> all_chars p (lstrip s) = true.
Proof.
  induction s as [|c s IH]; intros H; [reflexivity|].
  simpl. destruct (is_space c); [|exact H].
  simpl in H. apply andb_true_iff in H as [_ H]. now apply IH.
Qed.

Lemma rstrip_kept (p : ascii -> bool) (s : string) :
  all_chars p s = true -> all_chars p (rstrip s) = true.
Proof.
  induction s as [|c s IH]; intros H; [reflexivity|].
  simpl in *. apply andb_true_iff in H as [Hc Hs].
  destruct (rstrip s) as [|d r] eqn:Er.
  - destruct (is_space c); [reflexivity|]. simpl. now rewrite Hc.
  - change (all_chars p (String c (String d r)))
      with (p c && all_chars p (String d r)).
    rewrite Hc. now apply IH.
Qed.

(** what [_clean_text] returns: blanks are single spaces between
    words, and every character is of the class it keeps *)
Lemma clean_text_facts (text : string) :
  single_spaced true (_clean_text text) = true
  /\ all_chars kept_by_clean (_clean_text text) = true.
Proof.
  unfold _clean_text. destruct (negb (truthy text)); [now split|].
  cbv zeta. unfold strip. split.
  - apply rstrip_single. eapply lstrip_single.
    apply collapse_spaces_single, blank_special_only_spaces.
    apply drop_page_number_only_spaces, collapse_only_spaces.
  - apply rstrip_kept, lstrip_kept, collapse_spaces_kept, blank_special_kept.
Qed.

(** a text whose blanks are single spaces between words is its words
    joined by spaces *)
Lemma single_spaced_join (s : string) :
  (forall cur,
     truthy cur = true -> single_spaced false s = true ->
     ends_in_word true s = true ->
     join " " (runs_from (fun c => negb (is_space c)) cur s) = cur +:+ s)
  /\ (single_spaced true s = true -> ends_in_word false s = true ->
      join " " (runs_from (fun c => negb (is_space c)) "" s) = s).
Proof.
  induction s as [|c s [IHa IHb]].
  - split; [|discriminate]. intros cur Hcur _ _. simpl.
    rewrite append_empty_r. now destruct cur.
  - split.
    + intros cur Hcur Hs He. cbn [runs_from].
      cbn [single_spaced] in Hs. cbn [ends_in_word] in He.
      destruct (is_space c) eqn:E; cbn [negb] in *.
      * apply andb_true_iff in Hs as [Hc Hs].
        destruct (space_code c Hc) as [-> _].
        specialize (IHb Hs He).
        destruct (runs_from (fun c => negb (is_space c)) "" s)
          as [|y l] eqn:Er.
        { cbn in IHb. subst s. discriminate. }
        destruct cur as [|x cur]; [discriminate|].
        change (join " " (flush (String x cur) ++ y :: l))
          with (String x cur +:+ (String " " (join " " (y :: l)))).
        now rewrite IHb.
      * rewrite (IHa _ (truthy_snoc cur c) Hs He).
        now rewrite append_assoc.
    + intros Hs He. cbn [runs_from].
      cbn [single_spaced] in Hs. cbn [ends_in_word] in He.
      destruct (is_space c) eqn:E; cbn [negb] in *; [discriminate|].
      rewrite append_empty_l.
      now rewrite (IHa (String c "") eq_refl Hs He).
Qed.

Lemma single_spaced_only_spaces (b : bool) (s : string) :
  single_spaced b s = true -> only_spaces s = true.
Proof.
  revert b. induction s as [|c s IH]; intros b H; [reflexivity|].
  simpl in *. destruct (is_space c).
  - apply andb_true_iff in H as [H1 H2].
    apply andb_true_iff in H1 as [_ H1]. rewrite H1. simpl. now apply (IH true).
  - simpl. now apply (IH false).
Qed.

Lemma slice_to_only_spaces (n : nat) (s : string) :
  only_spaces s = true -> only_spaces (slice_to n s) = true.
Proof.
  unfold slice_to. revert n. induction s as [|c s IH]; intros n H.
  - now destruct n.
  - destruct n; [reflexivity|]. simpl in *.
    apply andb_true_iff in H as [Hc Hs]. rewrite Hc. now apply IH.
Qed.

(** a text without line break is one paragraph *)
Lemma split_blank_lines_one (s : string) :
  only_spaces s = true -> split_blank_lines s = [s].
Proof.
  unfold split_blank_lines.
  assert (H : only_spaces s = true -> split_blank_lines_from s = (s, [])).
  { induction s as [|c s IH]; intros H; [reflexivity|].
    simpl in H. apply andb_true_iff in H as [Hc Hs].
    cbn [split_blank_lines_from]. destruct s as [|c' s]; [reflexivity|].
    assert (Hlf : Ascii.eqb c "010" = false).
    { destruct (Ascii.eqb_spec c "010") as [->|]; [discriminate | reflexivity]. }
    rewrite Hlf. cbn [andb]. now rewrite (IH Hs). }
  intros Hs. now rewrite (H Hs).
Qed.

Lemma reference_in_cleaned_document (raw sentence : string) :
  QAEngine.reference_for (_clean_text raw) sentence
  = "Based on document content"
  \/ exists number,
       1 <= number
       /\ QAEngine.reference_for (_clean_text raw) sentence
          = "Based on paragraph 1, sentence " +:+ pretty number.
Proof.
  unfold QAEngine.reference_for.
  destruct (str_find sentence (_clean_text raw)) as [pos|]; [|now left].
  right. cbv zeta.
  rewrite split_blank_lines_one.
  - eexists. split; [|reflexivity]. lia.
  - apply slice_to_only_spaces.
    apply (single_spaced_only_spaces true), clean_text_facts.
Qed.

End CleanerFacts.

(** X26. The text returned by [_clean_text] is its words joined by
    single spaces: it holds no line break, tab or other blank than the
    space, no two spaces in a row, and no blank at either end. *)
Theorem clean_text_single_spaced (text : string) :
  Text.join " " (Text.split_whitespace (DocumentParser._clean_text text))
  = DocumentParser._clean_text text.
Proof.
  destruct (clean_text_facts text) as [Hs _].
  destruct (DocumentParser._clean_text text) as [|c r] eqn:E;
    [reflexivity|].
  rewrite <- E in *. apply single_spaced_join; [exact Hs|].
  unfold DocumentParser._clean_text in *.
  destruct (negb (Text.truthy text)); [discriminate|].
  cbv zeta in *. apply strip_ends_in_word. now rewrite E.
Qed.

(** X27. Every character of the text returned by [_clean_text] is a
    word character, a space or one of the punctuation marks, brackets
    and quotes of the class the function keeps. *)
Theorem clean_text_keeps_class (text : string) :
  DocumentParser.all_chars
    (fun c => DocumentParser.kept_by_clean c
              && (negb (Text.is_space c) || (Text.code c =? 32)%nat))
    (DocumentParser._clean_text text) = true.
Proof.
  destruct (clean_text_facts text) as [Hs Hk].
  apply (single_spaced_only_spaces true) in Hs.
  induction (DocumentParser._clean_text text) as [|c s IH]; [reflexivity|].
  simpl in *. apply andb_true_iff in Hs as [Hs1 Hs2].
  apply andb_true_iff in Hk as [Hk1 Hk2].
  rewrite Hk1, Hs1. now apply IH.
Qed.

(** X28. A document that went through [_clean_text] is a single
    paragraph for [_generate_references]: every citation is the
    generic one or names paragraph 1. *)
Theorem cleaned_document_single_paragraph
    (raw : string) (source_sentences : list string) :
  Forall (fun reference =>
            reference = "Based on document content"
            \/ exists number,
                 1 <= number
                 /\ reference
                    = "Based on paragraph 1, sentence " +:+ pretty number)
         (QAEngine._generate_references source_sentences
            (DocumentParser._clean_text raw)).
Proof.
  unfold QAEngine._generate_references.
  apply Forall_forall. intros r Hr.
  apply list_elem_of_In, in_map_iff in Hr as (sentence & <- & _).
  apply reference_in_cleaned_document.
Qed.

Example clean_text_drops_one_number :
  DocumentParser._clean_text "a 1 2" = "a 1"
  /\ DocumentParser._clean_text "a 1" = "a".
Proof. split; reflexivity. Qed.

(** ** The text handed to the summarizer *)

Section PreprocessFacts.
Import Text DocumentSummarizer DocumentParser.

Lemma close_up_no_blank_before_mark (s : string) :
  blank_before_mark (close_up_punctuation s) = false.
Proof.
  induction s as [|c s IH]; [reflexivity|].
  cbn [close_up_punctuation].
  destruct (is_space c) eqn:E.
  - destruct (close_up_punctuation s) as [|p r] eqn:Er;
      [cbn [blank_before_mark]; now rewrite andb_false_r|].
    destruct (is_punctuation p) eqn:Ep; [exact IH|].
    cbn [blank_before_mark] in *. now rewrite Ep, andb_false_r, IH.
  - cbn [blank_before_mark]. now rewrite E, IH.
Qed.

Lemma lstrip_no_blank_before_mark (s : string) :
  blank_before_mark s = false -> blank_before_mark (lstrip s) = false.
Proof.
  induction s as [|c s IH]; intros H; [reflexivity|].
  cbn [lstrip]. destruct (is_space c); [|exact H].
  cbn [blank_before_mark] in H. apply orb_false_iff in H as [_ H].
  now apply IH.
Qed.

Lemma rstrip_same_head (s : string) (d : ascii) (r : string) :
  rstrip s = String d r -> exists t, s = String d t.
Proof.
  destruct s as [|c s]; [discriminate|]. simpl.
  destruct (rstrip s).
  - destruct (is_space c); [discriminate|].
    intros H. assert (c = d) by congruence. subst. eauto.
  - intros H. assert (c = d) by congruence. subst. eauto.
Qed.

Lemma rstrip_no_blank_before_mark (s : string) :
  blank_before_mark s = false -> blank_before_mark (rstrip s) = false.
Proof.
  induction s as [|c s IH]; intros H; [reflexivity|].
  cbn [blank_before_mark] in H. apply orb_false_iff in H as [Hc Hs].
  cbn [rstrip]. destruct (rstrip s) as [|d r] eqn:Er.
  - destruct (is_space c) eqn:E; [reflexivity|].
    cbn [blank_before_mark]. now rewrite E.
  - destruct (rstrip_same_head s d r Er) as [t ->].
    cbn [blank_before_mark] in *. rewrite Hc. cbn [orb].
    now apply IH.
Qed.

Lemma preprocess_blank_special_chars (s : string) :
  only_spaces s = true ->
  all_chars (fun c => kept_by_preprocess c
                      && (negb (is_space c) || (code c =? 32)%nat))
            (DocumentSummarizer.blank_special s) = true.
Proof.
  induction s as [|c s IH]; intros H; [reflexivity|].
  cbn [only_spaces] in H. apply andb_true_iff in H as [Hc Hs].
  cbn [DocumentSummarizer.blank_special all_chars].
  rewrite (IH Hs), andb_true_r.
  destruct (kept_by_preprocess c) eqn:E; [now rewrite E, Hc | reflexivity].
Qed.

Lemma close_up_chars (p : ascii -> bool) (s : string) :
  all_chars p s = true -> all_chars p (close_up_punctuation s) = true.
Proof.
  induction s as [|c s IH]; intros H; [reflexivity|].
  cbn [all_chars] in H. apply andb_true_iff in H as [Hc Hs].
  specialize (IH Hs). cbn [close_up_punctuation].
  destruct (is_space c).
  - destruct (close_up_punctuation s) as [|q r].
    + cbn [all_chars]. now rewrite Hc.
    + destruct (is_punctuation q); [exact IH|].
      change (all_chars p (String c (String q r)))
        with (p c && all_chars p (String q r)).
      now rewrite Hc, IH.
  - cbn [all_chars]. now rewrite Hc, IH.
Qed.

Lemma preprocess_text_facts (text : string) :
  blank_before_mark (_preprocess_text text) = false
  /\ all_chars (fun c => kept_by_preprocess c
                         && (negb (is_space c) || (code c =? 32)%nat))
               (_preprocess_text text) = true.
Proof.
  unfold _preprocess_text, strip. cbv zeta. split.
  - apply rstrip_no_blank_before_mark, lstrip_no_blank_before_mark.
    apply close_up_no_blank_before_mark.
  - apply rstrip_kept, lstrip_kept, close_up_chars.
    apply preprocess_blank_special_chars, collapse_only_spaces.
Qed.

End PreprocessFacts.

(** X29. In the text returned by [_preprocess_text] no blank stands
    directly before one of [. , ; : ! ?], every blank is a space, and
    every other character is a word character or one of
    [. , ; : ! ? - ( )]. *)
Theorem preprocess_text_normalized (text : string) :
  DocumentSummarizer.blank_before_mark
    (DocumentSummarizer._preprocess_text text) = false
  /\ DocumentParser.all_chars
       (fun c => DocumentSummarizer.kept_by_preprocess c
                 && (negb (Text.is_space c) || (Text.code c =? 32)%nat))
       (DocumentSummarizer._preprocess_text text) = true.
Proof. apply preprocess_text_facts. Qed.

Example preprocess_text_closes_up :
  DocumentSummarizer._preprocess_text "  Tides @ rise  , then fall   !  "
  = "Tides   rise, then fall!".
Proof. vm_compute. reflexivity. Qed.
